(** * Garden: action graph construction, exec handlers, run-result store and
      the interactive command line, as a shallow embedding.

    Sources embedded here:
    - [core/src/graph/actions.ts]: [actionConfigsToGraph], [addConfig],
      [actionNameConflictError], [dependenciesFromActionConfig];
    - [core/src/garden.ts]: [addActionConfig], [addModuleConfig],
      [addWorkflow], the merge of module actions in [getConfigGraph],
      [emitWarning], [hideWarning];
    - [core/src/plugins/exec/{build,run,test}.ts]: the exec handlers;
    - [core/src/plugins/kubernetes/run-results.ts]: [k8sGetRunResult],
      [getRunResultKey], [storeRunResult], [clearTaskResult];
    - [core/src/plugins/kubernetes/kubernetes-type/common.ts]:
      [getManifests], [readManifests], [runOrTest];
    - [core/src/plugins/kubernetes/helm/module-config.ts]:
      [configureHelmModule];
    - [core/src/server/commands.ts]: [HideCommand], [resolveRequest];
    - [core/src/cli/command-line.ts]: the [CommandLine] editor and its key
      handlers.

    JavaScript strings are modelled as [string] (their UTF-8 bytes),
    JavaScript objects used as dictionaries as [gmap string _], exceptions as
    the [Err] branch of [Result]. *)

From Stdlib Require Import ZArith String List Ascii Bool Lia.
From stdpp Require Import base option list gmap strings.
Import ListNotations.

Local Open Scope string_scope.

(** ** Results of fallible code *)

Inductive Result (E A : Type) : Type :=
| Ok (a : A)
| Err (e : E).
Arguments Ok {E A} a.
Arguments Err {E A} e.

Definition bindR {E A B} (r : Result E A) (k : A -> Result E B) : Result E B :=
  match r with
  | Ok a => k a
  | Err e => Err e
  end.

Notation "'try!' x := r 'in' k" := (bindR r (fun x => k))
  (at level 10, x name, r at level 100, k at level 200).

(** A line feed, for the multi-line messages built with [dedent]. *)
Definition nl : string := String (ascii_of_nat 10) EmptyString.

(** [haystack.includes(needle)] on strings. *)
Fixpoint includesStr (needle haystack : string) : bool :=
  String.prefix needle haystack ||
  match haystack with
  | EmptyString => false
  | String _ rest => includesStr needle rest
  end.

(** ** Action configs and errors *)

Module Config.

(** [ActionMode] of [actions/types]. *)
Inductive ActionMode := ModeDefault | ModeSync | ModeLocal.

Definition modeName (m : ActionMode) : string :=
  match m with
  | ModeDefault => "default"
  | ModeSync => "sync"
  | ModeLocal => "local"
  end.

(** The [internal] block of an action config. *)
Record ActionConfigInternal := {
  basePath : string;
  configFilePath : option string;
  groupName : option string;
  moduleName : option string;
}.

Record BuildCopyFrom := { copyBuild : string }.

(** An action config as the graph builder reads it.  [kind] is a [string]:
    the configs come from YAML and [addConfig] checks the kind at run
    time. *)
Record ActionConfig := {
  kind : string;
  type : string;
  name : string;
  internal : ActionConfigInternal;
  dependencies : option (list string);
  build : option string;
  copyFrom : option (list BuildCopyFrom);
}.

Record GroupInternal := { groupConfigFilePath : option string }.

Record GroupConfig := {
  groupConfigName : string;
  groupInternal : option GroupInternal;
  actions : list ActionConfig;
}.

(** [actionKinds] of [actions/types]. *)
Definition actionKinds : list string := ["Build"; "Deploy"; "Run"; "Test"].

Inductive ErrorType :=
| ConfigurationError | ValidationError | PluginError | InternalError.

(** A [GardenError]: its class, message, and the configs put in [detail]. *)
Record GardenError := {
  errType : ErrorType;
  message : string;
  detailConfigs : list ActionConfig;
}.

(** [config.internal.configFilePath || config.internal.basePath]: an empty
    path is falsy. *)
Definition sourcePath (c : ActionConfig) : string :=
  match configFilePath (internal c) with
  | Some p => if String.eqb p "" then basePath (internal c) else p
  | None => basePath (internal c)
  end.

(** The kind is one of [actionKinds], as the type [ActionKind] says. *)
Definition knownKind (c : ActionConfig) : Prop := kind c ∈ actionKinds.

End Config.
Import Config.

(** ** Registration of the configs: the first phase of [actionConfigsToGraph] *)

Section Registry.

(** [actionReferenceToString({kind, name})], of [actions/base]. *)
Variable actionReferenceToString : string -> string -> string.
(** [describeActionConfigWithPath(config, rootPath)], of [actions/base]. *)
Variable describeActionConfigWithPath : ActionConfig -> string -> string.
(** [garden.projectRoot]. *)
Variable projectRoot : string.

Definition configKey (c : ActionConfig) : string :=
  actionReferenceToString (kind c) (name c).

Definition actionNameConflictMessage (configA configB : ActionConfig) (rootPath : string) : string :=
  "Found two actions of the same name and kind:" ++ nl ++
  "  - " ++ describeActionConfigWithPath configA rootPath ++ nl ++
  "  - " ++ describeActionConfigWithPath configB rootPath ++ nl ++
  "Please rename one of the two to avoid the conflict.".

Definition actionNameConflictError (configA configB : ActionConfig) (rootPath : string) : GardenError :=
  {| errType := ConfigurationError;
     message := actionNameConflictMessage configA configB rootPath;
     detailConfigs := [configA; configB] |}.

Definition unknownKindError (config : ActionConfig) : GardenError :=
  {| errType := ConfigurationError;
     message := "Unknown action kind: " ++ kind config;
     detailConfigs := [config] |}.

(** [addConfig], the closure over [configsByKey]. *)
Definition addConfig (configsByKey : gmap string ActionConfig) (config : ActionConfig)
  : Result GardenError (gmap string ActionConfig) :=
  if negb (existsb (String.eqb (kind config)) actionKinds) then
    Err (unknownKindError config)
  else
    let key := configKey config in
    match configsByKey !! key with
    | Some existing => Err (actionNameConflictError existing config projectRoot)
    | None => Ok (<[key := config]> configsByKey)
    end.

(** [configs.forEach(addConfig)] *)
Fixpoint addConfigs (configsByKey : gmap string ActionConfig) (configs : list ActionConfig)
  : Result GardenError (gmap string ActionConfig) :=
  match configs with
  | [] => Ok configsByKey
  | config :: rest =>
      try! configsByKey' := addConfig configsByKey config in
      addConfigs configsByKey' rest
  end.

(** The two assignments made to a group's action before it is added. *)
Definition nestInGroup (group : GroupConfig) (config : ActionConfig) : ActionConfig :=
  let i := internal config in
  let path :=
    match groupInternal group with
    | Some gi =>
        match groupConfigFilePath gi with
        | Some p => if String.eqb p "" then configFilePath i else Some p
        | None => configFilePath i
        end
    | None => configFilePath i
    end in
  {| kind := kind config; type := type config; name := name config;
     internal := {| basePath := basePath i; configFilePath := path;
                    groupName := Some (groupConfigName group);
                    moduleName := moduleName i |};
     dependencies := dependencies config; build := build config;
     copyFrom := copyFrom config |}.

(** [for (const config of group.actions) { ...; addConfig(config) }] *)
Fixpoint addGroupActions (group : GroupConfig) (configsByKey : gmap string ActionConfig)
    (actions : list ActionConfig) : Result GardenError (gmap string ActionConfig) :=
  match actions with
  | [] => Ok configsByKey
  | config :: rest =>
      try! configsByKey' := addConfig configsByKey (nestInGroup group config) in
      addGroupActions group configsByKey' rest
  end.

(** [for (const group of groupConfigs) { ... }] *)
Fixpoint addGroups (configsByKey : gmap string ActionConfig) (groupConfigs : list GroupConfig)
  : Result GardenError (gmap string ActionConfig) :=
  match groupConfigs with
  | [] => Ok configsByKey
  | group :: rest =>
      try! configsByKey' := addGroupActions group configsByKey (actions group) in
      addGroups configsByKey' rest
  end.

(** Lines 85-113 of [actionConfigsToGraph]: the registry, or the error
    that aborts the whole construction. *)
Definition registerConfigs (configs : list ActionConfig) (groupConfigs : list GroupConfig)
  : Result GardenError (gmap string ActionConfig) :=
  try! configsByKey := addConfigs ∅ configs in
  addGroups configsByKey groupConfigs.

(** The configs in the order [addConfig] sees them. *)
Definition allConfigs (configs : list ActionConfig) (groupConfigs : list GroupConfig)
  : list ActionConfig :=
  configs ++ flat_map (fun g => map (nestInGroup g) (actions g)) groupConfigs.

End Registry.

(** ** [Garden.addActionConfig]: the registry of directly declared configs *)

Section GardenRegistry.

(** [relative(from, to)] of the [path] module. *)
Variable relative : string -> string -> string.
Variable projectRoot : string.

(** [[a, b].sort()] on two strings. *)
Definition sortPaths (a b : string) : string * string :=
  if String.leb a b then (a, b) else (b, a).

Definition declaredTwiceMessage (config : ActionConfig) (pathA pathB : string) : string :=
  kind config ++ " action " ++ name config ++ " is declared multiple times (in '"
    ++ pathA ++ "' and '" ++ pathB ++ "')".

(** [addActionConfig(config)], [garden.ts] lines 1286-1307, on
    [this.actionConfigs] indexed by kind and name. *)
Definition addActionConfig (actionConfigs : gmap (string * string) ActionConfig)
    (config : ActionConfig) : Result GardenError (gmap (string * string) ActionConfig) :=
  match actionConfigs !! (kind config, name config) with
  | Some existing =>
      let '(pathA, pathB) :=
        sortPaths (relative projectRoot (sourcePath existing))
                  (relative projectRoot (sourcePath config)) in
      Err {| errType := ConfigurationError;
             message := declaredTwiceMessage config pathA pathB;
             detailConfigs := [] |}
  | None => Ok (<[(kind config, name config) := config]> actionConfigs)
  end.

End GardenRegistry.

(** ** Execution modes and the per-config step of [actionConfigsToGraph] *)

Module Modes.

Inductive LogLevel := LSilly | LDebug | LVerbose | LInfo | LWarn.

Record LogEntry := { level : LogLevel; text : string }.

(** [ActionModeMap]: both lists are optional ([actionModes.sync || []]). *)
Record ActionModeMap := {
  sync : option (list string);
  local : option (list string);
}.

(** The three locals of the callback: [mode], [explicitMode] and what was
    sent to [log] so far. *)
Record ModeState := {
  mode : ActionMode;
  explicitMode : bool;
  logged : list LogEntry;
}.

Definition initialModeState : ModeState :=
  {| mode := ModeDefault; explicitMode := false; logged := [] |}.

Definition exactKeyMessage (key : string) (m : ActionMode) : string :=
  "Action " ++ key ++ " set to " ++ modeName m ++ " mode, matched on exact key".

Definition patternMessage (key : string) (m : ActionMode) (pattern : string) : string :=
  "Action " ++ key ++ " set to " ++ modeName m ++ " mode, matched with pattern '"
    ++ pattern ++ "'".

(** [log.silly(s)] *)
Definition silly (s : string) : LogEntry := {| level := LSilly; text := s |}.

(** What the graph builder uses of an [Action]. *)
Record Action := {
  actionConfig : ActionConfig;
  longDescription : string;
  supportsMode : ActionMode -> bool;
}.

Definition unsupportedModeWarning (action : Action) (m : ActionMode) : string :=
  longDescription action ++ " is not configured for or does not support "
    ++ modeName m ++ " mode".

Definition processingErrorMessage (config : ActionConfig) (inner : string) : string :=
  nl ++ "Error processing config for " ++ kind config ++ " action " ++ name config
     ++ ":" ++ nl ++ inner.

Section WithMatcher.

(** [minimatch(key, pattern)], the glob matcher (a third-party package). *)
Variable minimatch : string -> string -> bool.

(** One of the two [for (const pattern of ...)] loops, with its [break]s;
    [target] is the mode the loop assigns. *)
Fixpoint applyModePatterns (target : ActionMode) (key : string)
    (patterns : list string) (st : ModeState) : ModeState :=
  match patterns with
  | [] => st
  | pattern :: rest =>
      if String.eqb key pattern then
        {| mode := target; explicitMode := true;
           logged := logged st ++ [{| level := LSilly; text := exactKeyMessage key target |}] |}
      else if minimatch key pattern then
        {| mode := target; explicitMode := explicitMode st;
           logged := logged st ++
             [{| level := LSilly; text := patternMessage key target pattern |}] |}
      else applyModePatterns target key rest st
  end.

(** Lines 125-155: the sync loop, then the local loop on the same
    locals. *)
Definition resolveMode (actionModes : ActionModeMap) (key : string) : ModeState :=
  let afterSync :=
    applyModePatterns ModeSync key (default [] (sync actionModes)) initialModeState in
  applyModePatterns ModeLocal key (default [] (local actionModes)) afterSync.

(** [actionFromConfig] with everything but the config and the mode fixed. *)
Variable actionFromConfig : ActionConfig -> ActionMode -> Result GardenError Action.

(** The callback given to [Bluebird.map] (lines 124-186) for one entry of
    [configsByKey]: what it logs, and the action it adds to the graph or
    the error it throws.  Colours are left out of the messages. *)
Definition processEntry (actionModes : ActionModeMap) (key : string) (config : ActionConfig)
  : list LogEntry * Result GardenError Action :=
  let st := resolveMode actionModes key in
  match actionFromConfig config (mode st) with
  | Ok action =>
      let warnings :=
        if negb (supportsMode action (mode st)) then
          if explicitMode st then
            [{| level := LWarn; text := unsupportedModeWarning action (mode st) |}]
          else []
        else [] in
      ((logged st ++ warnings)%list, Ok action)
  | Err error =>
      (logged st,
       Err {| errType := ConfigurationError;
              message := processingErrorMessage config (message error);
              detailConfigs := [config] |})
  end.

(** Whether [processEntry] sent the unsupported-mode warning to the log. *)
Definition warned (actionModes : ActionModeMap) (key : string) (config : ActionConfig) : bool :=
  existsb (fun e => match level e with LWarn => true | _ => false end)
          (fst (processEntry actionModes key config)).

End WithMatcher.

(** How the spec words the origin of a mode: the match that assigned the
    final mode is the first matching entry of the local list if there is
    one, else the first matching entry of the sync list. *)
Inductive MatchOrigin := ByExactKey | ByGlob | NoMatch.

Fixpoint firstMatch (minimatch : string -> string -> bool) (key : string)
    (patterns : list string) : MatchOrigin :=
  match patterns with
  | [] => NoMatch
  | pattern :: rest =>
      if String.eqb key pattern then ByExactKey
      else if minimatch key pattern then ByGlob
      else firstMatch minimatch key rest
  end.

Definition modeAssignedBy (minimatch : string -> string -> bool)
    (actionModes : ActionModeMap) (key : string) : MatchOrigin :=
  match firstMatch minimatch key (default [] (local actionModes)) with
  | NoMatch => firstMatch minimatch key (default [] (sync actionModes))
  | origin => origin
  end.

(** A glob matcher for patterns made of literal characters, [?] and [*]:
    the fragment of [minimatch] used to evaluate the builder on concrete
    keys (keys have no [/] and do not start with a dot). *)
Fixpoint globMatchFuel (fuel : nat) (key pattern : string) : bool :=
  match fuel with
  | O => false
  | S fuel' =>
      match pattern, key with
      | EmptyString, EmptyString => true
      | EmptyString, String _ _ => false
      | String "*" prest, EmptyString => globMatchFuel fuel' key prest
      | String "*" prest, String _ krest =>
          globMatchFuel fuel' key prest || globMatchFuel fuel' krest pattern
      | String "?" prest, String _ krest => globMatchFuel fuel' krest prest
      | String c prest, String k krest =>
          Ascii.eqb c k && globMatchFuel fuel' krest prest
      | String _ _, EmptyString => false
      end
  end.

Definition globMatch (key pattern : string) : bool :=
  globMatchFuel (S (String.length key + String.length pattern)) key pattern.

End Modes.

(** ** [dependenciesFromActionConfig] *)

Module Deps.

Import Modes.

(** [ActionReference] of [config/common]. *)
Record ActionReference := { refKind : string; refName : string }.

(** [ActionDependency]: a reference with its [ActionDependencyAttributes]. *)
Record ActionDependency := {
  depKind : string;
  depName : string;
  explicit : bool;
  needsExecutedOutputs : bool;
  needsStaticOutputs : bool;
}.

(** What [getActionTemplateReferences] yields for one template expression:
    [fullRef] is the whole key path, ["actions"; kind; name; "outputs"; key]. *)
Record ActionTemplateReference := {
  tplKind : string;
  tplName : string;
  fullRef : list string;
}.

(** An [ActionTypeDefinition], reduced to
    [describeSchema(definition.staticOutputsSchema).keys]. *)
Record ActionTypeDefinition := {
  staticOutputsSchema : option (list string);
}.

Section WithHelpers.

Variable actionReferenceToString : string -> string -> string.
Variable describeActionConfig : ActionConfig -> string.
(** [parseActionReference(d)]; [Err] carries the message of what it throws. *)
Variable parseActionReference : string -> Result string ActionReference.
(** [addActionDependency(dep, deps)] of [actions/base], which updates
    [deps] in place: given here as the list it leaves. *)
Variable addActionDependency : ActionDependency -> list ActionDependency -> list ActionDependency.
Variable getActionTemplateReferences : ActionConfig -> list ActionTemplateReference.
Variable maybeTemplateString : string -> bool.
(** [resolveTemplateString(s, templateContext, { allowPartial: false })] *)
Variable resolveTemplateString : string -> Result string string.

Definition mkDep (k n : string) (e x s : bool) : ActionDependency :=
  {| depKind := k; depName := n; explicit := e;
     needsExecutedOutputs := x; needsStaticOutputs := s |}.

(** [config.dependencies.map(...)], lines 599-606. *)
Fixpoint explicitDeps (config : ActionConfig) (ds : list string)
  : Result GardenError (list ActionDependency) :=
  match ds with
  | [] => Ok []
  | d :: rest =>
      match parseActionReference d with
      | Err msg =>
          Err {| errType := ValidationError;
                 message := "Invalid dependency specified: " ++ msg;
                 detailConfigs := [config] |}
      | Ok r =>
          try! deps := explicitDeps config rest in
          Ok (mkDep (refKind r) (refName r) true false false :: deps)
      end
  end.

Definition missingBuildError (config : ActionConfig) (buildName field : string) : GardenError :=
  {| errType := ConfigurationError;
     message := describeActionConfig config ++ " references Build " ++ buildName
                  ++ " in the `" ++ field ++ "` field, but no such Build action could be found";
     detailConfigs := [config] |}.

(** The loop over [config.copyFrom], lines 614-627. *)
Fixpoint copyFromDeps (config : ActionConfig) (configsByKey : gmap string ActionConfig)
    (cs : list BuildCopyFrom) (deps : list ActionDependency)
  : Result GardenError (list ActionDependency) :=
  match cs with
  | [] => Ok deps
  | c :: rest =>
      match configsByKey !! actionReferenceToString "Build" (copyBuild c) with
      | None => Err (missingBuildError config (copyBuild c) "copyFrom")
      | Some _ =>
          copyFromDeps config configsByKey rest
            (addActionDependency (mkDep "Build" (copyBuild c) true false false) deps)
      end
  end.

(** [definition?.staticOutputsSchema ? describeSchema(...).keys : []] *)
Definition staticKeysOf (definition : option ActionTypeDefinition) : list string :=
  match definition with
  | Some d => default [] (staticOutputsSchema d)
  | None => []
  end.

(** Line 663: whether the reference needs the executed outputs. *)
Definition needsExecuted (staticKeys : list string) (ref : ActionTemplateReference) : bool :=
  match nth_error (fullRef ref) 3, nth_error (fullRef ref) 4 with
  | Some seg, Some outputKey =>
      String.eqb seg "outputs" && negb (String.eqb outputKey "")
        && negb (existsb (String.eqb outputKey) staticKeys)
  | _, _ => false
  end.

Definition unresolvedNameWarning (config : ActionConfig) (refName : string) : string :=
  "Unable to infer dependency from action reference in " ++ describeActionConfig config
    ++ ", because template string '" ++ refName
    ++ "' could not be resolved. Either fix the dependency or specify it explicitly.".

(** The loop over the template references, lines 647-668. *)
Fixpoint templateDeps (config : ActionConfig) (staticKeys : list string)
    (refs : list ActionTemplateReference) (acc : list LogEntry * list ActionDependency)
  : list LogEntry * list ActionDependency :=
  match refs with
  | [] => acc
  | ref :: rest =>
      let resolved :=
        if maybeTemplateString (tplName ref) then resolveTemplateString (tplName ref)
        else Ok (tplName ref) in
      match resolved with
      | Err _ =>
          templateDeps config staticKeys rest
            ((fst acc ++ [{| level := LWarn;
                             text := unresolvedNameWarning config (tplName ref) |}])%list,
             snd acc)
      | Ok refName =>
          let executed := needsExecuted staticKeys ref in
          templateDeps config staticKeys rest
            (fst acc,
             addActionDependency
               (mkDep (tplKind ref) refName false executed (negb executed)) (snd acc))
      end
  end.

(** [dependenciesFromActionConfig(log, config, configsByKey, definition,
    templateContext)]: the warnings it logs and the list it returns.
    [definition] is the type definition the caller looked up for
    [config] itself (line 225). *)
Definition dependenciesFromActionConfig (config : ActionConfig)
    (configsByKey : gmap string ActionConfig) (definition : option ActionTypeDefinition)
  : Result GardenError (list LogEntry * list ActionDependency) :=
  try! deps := explicitDeps config (default [] (dependencies config)) in
  try! deps' :=
    (if String.eqb (kind config) "Build" then
       copyFromDeps config configsByKey (default [] (copyFrom config)) deps
     else
       match build config with
       | Some b =>
           if String.eqb b "" then Ok deps
           else
             match configsByKey !! actionReferenceToString "Build" b with
             | None => Err (missingBuildError config b "build")
             | Some _ => Ok (addActionDependency (mkDep "Build" b true false false) deps)
             end
       | None => Ok deps
       end) in
  Ok (templateDeps config (staticKeysOf definition)
        (getActionTemplateReferences config) ([], deps')).

(** Lines 224-225 and 282 of [actionFromConfig]: the definition handed to
    [dependenciesFromActionConfig] is [actionTypes[config.kind][config.type]]. *)
Definition inferDependencies (actionTypes : gmap (string * string) ActionTypeDefinition)
    (config : ActionConfig) (configsByKey : gmap string ActionConfig)
  : Result GardenError (list LogEntry * list ActionDependency) :=
  dependenciesFromActionConfig config configsByKey
    (actionTypes !! (kind config, type config)).

End WithHelpers.

(** An [addActionDependency] that appends the edge when the list has none
    to the same action and otherwise raises the flags of the one it has;
    used to evaluate the inference on concrete configs. *)
Fixpoint addActionDependencyMerging (dep : ActionDependency) (deps : list ActionDependency)
  : list ActionDependency :=
  match deps with
  | [] => [dep]
  | d :: rest =>
      if String.eqb (depKind d) (depKind dep) && String.eqb (depName d) (depName dep) then
        {| depKind := depKind d; depName := depName d;
           explicit := explicit d || explicit dep;
           needsExecutedOutputs := needsExecutedOutputs d || needsExecutedOutputs dep;
           needsStaticOutputs := needsStaticOutputs d || needsStaticOutputs dep |} :: rest
      else d :: addActionDependencyMerging dep rest
  end.

End Deps.

(** ** JavaScript string helpers *)

Module Js.

(** White space of one byte, as [String.prototype.trim] sees it: tab,
    line feed, vertical tab, form feed, carriage return and space. *)
Definition isSpace (c : ascii) : bool :=
  let n := nat_of_ascii c in
  Nat.eqb n 32 || (Nat.leb 9 n && Nat.leb n 13).

(** White space of two bytes (in UTF-8): U+00A0. *)
Definition isSpace2 (c1 c2 : ascii) : bool :=
  Nat.eqb (nat_of_ascii c1) 194 && Nat.eqb (nat_of_ascii c2) 160.

(** White space and line terminators of three bytes (in UTF-8): U+1680,
    U+2000 to U+200A, U+2028, U+2029, U+202F, U+205F, U+3000 and
    U+FEFF. *)
Definition isSpace3 (c1 c2 c3 : ascii) : bool :=
  let n1 := nat_of_ascii c1 in
  let n2 := nat_of_ascii c2 in
  let n3 := nat_of_ascii c3 in
  (Nat.eqb n1 225 && Nat.eqb n2 154 && Nat.eqb n3 128)
  || (Nat.eqb n1 226 && Nat.eqb n2 128
        && ((Nat.leb 128 n3 && Nat.leb n3 138) || Nat.eqb n3 168 || Nat.eqb n3 169
              || Nat.eqb n3 175))
  || (Nat.eqb n1 226 && Nat.eqb n2 129 && Nat.eqb n3 159)
  || (Nat.eqb n1 227 && Nat.eqb n2 128 && Nat.eqb n3 128)
  || (Nat.eqb n1 239 && Nat.eqb n2 187 && Nat.eqb n3 191).

(** The bytes left when the white space at the head of the list is
    dropped; [one], [two] and [three] tell the white space of one, two and
    three bytes, read from the head. *)
Fixpoint dropSpaces (one : ascii -> bool) (two : ascii -> ascii -> bool)
    (three : ascii -> ascii -> ascii -> bool) (l : list ascii) : list ascii :=
  match l with
  | [] => []
  | c1 :: rest1 =>
      if one c1 then dropSpaces one two three rest1
      else
        match rest1 with
        | [] => l
        | c2 :: rest2 =>
            if two c1 c2 then dropSpaces one two three rest2
            else
              match rest2 with
              | [] => l
              | c3 :: rest3 =>
                  if three c1 c2 c3 then dropSpaces one two three rest3 else l
              end
        end
  end.

Definition trimStart (s : string) : string :=
  string_of_list_ascii (dropSpaces isSpace isSpace2 isSpace3 (list_ascii_of_string s)).

(** [trimEnd]: the same from the end, where the bytes of a character are
    met last byte first. *)
Definition trimEnd (s : string) : string :=
  string_of_list_ascii
    (rev (dropSpaces isSpace (fun c2 c1 => isSpace2 c1 c2)
            (fun c3 c2 c1 => isSpace3 c1 c2 c3) (rev (list_ascii_of_string s)))).

(** [s.trim()] *)
Definition trim (s : string) : string := trimEnd (trimStart s).

(** [s.split(" ")]: the pieces between single spaces, empty ones kept. *)
Fixpoint splitSpace (s : string) : list string :=
  match s with
  | EmptyString => [EmptyString]
  | String c rest =>
      if Ascii.eqb c " " then EmptyString :: splitSpace rest
      else match splitSpace rest with
           | piece :: pieces => String c piece :: pieces
           | [] => [String c EmptyString]
           end
  end.

(** [s.slice(0, n)] *)
Definition slice0 (n : nat) (s : string) : string := String.substring 0 n s.

End Js.

(** ** The exec plugin: Build, Run and Test handlers *)

Module Exec.

(** A [Date] object: [id] is its identity (two [new Date()] are never
    [===]), [millis] the instant it holds. *)
Record Date := { dateId : nat; millis : Z }.

(** What [execRunCommand] resolves to. *)
Record ExecResult := {
  all : option string;
  stdout : string;
  stderr : string;
  exitCode : Z;
}.

(** What the handlers do to the outside. *)
Inductive Effect :=
| RunCommand (command : list string)
| CopyArtifacts
| LogVerbose (prefix msg : string).

Record World := {
  now : Z;
  nextDateId : nat;
  effects : list Effect;
}.

(** The part of an exec action the handlers read. *)
Record ExecAction := {
  actionName : string;
  actionKey : string;
  actionModuleName : option string;
  versionString : string;
  specCommand : option (list string);
}.

Record BuildDetail := { fresh : option bool; buildLog : option string }.

Record BuildStatus := {
  buildState : string;
  buildOutputsLog : option string;
  buildDetail : BuildDetail;
}.

(** The [detail] of a Run or Test result; [detailOutputsLog] is
    [detail.outputs.log], which only the Run handler sets. *)
Record RunDetail := {
  detailModuleName : option string;
  detailName : string;
  detailCommand : option (list string);
  detailVersion : string;
  success : bool;
  log : string;
  detailOutputsLog : option string;
  startedAt : Date;
  completedAt : Date;
}.

Record RunStatus := {
  runState : string;
  detail : RunDetail;
  outputsLog : string;
}.

(** [command] is [undefined] or [[]]. *)
Definition emptyCommand (action : ExecAction) : Prop :=
  specCommand action = None ∨ specCommand action = Some [].

(** [new Date()] *)
Definition newDate (w : World) : Date * World :=
  ({| dateId := nextDateId w; millis := now w |},
   {| now := now w; nextDateId := S (nextDateId w); effects := effects w |}).

Definition emit (e : Effect) (w : World) : World :=
  {| now := now w; nextDateId := nextDateId w; effects := (effects w ++ [e])%list |}.

(** [copyArtifacts(log, artifacts, from, to)] *)
Definition copyArtifacts (w : World) : World := emit CopyArtifacts w.

Section WithProcess.

(** What spawning [command] gives: the result or the message of the
    error, and the milliseconds it takes. *)
Variable spawn : list string -> Result string ExecResult * Z.
(** [runResultToActionState(detail)] of [actions/base]. *)
Variable runResultToActionState : RunDetail -> string.

(** Modelled from the spec: [execRunCommand] of
    [plugins/exec/common.ts] is not among the sources.  It runs the
    command and, with [reject: false], does not raise on a non-zero exit
    code. *)
Definition execRunCommand (command : list string) (reject : bool) (w : World)
  : Result string ExecResult * World :=
  let '(outcome, elapsed) := spawn command in
  let w' := {| now := (now w + elapsed)%Z; nextDateId := nextDateId w;
               effects := (effects w ++ [RunCommand command])%list |} in
  match outcome with
  | Ok r =>
      if reject && negb (Z.eqb (exitCode r) 0) then (Err "Command failed", w')
      else (Ok r, w')
  | Err msg => (Err msg, w')
  end.

(** [result.all?.trim() || ""] *)
Definition trimmedOutput (r : ExecResult) : string :=
  match all r with
  | Some a => Js.trim a
  | None => ""
  end.

(** [execBuildHandler], the [build] handler of [execBuild]. *)
Definition execBuildHandler (action : ExecAction) (w : World)
  : Result string BuildStatus * World :=
  let command := specCommand action in
  let ran :=
    match command with
    | Some ((_ :: _) as cmd) =>
        match execRunCommand cmd true w with
        | (Ok result, w') =>
            let out :=
              match all result with
              | Some a => if String.eqb a "" then stdout result ++ stderr result else a
              | None => stdout result ++ stderr result
              end in
            (Ok {| fresh := Some true; buildLog := Some out |}, w')
        | (Err e, w') => (Err e, w')
        end
    | _ => (Ok {| fresh := None; buildLog := None |}, w)
    end in
  match ran with
  | (Err e, w') => (Err e, w')
  | (Ok d, w') =>
      match buildLog d with
      | Some l =>
          if String.eqb l "" then
            (Ok {| buildState := "ready"; buildOutputsLog := None; buildDetail := d |}, w')
          else
            (Ok {| buildState := "ready"; buildOutputsLog := Some l; buildDetail := d |},
             emit (LogVerbose ("Finished building " ++ actionName action
                                 ++ ". Here is the full output:") l) w')
      | None =>
          (Ok {| buildState := "ready"; buildOutputsLog := None; buildDetail := d |}, w')
      end
  end.

Definition logOutput (prefix outputLog : string) (w : World) : World :=
  if String.eqb outputLog "" then w else emit (LogVerbose prefix outputLog) w.

(** The [run] handler of [execRun]. *)
Definition execRunHandler (action : ExecAction) (w : World)
  : Result string RunStatus * World :=
  let command := specCommand action in
  let '(startedAt, w1) := newDate w in
  let ran :=
    match command with
    | Some ((_ :: _) as cmd) =>
        match execRunCommand cmd false w1 with
        | (Ok commandResult, w2) =>
            let '(completedAt, w3) := newDate w2 in
            (Ok (completedAt, trimmedOutput commandResult,
                 Z.eqb (exitCode commandResult) 0), w3)
        | (Err e, w2) => (Err e, w2)
        end
    | _ => (Ok (startedAt, "", true), w1)
    end in
  match ran with
  | (Err e, w') => (Err e, w')
  | (Ok (completedAt, outputLog, ok), w') =>
      let w'' := logOutput ("Finished running task " ++ actionName action
                              ++ ". Here is the full output:") outputLog w' in
      let w''' := copyArtifacts w'' in
      let detail := {| detailModuleName := actionModuleName action;
                       detailName := actionName action;
                       detailCommand := command;
                       detailVersion := versionString action;
                       success := ok; log := outputLog;
                       detailOutputsLog := Some outputLog;
                       startedAt := startedAt; completedAt := completedAt |} in
      (Ok {| runState := runResultToActionState detail; detail := detail;
             outputsLog := outputLog |}, w''')
  end.

(** The [run] handler of [execTest].  Its spec schema is the Run one
    ([execTestSpecSchema = execRunSpecSchema]), so [command] has the same
    shape. *)
Definition execTestHandler (action : ExecAction) (w : World)
  : Result string RunStatus * World :=
  let '(startedAt, w1) := newDate w in
  let command := specCommand action in
  match execRunCommand (default [] command) false w1 with
  | (Err e, w2) => (Err e, w2)
  | (Ok result, w2) =>
      let w3 := copyArtifacts w2 in
      let outputLog := trimmedOutput result in
      let w4 := logOutput ("Finished executing " ++ actionKey action
                             ++ ". Here is the full output:") outputLog w3 in
      let '(completedAt, w5) := newDate w4 in
      let detail := {| detailModuleName := actionModuleName action;
                       detailName := actionName action;
                       detailCommand := command;
                       detailVersion := versionString action;
                       success := Z.eqb (exitCode result) 0; log := outputLog;
                       detailOutputsLog := None;
                       startedAt := startedAt; completedAt := completedAt |} in
      (Ok {| runState := runResultToActionState detail; detail := detail;
             outputsLog := outputLog |}, w5)
  end.

(** Whether a handler run spawned a process. *)
Definition executedSomething (before after : World) : bool :=
  existsb (fun e => match e with RunCommand _ => true | _ => false end)
          (drop (length (effects before)) (effects after)).

End WithProcess.

End Exec.

(** ** SHA-1 (FIPS 180-4), for [hasha(key, { algorithm: "sha1" })] *)

Module Sha1.

Local Open Scope Z_scope.

Definition wordMod : Z := 2 ^ 32.

(** Addition of 32-bit words. *)
Definition add32 (x y : Z) : Z := (x + y) mod wordMod.

(** Rotation to the left of a 32-bit word. *)
Definition rotl (n x : Z) : Z :=
  Z.lor (Z.shiftl x n mod wordMod) (Z.shiftr x (32 - n)).

Definition not32 (x : Z) : Z := wordMod - 1 - x.

Definition Ch (x y z : Z) : Z := Z.lxor (Z.land x y) (Z.land (not32 x) z).
Definition Parity (x y z : Z) : Z := Z.lxor (Z.lxor x y) z.
Definition Maj (x y z : Z) : Z :=
  Z.lxor (Z.lxor (Z.land x y) (Z.land x z)) (Z.land y z).

(** The round function and constant of round [t]. *)
Definition roundF (t : nat) (b c d : Z) : Z :=
  if Nat.ltb t 20 then Ch b c d
  else if Nat.ltb t 40 then Parity b c d
  else if Nat.ltb t 60 then Maj b c d
  else Parity b c d.

Definition roundK (t : nat) : Z :=
  if Nat.ltb t 20 then 0x5a827999
  else if Nat.ltb t 40 then 0x6ed9eba1
  else if Nat.ltb t 60 then 0x8f1bbcdc
  else 0xca62c1d6.

Record HashState := { h0 : Z; h1 : Z; h2 : Z; h3 : Z; h4 : Z }.

Definition initialHash : HashState :=
  {| h0 := 0x67452301; h1 := 0xefcdab89; h2 := 0x98badcfe;
     h3 := 0x10325476; h4 := 0xc3d2e1f0 |}.

(** The bytes of the message followed by the padding: a [0x80] byte, zero
    bytes up to 56 modulo 64, and the bit length on 8 bytes. *)
Definition bytesOf (s : string) : list Z :=
  map (fun c => Z.of_nat (nat_of_ascii c)) (list_ascii_of_string s).

Definition be64 (n : Z) : list Z :=
  map (fun i => Z.shiftr n (8 * i) mod 256) [7; 6; 5; 4; 3; 2; 1; 0].

Definition padding (len : nat) : list Z :=
  let zeros := ((55 + 64 - len mod 64) mod 64)%nat in
  (0x80 :: repeat 0 zeros) ++ be64 (8 * Z.of_nat len).

Definition padded (msg : list Z) : list Z := msg ++ padding (length msg).

(** Big-endian 32-bit words of a block. *)
Fixpoint wordsOf (bytes : list Z) : list Z :=
  match bytes with
  | a :: b :: c :: d :: rest =>
      (Z.shiftl a 24 + Z.shiftl b 16 + Z.shiftl c 8 + d) :: wordsOf rest
  | _ => []
  end.

(** The message schedule, most recent word first: [recent] holds
    [W(t-1), W(t-2), ...]. *)
Definition nextW (recent : list Z) : Z :=
  rotl 1 (Z.lxor (Z.lxor (nth 2 recent 0) (nth 7 recent 0))
                 (Z.lxor (nth 13 recent 0) (nth 15 recent 0))).

Fixpoint extendSchedule (n : nat) (recent : list Z) : list Z :=
  match n with
  | O => recent
  | S n' => extendSchedule n' (nextW recent :: recent)
  end.

Definition schedule (block : list Z) : list Z :=
  rev (extendSchedule 64 (rev (wordsOf block))).

(** One round on the working variables. *)
Definition round (st : HashState * nat) (w : Z) : HashState * nat :=
  let '(v, t) := st in
  let temp := add32 (add32 (add32 (add32 (rotl 5 (h0 v)) (roundF t (h1 v) (h2 v) (h3 v)))
                                   (h4 v)) (roundK t)) w in
  ({| h0 := temp; h1 := h0 v; h2 := rotl 30 (h1 v); h3 := h2 v; h4 := h3 v |}, S t).

Definition compress (h : HashState) (block : list Z) : HashState :=
  let v := fst (fold_left round (schedule block) (h, O)) in
  {| h0 := add32 (h0 h) (h0 v); h1 := add32 (h1 h) (h1 v); h2 := add32 (h2 h) (h2 v);
     h3 := add32 (h3 h) (h3 v); h4 := add32 (h4 h) (h4 v) |}.

Fixpoint blocks (fuel : nat) (h : HashState) (bytes : list Z) : HashState :=
  match fuel with
  | O => h
  | S fuel' =>
      match bytes with
      | [] => h
      | _ => blocks fuel' (compress h (take 64 bytes)) (drop 64 bytes)
      end
  end.

Definition digest (s : string) : HashState :=
  let bytes := padded (bytesOf s) in
  blocks (length bytes) initialHash bytes.

(** Lower-case hexadecimal. *)
Definition hexDigit (n : Z) : ascii :=
  nth (Z.to_nat (n mod 16))
      (list_ascii_of_string "0123456789abcdef") "0"%char.

Definition hexWord (w : Z) : string :=
  string_of_list_ascii
    (map (fun i => hexDigit (Z.shiftr w (4 * i))) [7; 6; 5; 4; 3; 2; 1; 0]).

(** [hasha(s, { algorithm: "sha1" })]: the digest as 40 hex characters. *)
Definition sha1Hex (s : string) : string :=
  let h := digest s in
  (hexWord (h0 h) ++ hexWord (h1 h) ++ hexWord (h2 h) ++ hexWord (h3 h)
     ++ hexWord (h4 h))%string.

Definition isHexChar (c : ascii) : bool :=
  existsb (Ascii.eqb c) (list_ascii_of_string "0123456789abcdef").

Fixpoint allHex (s : string) : bool :=
  match s with
  | EmptyString => true
  | String c rest => isHexChar c && allHex rest
  end.

End Sha1.

(** ** The run-result store of the Kubernetes plugin *)

Module RunResults.

(** The JSON values a stored record deserializes to. *)
#[local] Unset Elimination Schemes.
Inductive JsValue :=
| JUndefined
| JNull
| JBool (b : bool)
| JNum (n : Z)
| JStr (s : string)
| JObj (fields : list (string * JsValue)).
#[local] Set Elimination Schemes.

(** What is thrown: a backend error has a [statusCode], a [TypeError]
    has none. *)
Record JsError := { statusCode : option Z; errorMessage : string }.

Definition typeError (msg : string) : JsError :=
  {| statusCode := None; errorMessage := msg |}.

Definition truthy (v : JsValue) : bool :=
  match v with
  | JUndefined | JNull => false
  | JBool b => b
  | JNum n => negb (Z.eqb n 0)
  | JStr s => negb (String.eqb s "")
  | JObj _ => true
  end.

Fixpoint lookupField (k : string) (fields : list (string * JsValue)) : option JsValue :=
  match fields with
  | [] => None
  | (k', v) :: rest => if String.eqb k k' then Some v else lookupField k rest
  end.

(** [o.k = v] on the fields of an object: the key keeps its place. *)
Fixpoint setField (k : string) (v : JsValue) (fields : list (string * JsValue))
  : list (string * JsValue) :=
  match fields with
  | [] => [(k, v)]
  | (k', v') :: rest =>
      if String.eqb k k' then (k, v) :: rest else (k', v') :: setField k v rest
  end.

(** [v.k]: reading a property of [undefined] or [null] throws; the keys
    read here are on no prototype, so a primitive has none of them. *)
Definition getProp (v : JsValue) (k : string) : Result JsError JsValue :=
  match v with
  | JObj fields => Ok (default JUndefined (lookupField k fields))
  | JUndefined | JNull => Err (typeError ("Cannot read properties of undefined (reading '" ++ k ++ "')"))
  | _ => Ok JUndefined
  end.

(** [v.k = x] in strict mode: throws on anything but an object. *)
Definition setProp (v : JsValue) (k : string) (x : JsValue) : Result JsError JsValue :=
  match v with
  | JObj fields => Ok (JObj (setField k x fields))
  | _ => Err (typeError ("Cannot create property '" ++ k ++ "'"))
  end.

(** [undefined] and [null]. *)
Definition nullish (v : JsValue) : bool :=
  match v with
  | JUndefined | JNull => true
  | _ => false
  end.

(** [v.k] where it does not throw. *)
Definition propOf (v : JsValue) (k : string) : JsValue :=
  match v with
  | JObj fields => default JUndefined (lookupField k fields)
  | _ => JUndefined
  end.

(** [v || ""] *)
Definition orEmpty (v : JsValue) : JsValue := if truthy v then v else JStr "".

(** What [api.core.readNamespacedConfigMap(resultKey, ns)] followed by
    [deserializeValues(res.data!)] gives: the fields of the record, or
    the error thrown. *)
Definition ReadOutcome := Result JsError (list (string * JsValue)).

(** The value [getResult] resolves to. *)
Record GetResult := {
  state : string;
  detail : option JsValue;
  outputs : option JsValue;
}.

Record PluginContext := { projectName : string }.

(** The part of an action the store reads. *)
Record Action := {
  kind : string;
  type : string;
  name : string;
  moduleName : option string;
  versionString : string;
}.

(** [getRunResultKey(ctx, action)], lines 300-304. *)
Definition runResultKeyInput (ctx : PluginContext) (action : Action) : string :=
  projectName ctx ++ "--" ++ type action ++ "." ++ name action ++ "--" ++ versionString action.

Definition getRunResultKey (ctx : PluginContext) (action : Action) : string :=
  let key := runResultKeyInput ctx action in
  let hash := Sha1.sha1Hex key in
  "run-result--" ++ Js.slice0 32 hash.

(** [if (!result.outputs) { result.outputs = {} }] *)
Definition ensureOutputs (result : JsValue) : Result JsError JsValue :=
  try! outputs0 := getProp result "outputs" in
  if truthy outputs0 then Ok result else setProp result "outputs" (JObj []).

(** [if (!result.outputs.log) { result.outputs.log = result.log || "" }]:
    the assignment goes to the object that [result.outputs] refers to. *)
Definition backfillLog (result : JsValue) : Result JsError JsValue :=
  try! outputs1 := getProp result "outputs" in
  try! log1 := getProp outputs1 "log" in
  if truthy log1 then Ok result
  else
    try! legacy := getProp result "log" in
    try! outputs2 := setProp outputs1 "log" (orEmpty legacy) in
    setProp result "outputs" outputs2.

(** [if (result.version.versionString) { result.version = result.version.versionString }] *)
Definition flattenVersion (result : JsValue) : Result JsError JsValue :=
  try! version := getProp result "version" in
  try! versionString := getProp version "versionString" in
  if truthy versionString then setProp result "version" versionString else Ok result.

Section WithState.

(** [runResultToActionState(result)] of [actions/base]. *)
Variable runResultToActionState : JsValue -> string.

(** The body of the [try] block of [k8sGetRunResult], lines 275-290, on
    the deserialized record: the three [if] statements, then the value
    returned. *)
Definition normalizeResult (fields : list (string * JsValue)) : Result JsError GetResult :=
  try! result1 := ensureOutputs (JObj fields) in
  try! result2 := backfillLog result1 in
  try! result3 := flattenVersion result2 in
  try! log3 := getProp result3 "log" in
  Ok {| state := runResultToActionState result3;
        detail := Some result3;
        outputs := Some (JObj [("log", log3)]) |}.

(** [k8sGetRunResult], lines 265-298: the [try] block and its [catch]. *)
Definition k8sGetRunResult (read : ReadOutcome) : Result JsError GetResult :=
  match (try! fields := read in normalizeResult fields) with
  | Ok r => Ok r
  | Err err =>
      if bool_decide (statusCode err = Some 404%Z) then
        Ok {| state := "not-ready"; detail := None; outputs := None |}
      else Err err
  end.

End WithState.

(** The argument of [upsertConfigMap]. *)
Record ConfigMap (Data : Type) := {
  cmKey : string;
  labels : list (string * option string);
  data : Data;
}.
Arguments cmKey {Data} _.
Arguments labels {Data} _.
Arguments data {Data} _.

Section WithStore.

Context {RunResult : Type}.
(** [gardenAnnotationKey(key)] of [util/string]. *)
Variable gardenAnnotationKey : string -> string.
(** [trimRunOutput(result)] of [helm/common]. *)
Variable trimRunOutput : RunResult -> RunResult.
(** [upsertConfigMap(...)]: [Err] carries the message of the error. *)
Variable upsertConfigMap : ConfigMap RunResult -> Result string unit.

(** The record [storeRunResult] hands to [upsertConfigMap], lines
    327-338. *)
Definition runResultConfigMap (ctx : PluginContext) (action : Action) (result : RunResult)
  : ConfigMap RunResult :=
  {| cmKey := getRunResultKey ctx action;
     labels := [ (gardenAnnotationKey "module", moduleName action);
                 (gardenAnnotationKey "actionName", Some (name action));
                 (gardenAnnotationKey "actionType", Some (name action));
                 (gardenAnnotationKey "version", Some (versionString action)) ];
     data := trimRunOutput result |}.

(** [storeRunResult], lines 318-344: the record stored (if the write
    succeeded), the warnings logged, and the value returned. *)
Definition storeRunResult (ctx : PluginContext) (action : Action) (result : RunResult)
  : option (ConfigMap RunResult) * list string * RunResult :=
  let record := runResultConfigMap ctx action result in
  match upsertConfigMap record with
  | Ok _ => (Some record, [], data record)
  | Err msg => (None, ["Unable to store task result: " ++ msg], data record)
  end.

(** The label a record carries under [gardenAnnotationKey(k)]: in an
    object literal the last entry with a key wins. *)
Definition labelOf (k : string) (record : ConfigMap RunResult) : option (option string) :=
  snd <$> last (List.filter (fun kv => String.eqb (fst kv) (gardenAnnotationKey k))
                            (labels record)).

End WithStore.

End RunResults.

(** ** The interactive command line *)

Module CommandLine.

(** What the editor uses of a [Command]. *)
Record Command := {
  fullName : string;
  isInteractive : bool;
}.

(** The pending timer of [flashMessage]. *)
Record MessageTimer := { shown : string; duration : Z }.

(** The mutable fields of the [CommandLine] class. *)
Record State := {
  enabled : bool;
  currentCommand : string;
  cursorPosition : nat;
  historyIndex : nat;
  suggestionIndex : Z;
  autocompletingFrom : Z;
  commandHistory : list string;
  showCursor : bool;
  messageTimeout : option MessageTimer;
}.

(** What the editor does to the outside. *)
Inductive Event :=
| Rendered (buffer : string) (cursor : nat)
| Flashed (prefix message : string)
| Started (command : Command) (rawArgs rest : list string)
| Threw (message : string).

Definition defaultMessageDuration : Z := 3000.

(** The state set up by the constructor. *)
Definition initialState : State :=
  {| enabled := true; currentCommand := ""; cursorPosition := 0; historyIndex := 0;
     suggestionIndex := (-1); autocompletingFrom := (-1); commandHistory := [];
     showCursor := true; messageTimeout := None |}.

Definition withBuffer (s : State) (buffer : string) : State :=
  {| enabled := enabled s; currentCommand := buffer; cursorPosition := cursorPosition s;
     historyIndex := historyIndex s; suggestionIndex := suggestionIndex s;
     autocompletingFrom := autocompletingFrom s; commandHistory := commandHistory s;
     showCursor := showCursor s; messageTimeout := messageTimeout s |}.

Definition withHistory (s : State) (history : list string) (index : nat) : State :=
  {| enabled := enabled s; currentCommand := currentCommand s;
     cursorPosition := cursorPosition s;
     historyIndex := index; suggestionIndex := suggestionIndex s;
     autocompletingFrom := autocompletingFrom s; commandHistory := history;
     showCursor := showCursor s; messageTimeout := messageTimeout s |}.

(** [moveCursor(position)], lines 406-410. *)
Definition moveCursor (s : State) (position : nat) : State :=
  {| enabled := enabled s; currentCommand := currentCommand s; cursorPosition := position;
     historyIndex := historyIndex s; suggestionIndex := (-1);
     autocompletingFrom := (-1); commandHistory := commandHistory s;
     showCursor := showCursor s; messageTimeout := messageTimeout s |}.

(** [renderCommandLine()]: nothing when disabled, else one call of the
    command-line callback; the styling of the line is left out. *)
Definition renderCommandLine (s : State) : list Event :=
  if enabled s then [Rendered (currentCommand s) (cursorPosition s)] else [].

(** [flashMessage(message, opts)], lines 379-388. *)
Definition flashMessage (s : State) (prefix message : string) : State * list Event :=
  ({| enabled := enabled s; currentCommand := currentCommand s;
      cursorPosition := cursorPosition s; historyIndex := historyIndex s;
      suggestionIndex := suggestionIndex s; autocompletingFrom := autocompletingFrom s;
      commandHistory := commandHistory s; showCursor := showCursor s;
      messageTimeout := Some {| shown := prefix ++ message;
                                duration := defaultMessageDuration |} |},
   [Flashed prefix message]).

Definition couldNotFindMessage : string :=
  "Could not find command. Try typing help to see the available commands.".

(** [flashError(message)]; the glyphs of the prefixes are written in ASCII
    (["! "] for the error mark, ["i "] for the info mark) and colours are
    left out. *)
Definition flashError (s : State) (message : string) : State * list Event :=
  flashMessage s "! " message.

(** [inputChars], line 26: the characters that have a key handler. *)
Definition inputChars : string :=
  "ABCDEFGHIJKLMNOPQRSTUVWXYZabcdefghijklmnopqrstuvwxyz0123456789- _*!@$%&/=".

Definition isInputChar (c : ascii) : bool :=
  existsb (Ascii.eqb c) (list_ascii_of_string inputChars).

Fixpoint allInputChars (line : string) : bool :=
  match line with
  | EmptyString => true
  | String c rest => isInputChar c && allInputChars rest
  end.

(** Line 422: the history with [line] pushed to its top. *)
Definition pushHistory (history : list string) (line : string) : list string :=
  (List.filter (fun cmd => negb (String.eqb cmd line)) history ++ [line])%list.

(** A prompt ready for typing at the end of its buffer. *)
Definition atEnd (s : State) : Prop :=
  enabled s = true ∧ cursorPosition s = String.length (currentCommand s).

(** What typing leaves alone. *)
Definition sameHistory (s s' : State) : Prop :=
  commandHistory s' = commandHistory s ∧ historyIndex s' = historyIndex s
  ∧ enabled s' = enabled s.

(** The editor state without the flash timer. *)
Definition editorFields (s : State)
  : bool * string * nat * nat * Z * Z * list string * bool :=
  (enabled s, currentCommand s, cursorPosition s, historyIndex s, suggestionIndex s,
   autocompletingFrom s, commandHistory s, showCursor s).

Section WithCommands.

(** [pickCommand(this.commands, rawArgs)] of [cli/helpers]: the command
    matched, if any, and the arguments left. *)
Variable pickCommand : list string -> option (Command * list string).
(** [parseCliArgs] and [processCliArgs]: [Err] when they throw. *)
Variable processCliArgs : Command -> list string -> list string -> Result string unit.

(** The handler of a printable character, lines 170-177. *)
Definition characterHandler (s : State) (char : string) : State * list Event :=
  let buffer :=
    String.substring 0 (cursorPosition s) (currentCommand s) ++ char ++
    String.substring (cursorPosition s) (String.length (currentCommand s))
                     (currentCommand s) in
  let s' := moveCursor (withBuffer s buffer) (cursorPosition s + 1) in
  (s', renderCommandLine s').

(** [handleReturn()], lines 412-473, up to the start of the command's
    action. *)
Definition handleReturn (s : State) : State * list Event :=
  if String.eqb (Js.trim (currentCommand s)) "" then (s, [])
  else
    let rawArgs := Js.splitSpace (currentCommand s) in
    match pickCommand rawArgs with
    | Some (command, rest) =>
        let history := pushHistory (commandHistory s) (currentCommand s) in
        let s1 := withHistory s history (length history) in
        let s2 := moveCursor (withBuffer s1 "") 0 in
        let rendered := renderCommandLine s2 in
        match processCliArgs command rawArgs rest with
        | Err msg => (s2, (rendered ++ [Threw msg])%list)
        | Ok _ =>
            let '(s3, flashed) :=
              if isInteractive command then (s2, [])
              else flashMessage s2 "i " ("Running " ++ fullName command ++ "...") in
            (s3, (rendered ++ flashed ++ [Started command rawArgs rest])%list)
        end
    | None => flashError s couldNotFindMessage
    end.

(** [keyStroke(input, key)] for a plain character key: its handler, if it
    has one. *)
Definition keyStrokeChar (s : State) (c : ascii) : State * list Event :=
  if enabled s && isInputChar c then characterHandler s (String c EmptyString)
  else (s, []).

(** Typing the characters of [line] one key at a time. *)
Fixpoint typeLine (s : State) (line : string) : State :=
  match line with
  | EmptyString => s
  | String c rest => typeLine (fst (keyStrokeChar s c)) rest
  end.

(** Submitting a line: typing it at an empty prompt and pressing return. *)
Definition submit (s : State) (line : string) : State :=
  fst (handleReturn (typeLine s line)).

Definition submitAll (s : State) (lines : list string) : State :=
  fold_left submit lines s.

(** A line that can be typed and that names a command. *)
Definition submittable (line : string) : Prop :=
  allInputChars line = true ∧ Js.trim line ≠ "" ∧ is_Some (pickCommand (Js.splitSpace line)).

End WithCommands.

End CommandLine.

(** ** The key handlers of the command line *)

Module Editor.

Import CommandLine.
Local Open Scope string_scope.

(** The flags of an Ink [Key] that [keyStroke] reads. *)
Record Key := {
  keyCtrl : bool;
  keyMeta : bool;
  keyUpArrow : bool;
  keyDownArrow : bool;
  keyLeftArrow : bool;
  keyRightArrow : bool;
  keyPageDown : bool;
  keyPageUp : bool;
  keyReturn : bool;
  keyEscape : bool;
  keyTab : bool;
  keyDelete : bool;
}.

(** A key press with no flag set. *)
Definition plainKey : Key :=
  {| keyCtrl := false; keyMeta := false; keyUpArrow := false; keyDownArrow := false;
     keyLeftArrow := false; keyRightArrow := false; keyPageDown := false;
     keyPageUp := false; keyReturn := false; keyEscape := false; keyTab := false;
     keyDelete := false |}.

(** [directInputKeys], lines 32-43, with [key[k]] for each. *)
Definition directInputKeys (key : Key) : list (string * bool) :=
  [ ("upArrow", keyUpArrow key); ("downArrow", keyDownArrow key);
    ("leftArrow", keyLeftArrow key); ("rightArrow", keyRightArrow key);
    ("pageDown", keyPageDown key); ("pageUp", keyPageUp key);
    ("return", keyReturn key); ("escape", keyEscape key);
    ("tab", keyTab key); ("delete", keyDelete key) ].

(** The name under which [keyStroke] looks the handler up, lines 137-155. *)
Definition stringKeyOf (input : string) (key : Key) : string :=
  if String.eqb input "[1~" then "fn-leftArrow"
  else if String.eqb input "[4~" then "fn-rightArrow"
  else if keyCtrl key && negb (keyTab key) then "ctrl-" ++ input
  else if keyDelete key && negb (keyMeta key) then "backspace"
  else
    match List.find snd (directInputKeys key) with
    | Some (k, _) => k
    | None => input
    end.

(** What a key stroke comes to: a handler ran; no handler is set for the
    key; the name is a member that [keyHandlers], an object literal,
    inherits from [Object.prototype], which is then what gets called (the
    editor is not touched, the call may throw); or the handler threw a
    [TypeError] on an [undefined] history entry. *)
Inductive KeyOutcome :=
| Ran (s : State) (events : list Event)
| Ignored
| CalledInherited (member : string)
| Crashed.

(** The state of the editor after a key stroke; none that the model can
    name after a crash, which leaves [currentCommand] undefined. *)
Definition stateAfter (s : State) (o : KeyOutcome) : option State :=
  match o with
  | Ran s' _ => Some s'
  | Ignored | CalledInherited _ => Some s
  | Crashed => None
  end.

Definition eventsOf (o : KeyOutcome) : list Event :=
  match o with
  | Ran _ events => events
  | _ => []
  end.

(** The function-valued and accessor members of [Object.prototype]. *)
Definition inheritedMembers : list string :=
  [ "constructor"; "__defineGetter__"; "__defineSetter__"; "hasOwnProperty";
    "__lookupGetter__"; "__lookupSetter__"; "isPrototypeOf"; "propertyIsEnumerable";
    "toString"; "valueOf"; "__proto__"; "toLocaleString" ].

Definition setCursor (s : State) (position : nat) : State :=
  {| enabled := enabled s; currentCommand := currentCommand s; cursorPosition := position;
     historyIndex := historyIndex s; suggestionIndex := suggestionIndex s;
     autocompletingFrom := autocompletingFrom s; commandHistory := commandHistory s;
     showCursor := showCursor s; messageTimeout := messageTimeout s |}.

Definition setSuggestion (s : State) (index from : Z) : State :=
  {| enabled := enabled s; currentCommand := currentCommand s;
     cursorPosition := cursorPosition s; historyIndex := historyIndex s;
     suggestionIndex := index; autocompletingFrom := from;
     commandHistory := commandHistory s; showCursor := showCursor s;
     messageTimeout := messageTimeout s |}.

Definition setHistoryIndex (s : State) (index : nat) : State :=
  withHistory s (commandHistory s) index.

Definition setEnabled (s : State) (on : bool) : State :=
  {| enabled := on; currentCommand := currentCommand s;
     cursorPosition := cursorPosition s; historyIndex := historyIndex s;
     suggestionIndex := suggestionIndex s; autocompletingFrom := autocompletingFrom s;
     commandHistory := commandHistory s; showCursor := showCursor s;
     messageTimeout := messageTimeout s |}.

(** [s.substring(n)] *)
Definition substringFrom (n : nat) (s : string) : string :=
  String.substring n (String.length s) s.

(** [disable(message)], lines 344-347: the state it leaves (the message goes
    to the command-line callback). *)
Definition disable (s : State) : State := setEnabled s false.

(** [enable()], lines 349-352. *)
Definition enable (s : State) : State * list Event :=
  let s' := setEnabled s true in (s', renderCommandLine s').

Definition rendered (s : State) : KeyOutcome := Ran s (renderCommandLine s).

(** [backspace], lines 184-191. *)
Definition backspace (s : State) : KeyOutcome :=
  if Nat.ltb 0 (cursorPosition s) then
    let buffer := String.substring 0 (cursorPosition s - 1) (currentCommand s)
                    ++ substringFrom (cursorPosition s) (currentCommand s) in
    rendered (moveCursor (withBuffer s buffer) (cursorPosition s - 1))
  else Ran s [].

(** [delete], lines 193-197. *)
Definition deleteForward (s : State) : KeyOutcome :=
  let buffer := String.substring 0 (cursorPosition s) (currentCommand s)
                  ++ substringFrom (cursorPosition s + 1) (currentCommand s) in
  rendered (withBuffer s buffer).

(** [leftArrow] and [rightArrow], lines 200-212. *)
Definition leftArrow (s : State) : KeyOutcome :=
  if Nat.ltb 0 (cursorPosition s) then rendered (moveCursor s (cursorPosition s - 1))
  else Ran s [].

Definition rightArrow (s : State) : KeyOutcome :=
  if Nat.ltb (cursorPosition s) (String.length (currentCommand s)) then
    rendered (moveCursor s (cursorPosition s + 1))
  else Ran s [].

(** [ctrl-a] and [fn-leftArrow], lines 214-222; [fn-rightArrow], 224-227. *)
Definition toStart (s : State) : KeyOutcome := rendered (moveCursor s 0).

Definition toEnd (s : State) : KeyOutcome :=
  rendered (moveCursor s (String.length (currentCommand s))).

(** [ctrl-u], lines 282-286, and [ctrl-k], lines 289-294. *)
Definition clearBack (s : State) : KeyOutcome :=
  rendered (moveCursor (withBuffer s (substringFrom (cursorPosition s) (currentCommand s))) 0).

Definition clearLine (s : State) : KeyOutcome :=
  if Nat.eqb (cursorPosition s) 0 then rendered (withBuffer s "") else Ran s [].

(** [upArrow], lines 259-266. *)
Definition upArrow (s : State) : KeyOutcome :=
  if Nat.ltb 0 (historyIndex s) then
    match commandHistory s !! (historyIndex s - 1)%nat with
    | Some entry =>
        rendered (moveCursor (withBuffer (setHistoryIndex s (historyIndex s - 1)) entry)
                             (String.length entry))
    | None => Crashed
    end
  else Ran s [].

(** [downArrow], lines 268-279. *)
Definition downArrow (s : State) : KeyOutcome :=
  if Nat.ltb (historyIndex s) (length (commandHistory s)) then
    match commandHistory s !! historyIndex s with
    | Some entry =>
        rendered (setHistoryIndex (moveCursor (withBuffer s entry) (String.length entry))
                                  (historyIndex s + 1))
    | None => Crashed
    end
  else if Nat.ltb 0 (historyIndex s) then
    rendered (setHistoryIndex (moveCursor (withBuffer s "") 0) (length (commandHistory s)))
  else rendered s.

Section WithEnvironment.

Variable pickCommand : list string -> option (Command * list string).
Variable processCliArgs : Command -> list string -> list string -> Result string unit.
(** [autocompleter.getSuggestions(input, ...)]: the lines suggested. *)
Variable suggest : string -> list string.

(** [getSuggestions(from)], lines 475-482. *)
Definition getSuggestions (s : State) (from : nat) : list string :=
  if Nat.eqb from 0 then []
  else suggest (String.substring 0 from (currentCommand s)).

(** Where the completion started: [autocompletingFrom] when it is set, else
    the cursor. *)
Definition completingFrom (s : State) : nat :=
  if Z.ltb (-1) (autocompletingFrom s) then Z.to_nat (autocompletingFrom s)
  else cursorPosition s.

(** [tab], lines 233-256. *)
Definition tabKey (s : State) : KeyOutcome :=
  if Nat.eqb (cursorPosition s) 0 then Ran s []
  else
    let suggestions := getSuggestions s (completingFrom s) in
    match suggestions with
    | [] => Ran (setSuggestion s (-1) (autocompletingFrom s)) []
    | _ :: _ =>
        let next := (suggestionIndex s + 1)%Z in
        let index := if Z.leb (Z.of_nat (length suggestions)) next then 0%Z else next in
        if Z.ltb index 0 then Crashed
        else
          match suggestions !! Z.to_nat index with
          | None => Crashed
          | Some line =>
              let from := if Z.eqb (autocompletingFrom s) (-1)
                          then Z.of_nat (cursorPosition s) else autocompletingFrom s in
              rendered (setCursor (setSuggestion (withBuffer s line) index from)
                                  (String.length line))
          end
    end.

Definition ran (r : State * list Event) : KeyOutcome := Ran (fst r) (snd r).

(** The handlers set by [init], lines 168-294, by name. *)
Definition handlerFor (stringKey input : string) : option (State -> KeyOutcome) :=
  match stringKey with
  | String c EmptyString =>
      if isInputChar c then Some (fun s => ran (characterHandler s input)) else None
  | _ =>
      if String.eqb stringKey "backspace" then Some backspace
      else if String.eqb stringKey "delete" then Some deleteForward
      else if String.eqb stringKey "leftArrow" then Some leftArrow
      else if String.eqb stringKey "rightArrow" then Some rightArrow
      else if String.eqb stringKey "ctrl-a" then Some toStart
      else if String.eqb stringKey "fn-leftArrow" then Some toStart
      else if String.eqb stringKey "fn-rightArrow" then Some toEnd
      else if String.eqb stringKey "return" then
        Some (fun s => ran (handleReturn pickCommand processCliArgs s))
      else if String.eqb stringKey "tab" then Some tabKey
      else if String.eqb stringKey "upArrow" then Some upArrow
      else if String.eqb stringKey "downArrow" then Some downArrow
      else if String.eqb stringKey "ctrl-u" then Some clearBack
      else if String.eqb stringKey "ctrl-k" then Some clearLine
      else None
  end.

(** [keyStroke(input, key)], lines 132-162. *)
Definition keyStroke (input : string) (key : Key) (s : State) : KeyOutcome :=
  if negb (enabled s) then Ignored
  else
    let stringKey := stringKeyOf input key in
    match handlerFor stringKey input with
    | Some handler => handler s
    | None =>
        if existsb (String.eqb stringKey) inheritedMembers then CalledInherited stringKey
        else Ignored
    end.

(** A sequence of key strokes, as long as none crashes the editor. *)
Fixpoint keyStrokes (keys : list (string * Key)) (s : State) : option State :=
  match keys with
  | [] => Some s
  | (input, key) :: rest =>
      match stateAfter s (keyStroke input key s) with
      | Some s' => keyStrokes rest s'
      | None => None
      end
  end.

End WithEnvironment.

(** The bounds the handlers rely on. *)
Definition wellFormed (s : State) : Prop :=
  (cursorPosition s ≤ String.length (currentCommand s))%nat
  ∧ (historyIndex s ≤ length (commandHistory s))%nat
  ∧ (-1 ≤ suggestionIndex s)%Z.

(** No entry twice, no blank entry. *)
Definition cleanHistory (s : State) : Prop :=
  NoDup (commandHistory s) ∧ Forall (fun line => Js.trim line ≠ "") (commandHistory s).

(** Key presses as Ink reports them: a character, the tab key, return, the
    backspace key (reported with [key.delete]) and the up arrow. *)
Definition charPress (c : ascii) : string * Key := (String c EmptyString, plainKey).

Definition withFlags (tab ret del up : bool) : Key :=
  {| keyCtrl := false; keyMeta := false; keyUpArrow := up; keyDownArrow := false;
     keyLeftArrow := false; keyRightArrow := false; keyPageDown := false;
     keyPageUp := false; keyReturn := ret; keyEscape := false; keyTab := tab;
     keyDelete := del |}.

Definition tabPress : string * Key :=
  (String (ascii_of_nat 9) EmptyString, withFlags true false false false).

Definition returnPress : string * Key :=
  (String (ascii_of_nat 13) EmptyString, withFlags false true false false).

Definition backspacePress : string * Key := ("", withFlags false false true false).

Definition upPress : string * Key := ("", withFlags false false false true).

(** A handler that runs without crashing, keeps the bounds and leaves the
    history alone. *)
Definition keeps (h : State -> KeyOutcome) : Prop :=
  ∀ s, wellFormed s ->
    ∃ s' events, h s = Ran s' events ∧ wellFormed s'
                 ∧ commandHistory s' = commandHistory s.

(** A handler that lets no exception out. *)
Definition quiet (h : State -> KeyOutcome) : Prop :=
  ∀ s msg, Threw msg ∉ eventsOf (h s).

(** The editor in the middle of a completion that started at [from]: the
    buffer is the suggestion of index [i]. *)
Definition completing (from : nat) (suggestions : list string) (i : nat) (s : State) : Prop :=
  enabled s = true
  ∧ suggestions !! i = Some (currentCommand s)
  ∧ suggestionIndex s = Z.of_nat i
  ∧ autocompletingFrom s = Z.of_nat from
  ∧ cursorPosition s = String.length (currentCommand s).

End Editor.

(** ** The run-result store against a cluster ([kubernetes/run-results.ts]) *)

Module RunResultStore.

Import RunResults.
Local Open Scope string_scope.

(** A stored record: the fields of the run result. *)
Definition Fields := list (string * JsValue).

Section WithCluster.

(** The ConfigMaps of the application namespace
    ([getAppNamespace(ctx, log, provider)], the same in the three
    functions), as the three API calls see them. *)
Variable Cluster : Type.
(** [api.core.readNamespacedConfigMap(key, ns)] with [deserializeValues]. *)
Variable readNamespacedConfigMap : Cluster -> string -> ReadOutcome.
(** [upsertConfigMap({ api, namespace, key, labels, data })] *)
Variable upsertConfigMap : Cluster -> ConfigMap Fields -> Result string unit * Cluster.
(** [api.core.deleteNamespacedConfigMap(key, namespace)] *)
Variable deleteNamespacedConfigMap : Cluster -> string -> Result JsError unit * Cluster.

Variable runResultToActionState : JsValue -> string.
Variable gardenAnnotationKey : string -> string.
Variable trimRunOutput : Fields -> Fields.

(** [k8sGetRunResult], lines 265-298, with the read it makes. *)
Definition getRunResult (cluster : Cluster) (ctx : PluginContext) (action : Action)
  : Result JsError GetResult :=
  k8sGetRunResult runResultToActionState
    (readNamespacedConfigMap cluster (getRunResultKey ctx action)).

(** [storeRunResult], lines 318-344, with the write it makes: the
    warnings logged, the value returned and the cluster afterwards. *)
Definition storeRunResultIn (cluster : Cluster) (ctx : PluginContext) (action : Action)
    (result : Fields) : list string * Fields * Cluster :=
  let record := runResultConfigMap gardenAnnotationKey trimRunOutput ctx action result in
  let '(_, warnings, returned) :=
    storeRunResult gardenAnnotationKey trimRunOutput
      (fun r => fst (upsertConfigMap cluster r)) ctx action result in
  (warnings, returned, snd (upsertConfigMap cluster record)).

(** [clearTaskResult], lines 349-371. *)
Definition clearTaskResult (cluster : Cluster) (ctx : PluginContext) (action : Action)
  : Result JsError unit * Cluster :=
  let key := getRunResultKey ctx action in
  match deleteNamespacedConfigMap cluster key with
  | (Ok _, cluster') => (Ok tt, cluster')
  | (Err err, cluster') =>
      if bool_decide (statusCode err = Some 404%Z) then (Ok tt, cluster')
      else (Err err, cluster')
  end.

End WithCluster.

(** A cluster held in memory: a map from keys to stored fields. *)
Definition MemoryCluster := gmap string Fields.

Definition notFoundError : JsError :=
  {| statusCode := Some 404%Z; errorMessage := "Not Found" |}.

Definition memoryRead (cluster : MemoryCluster) (key : string) : ReadOutcome :=
  match cluster !! key with
  | Some fields => Ok fields
  | None => Err notFoundError
  end.

Definition memoryUpsert (cluster : MemoryCluster) (record : ConfigMap Fields)
  : Result string unit * MemoryCluster :=
  (Ok tt, <[cmKey record := data record]> cluster).

Definition memoryDelete (cluster : MemoryCluster) (key : string)
  : Result JsError unit * MemoryCluster :=
  match cluster !! key with
  | Some _ => (Ok tt, delete key cluster)
  | None => (Err notFoundError, cluster)
  end.

End RunResultStore.

(** ** Kubernetes manifests and pod runs ([kubernetes-type/common.ts]) *)

Module Kubernetes.

Local Open Scope string_scope.

(** What is thrown: a [GardenError], or an error of a library call with
    its message. *)
Inductive Thrown :=
| Garden (e : GardenError)
| Other (msg : string).

(** [metadata] of a manifest; [None] is [undefined]. *)
Record Metadata := {
  metaName : option string;
  metaNamespace : option string;
  metaAnnotations : option (list (string * string));
  metaLabels : option (list (string * string));
}.

(** A [KubernetesResource]; [resourceSpec] stands for the rest of the
    manifest, which the functions below do not read. *)
Record KubernetesResource := {
  apiVersion : string;
  resourceKind : string;
  metadata : option Metadata;
  resourceSpec : string;
}.

Definition emptyMetadata : Metadata :=
  {| metaName := None; metaNamespace := None; metaAnnotations := None; metaLabels := None |}.

(** A string that is there and not empty. *)
Definition truthyString (s : option string) : bool :=
  match s with
  | Some s => negb (String.eqb s "")
  | None => false
  end.

(** [o[k] = v] on the entries of an object: the key keeps its place. *)
Fixpoint assign (k v : string) (entries : list (string * string)) : list (string * string) :=
  match entries with
  | [] => [(k, v)]
  | (k', v') :: rest =>
      if String.eqb k k' then (k, v) :: rest else (k', v') :: assign k v rest
  end.

Fixpoint entry (k : string) (entries : list (string * string)) : option string :=
  match entries with
  | [] => None
  | (k', v) :: rest => if String.eqb k k' then Some v else entry k rest
  end.

(** [set(manifest, ["metadata", field, key], value)] of lodash, on the
    value of [field]: a missing object is created. *)
Definition setIn (k v : string) (entries : option (list (string * string)))
  : option (list (string * string)) :=
  Some (assign k v (default [] entries)).

(** [gardenNamespaceAnnotationValue(namespaceName)], lines 160-162; the
    template literal renders [undefined] as ["undefined"]. *)
Definition gardenNamespaceAnnotationValue (namespaceName : option string) : string :=
  "garden-namespace--" ++ default "undefined" namespaceName.

Section WithApi.

(** [api.getApiResourceInfo(log, apiVersion, kind)]: [None] when the call
    rejects, otherwise [info?.namespaced] as a boolean. *)
Variable getApiResourceInfo : string -> string -> option bool.
(** [gardenAnnotationKey(key)] of [util/string]. *)
Variable gardenAnnotationKey : string -> string.

(** Lines 55-65: the namespace of a manifest is set when it has none and
    its resource type is namespaced. *)
Definition ensureNamespace (defaultNamespace : string) (manifest : KubernetesResource)
  : option KubernetesResource :=
  let named :=
    match metadata manifest with
    | Some md => truthyString (metaNamespace md)
    | None => false
    end in
  if named then Some manifest
  else
    let md := default emptyMetadata (metadata manifest) in
    match getApiResourceInfo (apiVersion manifest) (resourceKind manifest) with
    | None => None
    | Some namespaced =>
        let md' :=
          if namespaced then
            {| metaName := metaName md; metaNamespace := Some defaultNamespace;
               metaAnnotations := metaAnnotations md; metaLabels := metaLabels md |}
          else md in
        Some {| apiVersion := apiVersion manifest; resourceKind := resourceKind manifest;
                metadata := Some md'; resourceSpec := resourceSpec manifest |}
    end.

(** Lines 77-80: the Garden annotation and label. *)
Definition annotationValue (actionName : string) (manifest : KubernetesResource) : string :=
  if String.eqb (resourceKind manifest) "Namespace" then
    gardenNamespaceAnnotationValue (metaName (default emptyMetadata (metadata manifest)))
  else actionName.

Definition setAnnotations (actionName : string) (manifest : KubernetesResource)
  : KubernetesResource :=
  let md := default emptyMetadata (metadata manifest) in
  let value := annotationValue actionName manifest in
  {| apiVersion := apiVersion manifest; resourceKind := resourceKind manifest;
     metadata :=
       Some {| metaName := metaName md; metaNamespace := metaNamespace md;
               metaAnnotations := setIn (gardenAnnotationKey "service") value (metaAnnotations md);
               metaLabels := setIn (gardenAnnotationKey "service") value (metaLabels md) |};
     resourceSpec := resourceSpec manifest |}.

(** The callback of [Bluebird.map] in [getManifests], lines 53-83. *)
Definition prepareManifest (actionName defaultNamespace : string)
    (manifest : KubernetesResource) : option KubernetesResource :=
  setAnnotations actionName <$> ensureNamespace defaultNamespace manifest.

(** [getManifests], lines 36-84, on the manifests [readManifests] gave:
    [None] when one of the API calls rejected. *)
Definition getManifests (actionName defaultNamespace : string)
    (manifests : list KubernetesResource) : option (list KubernetesResource) :=
  mapM (prepareManifest actionName defaultNamespace) manifests.

End WithApi.

(** The spec of a [kubernetes] Deploy. *)
Record KustomizeSpec := {
  kustomizePath : option string;
  extraArgs : option (list string);
}.

Record KubernetesDeploySpec := {
  files : list string;
  kustomize : option KustomizeSpec;
  manifests : list KubernetesResource;
}.

Definition disallowedKustomizeArgs : list string := ["-o"; "--output"; "-h"; "--help"].

Definition disallowedArgsError : GardenError :=
  {| errType := ConfigurationError;
     message := "kustomize.extraArgs must not include any of "
                  ++ String.concat ", " disallowedKustomizeArgs;
     detailConfigs := [] |}.

Definition kustomizeFailedError (msg : string) : GardenError :=
  {| errType := PluginError;
     message := "Failed resolving kustomize manifests: " ++ msg;
     detailConfigs := [] |}.

Section WithFiles.

(** The [Bluebird.map] over [spec.files], lines 109-117: the documents of
    each file, or what reading or parsing threw. *)
Variable loadFiles : list string -> Result Thrown (list (list KubernetesResource)).
(** [kustomize.stdout({ cwd, log, args })] followed by [safeLoadAll]; [Err]
    carries the message of the error. *)
Variable kustomizeBuild : list string -> Result string (list KubernetesResource).

(** Lines 119-151. *)
Definition kustomizeManifests (spec : KubernetesDeploySpec)
  : Result Thrown (list KubernetesResource) :=
  match kustomize spec with
  | Some k =>
      match kustomizePath k with
      | Some path =>
          if String.eqb path "" then Ok []
          else
            let extra := default [] (extraArgs k) in
            if existsb (fun arg => existsb (String.eqb arg) extra) disallowedKustomizeArgs
            then Err (Garden disallowedArgsError)
            else
              match kustomizeBuild ("build" :: path :: extra) with
              | Ok docs => Ok docs
              | Err msg => Err (Garden (kustomizeFailedError msg))
              end
      | None => Ok []
      end
  | None => Ok []
  end.

(** [readManifests], lines 99-154. *)
Definition readManifests (spec : KubernetesDeploySpec)
  : Result Thrown (list KubernetesResource) :=
  try! fileManifests := loadFiles (files spec) in
  try! fromKustomize := kustomizeManifests spec in
  Ok (manifests spec ++ concat fileManifests ++ fromKustomize)%list.

End WithFiles.

(** A container of a pod spec. *)
Record Container := {
  containerName : string;
  image : option string;
}.

Record PodSpec := { containers : list Container }.

(** A [KubernetesTargetResourceSpec]. *)
Record TargetResourceSpec := {
  targetKind : option string;
  targetName : option string;
  targetContainerName : option string;
}.

(** The spec of a [kubernetes] Run or Test. *)
Record RunSpec := {
  podSpec : option PodSpec;
  resource : option TargetResourceSpec;
  command : option (list string);
  args : option (list string);
}.

Record RunAction := {
  actionKind : string;
  actionName : string;
  longDescription : string;
  versionString : string;
  timeout : option Z;
  spec : RunSpec;
}.

(** What [runOrTest] hands to [runAndCopy]. *)
Record RunAndCopyParams := {
  runContainer : Container;
  runPodSpec : option PodSpec;
  runCommand : option (list string);
  runArgs : option (list string);
  runImage : option string;
  runPodName : string;
  runTimeout : Z;
  runVersion : string;
}.

Definition noPodSpecNorResourceError (action : RunAction) : GardenError :=
  {| errType := ConfigurationError;
     message := longDescription action ++ " specified neither podSpec nor resource.";
     detailConfigs := [] |}.

Definition noContainersError (action : RunAction) : GardenError :=
  {| errType := ConfigurationError;
     message := longDescription action
       ++ " specified a podSpec without containers. Please make sure there is at least one container in the spec.";
     detailConfigs := [] |}.

Section WithCluster.

Variable Target : Type.
(** [getTargetResource({ ctx, log, provider, action, query })] *)
Variable getTargetResource : TargetResourceSpec -> Result Thrown Target.
(** [getResourcePodSpec(target)] *)
Variable getResourcePodSpec : Target -> option PodSpec.
(** [getResourceContainer(target, containerName)] *)
Variable getResourceContainer : Target -> option string -> Result Thrown Container.
(** [makePodName(type, name)] *)
Variable makePodName : string -> string -> string.
(** [s.toLowerCase()] *)
Variable toLowerCase : string -> string.
Variable DEFAULT_TASK_TIMEOUT : Z.

(** [timeout || DEFAULT_TASK_TIMEOUT] *)
Definition timeoutOrDefault (timeout : option Z) : Z :=
  match timeout with
  | Some t => if Z.eqb t 0 then DEFAULT_TASK_TIMEOUT else t
  | None => DEFAULT_TASK_TIMEOUT
  end.

(** [runOrTest], lines 182-238: the arguments of [runAndCopy], or what is
    thrown before it is called. *)
Definition runOrTest (action : RunAction) : Result Thrown RunAndCopyParams :=
  let s := spec action in
  try! chosen :=
    match podSpec s with
    | None =>
        match resource s with
        | None => Err (Garden (noPodSpecNorResourceError action))
        | Some resourceSpec =>
            try! target := getTargetResource resourceSpec in
            try! container := getResourceContainer target (targetContainerName resourceSpec) in
            Ok (getResourcePodSpec target, container)
        end
    | Some ps =>
        match containers ps with
        | [] => Err (Garden (noContainersError action))
        | container :: _ => Ok (Some ps, container)
        end
    end in
  Ok {| runContainer := snd chosen;
        runPodSpec := fst chosen;
        runCommand := command s;
        runArgs := args s;
        runImage := image (snd chosen);
        runPodName := makePodName (toLowerCase (actionKind action)) (actionName action);
        runTimeout := timeoutOrDefault (timeout action);
        runVersion := versionString action |}.

End WithCluster.

(** What [prepareManifest] leaves of one manifest. *)
Definition prepared (getApiResourceInfo : string -> string -> option bool)
    (gardenAnnotationKey : string -> string) (actionName defaultNamespace : string)
    (m m' : KubernetesResource) : Prop :=
  let metadataOf := fun m => default emptyMetadata (metadata m) in
  apiVersion m' = apiVersion m
  ∧ resourceKind m' = resourceKind m
  ∧ resourceSpec m' = resourceSpec m
  ∧ ∃ md',
      metadata m' = Some md'
      ∧ metaName md' = metaName (metadataOf m)
      ∧ metaNamespace md'
        = (if truthyString (metaNamespace (metadataOf m)) then metaNamespace (metadataOf m)
           else match getApiResourceInfo (apiVersion m) (resourceKind m) with
                | Some true => Some defaultNamespace
                | _ => metaNamespace (metadataOf m)
                end)
      ∧ (metaAnnotations md' ≫= entry (gardenAnnotationKey "service"))
        = Some (annotationValue actionName m)
      ∧ (metaLabels md' ≫= entry (gardenAnnotationKey "service"))
        = Some (annotationValue actionName m)
      ∧ (∀ k, k ≠ gardenAnnotationKey "service" ->
           entry k (default [] (metaAnnotations md'))
           = entry k (default [] (metaAnnotations (metadataOf m)))
           ∧ entry k (default [] (metaLabels md'))
             = entry k (default [] (metaLabels (metadataOf m)))).

End Kubernetes.

(** ** The registries of the Garden class ([garden.ts]) *)

Module Garden.

Local Open Scope string_scope.

(** A module config as [addModuleConfig] reads it. *)
Record ModuleConfig := {
  moduleConfigName : string;
  modulePath : string;
  moduleConfigPath : option string;
}.

(** A workflow config as [addWorkflow] reads it. *)
Record WorkflowConfig := {
  workflowName : string;
  workflowInternal : ActionConfigInternal;
}.

(** [a || b] on paths: an empty path is falsy. *)
Definition orPath (a : option string) (b : string) : string :=
  match a with
  | Some p => if String.eqb p "" then b else p
  | None => b
  end.

Definition declaredTwice (what key pathA pathB : string) : GardenError :=
  {| errType := ConfigurationError;
     message := what ++ " " ++ key ++ " is declared multiple times (in '"
                  ++ pathA ++ "' and '" ++ pathB ++ "')";
     detailConfigs := [] |}.

Section WithRoot.

(** [relative(from, to)] of the [path] module. *)
Variable relative : string -> string -> string.
Variable projectRoot : string.

(** [addModuleConfig(config)], lines 1312-1328. *)
Definition addModuleConfig (moduleConfigs : gmap string ModuleConfig) (config : ModuleConfig)
  : Result GardenError (gmap string ModuleConfig) :=
  let key := moduleConfigName config in
  match moduleConfigs !! key with
  | Some existing =>
      let '(pathA, pathB) :=
        sortPaths
          (relative projectRoot (orPath (moduleConfigPath existing) (modulePath existing)))
          (relative projectRoot (orPath (moduleConfigPath config) (modulePath config))) in
      Err (declaredTwice "Module" key pathA pathB)
  | None => Ok (<[key := config]> moduleConfigs)
  end.

(** [addWorkflow(config)], lines 1335-1352: the path of the new workflow
    is its [basePath]. *)
Definition addWorkflow (workflowConfigs : gmap string WorkflowConfig) (config : WorkflowConfig)
  : Result GardenError (gmap string WorkflowConfig) :=
  let key := workflowName config in
  match workflowConfigs !! key with
  | Some existing =>
      let '(pathA, pathB) :=
        sortPaths
          (relative projectRoot
             (orPath (configFilePath (workflowInternal existing))
                     (basePath (workflowInternal existing))))
          (relative projectRoot (basePath (workflowInternal config))) in
      Err (declaredTwice "Workflow" key pathA pathB)
  | None => Ok (<[key := config]> workflowConfigs)
  end.

End WithRoot.

Section WithKeys.

(** [actionReferenceToString(ref)] of [actions/base]. *)
Variable actionReferenceToString : string -> string -> string.

Definition moduleActionConflictError (existing config : ActionConfig) : GardenError :=
  {| errType := ConfigurationError;
     message := kind existing ++ " action '" ++ name existing ++ "' (in "
                  ++ sourcePath existing ++ ") conflicts with " ++ kind config
                  ++ " action with same name generated from Module "
                  ++ default "undefined" (moduleName (internal config))
                  ++ " (in " ++ sourcePath config ++ "). Please rename either one.";
     detailConfigs := [config; existing] |}.

(** The loop over [moduleActionConfigs] in [getConfigGraph], lines
    924-940, on the [actionConfigs] collected from the declared actions. *)
Fixpoint mergeModuleActionConfigs (actionConfigs : gmap string ActionConfig)
    (moduleActionConfigs : list ActionConfig) : Result GardenError (gmap string ActionConfig) :=
  match moduleActionConfigs with
  | [] => Ok actionConfigs
  | config :: rest =>
      let key := actionReferenceToString (kind config) (name config) in
      match actionConfigs !! key with
      | Some existing => Err (moduleActionConflictError existing config)
      | None => mergeModuleActionConfigs (<[key := config]> actionConfigs) rest
      end
  end.

End WithKeys.

(** An entry of the [warnings] section of the local config store. *)
Record WarningRecord := { hidden : option bool }.

(** [emitWarning({ key, log, message })], lines 449-457: the lines sent to
    [log.warn]. *)
Definition emitWarning (warnings : gmap string WarningRecord) (key message : string)
  : list string :=
  match warnings !! key with
  | Some existing =>
      match hidden existing with
      | Some true => []
      | _ => [message ++ nl ++ "Run garden util hide-warning " ++ key
                ++ " to disable this warning."]
      end
  | None => [message ++ nl ++ "Run garden util hide-warning " ++ key
               ++ " to disable this warning."]
  end.

(** [hideWarning(key)], lines 459-461. *)
Definition hideWarning (warnings : gmap string WarningRecord) (key : string)
  : gmap string WarningRecord :=
  <[key := {| hidden := Some true |}]> warnings.

End Garden.

(** ** Console and server commands ([server/commands.ts]) *)

Module ServerCommands.

Local Open Scope string_scope.

(** An active monitor, as [HideCommand] reads it. *)
Record Monitor := {
  monitorType : string;
  monitorKey : string;
  monitorDescription : string;
}.

(** [s.slice(0, -1)] *)
Definition dropLastChar (s : string) : string :=
  String.substring 0 (String.length s - 1) s.

Section WithMatching.

(** [isMatch(str, patterns)] of micromatch. *)
Variable isMatch : string -> list string -> bool.
(** [naturalList(names, { quote: true })] of [util/string]. *)
Variable naturalList : list string -> string.

(** [HideCommand.action], lines 178-209, on the active monitors: the lines
    sent to [log.info] and the monitors stopped, in order. *)
Definition hideAction (type : string) (names : option (list string)) (monitors : list Monitor)
  : list string * list Monitor :=
  let names :=
    match names with
    | None | Some [] => ["*"]
    | Some ns => ns
    end in
  let type :=
    if String.eqb type "logs" || String.eqb type "syncs" then dropLastChar type else type in
  let headline :=
    if String.eqb type "" then "Stopping all monitors..."
    else if existsb (String.eqb "*") names then "Stopping all " ++ type ++ " monitors..."
    else "Stopping " ++ type ++ " monitors for Deploy(s) matching " ++ naturalList names in
  let stopped :=
    List.filter
      (fun monitor =>
         (String.eqb type "" || String.eqb (monitorType monitor) type)
           && isMatch (monitorKey monitor) names)
      monitors in
  let stopping := map (fun monitor => "Stopping " ++ monitorDescription monitor ++ "...") stopped in
  let done := "Done!" ++ nl in
  (([""; headline] ++ stopping ++ [done])%list, stopped).

End WithMatching.

(** A [BaseServerRequest]. *)
Record BaseServerRequest := {
  requestId : option string;
  requestCommand : option string;
  requestEnvironment : option string;
  requestProjectRoot : option string;
  stringArguments : option (list string);
  requestInternal : option bool;
}.

(** A string field that is there and not empty. *)
Definition truthyField (s : option string) : option string :=
  match s with
  | Some s => if String.eqb s "" then None else Some s
  | None => None
  end.

(** How a template literal renders an optional string. *)
Definition rendered (s : option string) : string := default "undefined" s.

Section WithManager.

Variable ProjectResource : Type.
Variable projectPath : ProjectResource -> string.
Variable Command : Type.
Variable getFullName : Command -> string.
Variable ParsedArgs : Type.
Variable pathExists : string -> bool.
Variable isDirectory : string -> bool.
(** [findProjectConfig({ log, path, allowInvalid: true, scan })] *)
Variable findProjectConfig : string -> bool -> option ProjectResource.
(** [stringArgv(s)] *)
Variable stringArgv : string -> list string.
(** [pickCommand(commands, args)] for the commands of a project root:
    [command], [rest] and [matchedPath]. *)
Variable pickCommand : string -> list string -> option Command * list string * list string.
(** [parseCliArgs] followed by [processCliArgs]: the parsed arguments, or
    the message of what was thrown. *)
Variable parseArgs : Command -> list string -> list string -> list string -> Result string ParsedArgs.
(** [uuidv4()] *)
Variable uuidv4 : string.

(** What [resolveRequest] returns: [fail(code, message, detail)], or the
    resolved request. *)
Record Resolved := {
  resolvedProject : ProjectResource;
  resolvedCommand : option Command;
  resolvedArgs : option ParsedArgs;
  resolvedRest : list string;
  resolvedInternal : option bool;
  resolvedSessionId : string;
}.

Inductive Resolution :=
| Failed (code : Z) (message : string) (detail : option string)
| Success (r : Resolved).

(** Lines 450-477: the project config of the request. *)
Definition resolveProject (defaultProjectRoot : string) (request : BaseServerRequest)
  : Z * string + ProjectResource :=
  match truthyField (requestProjectRoot request) with
  | Some root =>
      if negb (pathExists root) then
        inl (400%Z, "Specified projectRoot path (" ++ root ++ ") does not exist.")
      else if negb (isDirectory root) then
        inl (400%Z, "Specified projectRoot path (" ++ root ++ ") is not a directory.")
      else
        match findProjectConfig root false with
        | Some projectConfig => inr projectConfig
        | None =>
            inl (400%Z, "Specified projectRoot path (" ++ root
                   ++ ") does not contain a Garden project config (the exact directory of the project root must be specified).")
        end
  | None =>
      match findProjectConfig defaultProjectRoot true with
      | Some projectConfig => inr projectConfig
      | None =>
          inl (400%Z, "Could not find a Garden project in '"
                 ++ rendered (requestProjectRoot request) ++ "' or any parent directory.")
      end
  end.

(** [resolveRequest], lines 431-557: what it returns, or the arguments of
    [manager.getGardenForRequest] when it gets there. *)
Definition resolveRequest (defaultProjectRoot : string) (request : BaseServerRequest)
  : Resolution :=
  match resolveProject defaultProjectRoot request with
  | inl (code, message) => Failed code message None
  | inr projectConfig =>
      let projectRoot := projectPath projectConfig in
      let sessionId := default uuidv4 (truthyField (requestId request)) in
      match truthyField (requestCommand request) with
      | Some commandLine =>
          let args := (stringArgv (Js.trim commandLine)
                         ++ default [] (stringArguments request))%list in
          let '(command, rest, matchedPath) := pickCommand projectRoot args in
          match command with
          | None => Failed 404 ("Could not find command " ++ commandLine ++ ".") None
          | Some command =>
              match parseArgs command rest args matchedPath with
              | Err msg =>
                  Failed 400 ("Invalid arguments for command " ++ getFullName command)
                    (Some msg)
              | Ok parsed =>
                  Success {| resolvedProject := projectConfig;
                             resolvedCommand := Some command;
                             resolvedArgs := Some parsed;
                             resolvedRest := rest;
                             resolvedInternal := requestInternal request;
                             resolvedSessionId := sessionId |}
              end
          end
      | None =>
          Success {| resolvedProject := projectConfig;
                     resolvedCommand := None;
                     resolvedArgs := None;
                     resolvedRest := [];
                     resolvedInternal := requestInternal request;
                     resolvedSessionId := sessionId |}
      end
  end.

End WithManager.

End ServerCommands.

(** ** Helm modules ([kubernetes/helm/module-config.ts]) *)

Module Helm.

Local Open Scope string_scope.

(** The [resource] of a task or test, and the [serviceResource] of the
    module: the field read here is [containerModule]. *)
Record ServiceResourceSpec := { containerModule : option string }.

Record HelmTaskSpec := {
  taskName : string;
  taskDependencies : list string;
  taskTimeout : option Z;
  taskCacheResult : option bool;
  taskResource : option ServiceResourceSpec;
}.

Record HelmTestSpec := {
  testName : string;
  testDependencies : list string;
  testTimeout : option Z;
  testResource : option ServiceResourceSpec;
}.

Record HelmModuleSpec := {
  base : option string;
  chartPath : string;
  dependencies : list string;
  serviceResource : option ServiceResourceSpec;
  skipDeploy : bool;
  tasks : list HelmTaskSpec;
  tests : list HelmTestSpec;
  valueFiles : list string;
}.

(** An entry of [build.dependencies]; [copy] holds the (source, target)
    pairs. *)
Record BuildDependencyConfig := {
  dependencyName : string;
  copy : list (string * string);
}.

Record ServiceConfig := {
  serviceName : string;
  serviceDependencies : list string;
  serviceDisabled : bool;
  sourceModuleName : option string;
}.

Record TaskConfig := {
  taskConfigName : string;
  taskConfigCacheResult : option bool;
  taskConfigDependencies : list string;
  taskConfigDisabled : bool;
  taskConfigTimeout : option Z;
}.

Record TestConfig := {
  testConfigName : string;
  testConfigDependencies : list string;
  testConfigDisabled : bool;
  testConfigTimeout : option Z;
}.

(** The module config; the [spec] of each service, task and test config
    (a reference to the spec it was made from) and [buildConfig] (the spec
    without five of its fields) are left out. *)
Record HelmModuleConfig := {
  moduleName : string;
  disabled : bool;
  spec : HelmModuleSpec;
  buildDependencies : list BuildDependencyConfig;
  include : option (list string);
  exclude : option (list string);
  serviceConfigs : list ServiceConfig;
  taskConfigs : list TaskConfig;
  testConfigs : list TestConfig;
}.

(** A string that is there and not empty. *)
Definition truthyName (s : option string) : option string :=
  match s with
  | Some s => if String.eqb s "" then None else Some s
  | None => None
  end.

(** [spec.resource && spec.resource.containerModule] *)
Definition containerModuleOf (r : option ServiceResourceSpec) : option string :=
  match r with
  | Some r => truthyName (containerModule r)
  | None => None
  end.

(** The build dependencies pushed while mapping the tasks or tests. *)
Definition containerModuleDependencies (resources : list (option ServiceResourceSpec))
  : list BuildDependencyConfig :=
  omap (fun r => (fun n => {| dependencyName := n; copy := [] |}) <$> containerModuleOf r)
       resources.

Definition baseAndSourcesError (config : HelmModuleConfig) : string :=
  "Helm module '" ++ moduleName config
    ++ "' both contains sources and specifies a base module. Since Helm charts cannot currently be merged, please either remove the sources or the `base` reference in your module config.".

(** The module config at the time [containsSource] is called, line 427:
    its service configs are set (lines 415-425), nothing else is changed
    yet. *)
Definition atSourceCheck (moduleConfig : HelmModuleConfig) : HelmModuleConfig :=
  {| moduleName := moduleName moduleConfig; disabled := disabled moduleConfig;
     spec := spec moduleConfig; buildDependencies := buildDependencies moduleConfig;
     include := include moduleConfig; exclude := exclude moduleConfig;
     serviceConfigs :=
       if skipDeploy (spec moduleConfig) then serviceConfigs moduleConfig
       else [{| serviceName := moduleName moduleConfig;
                serviceDependencies := dependencies (spec moduleConfig);
                serviceDisabled := disabled moduleConfig;
                sourceModuleName :=
                  match serviceResource (spec moduleConfig) with
                  | Some r => containerModule r
                  | None => None
                  end |}];
     taskConfigs := taskConfigs moduleConfig;
     testConfigs := testConfigs moduleConfig |}.

Section WithSources.

(** [containsSource(moduleConfig)] of [helm/common]. *)
Variable containsSource : HelmModuleConfig -> bool.
(** [posix.join(a, b)] *)
Variable posixJoin : string -> string -> string.

(** [configureHelmModule({ moduleConfig })], lines 408-496: the module
    config as it is left, or the message of the [ConfigurationError]. *)
Definition configureHelmModule (moduleConfig : HelmModuleConfig)
  : Result string HelmModuleConfig :=
  let s := spec moduleConfig in
  let sourceModule :=
    match serviceResource s with
    | Some r => containerModule r
    | None => None
    end in
  let services :=
    if skipDeploy s then serviceConfigs moduleConfig
    else [{| serviceName := moduleName moduleConfig;
             serviceDependencies := dependencies s;
             serviceDisabled := disabled moduleConfig;
             sourceModuleName := sourceModule |}] in
  let containsSources :=
    containsSource
      {| moduleName := moduleName moduleConfig; disabled := disabled moduleConfig;
         spec := s; buildDependencies := buildDependencies moduleConfig;
         include := include moduleConfig; exclude := exclude moduleConfig;
         serviceConfigs := services; taskConfigs := taskConfigs moduleConfig;
         testConfigs := testConfigs moduleConfig |} in
  try! fromBase :=
    match truthyName (base s) with
    | Some b =>
        if containsSources then Err (baseAndSourcesError moduleConfig)
        else Ok [{| dependencyName := b; copy := [("*", ".")] |}]
    | None => Ok []
    end in
  let included :=
    match include moduleConfig, exclude moduleConfig with
    | None, None =>
        Some (map (posixJoin (chartPath s))
                ((if containsSources then ["*"; "charts/**/*"; "templates/**/*"]
                  else ["*.yaml"; "*.yml"]) ++ valueFiles s)%list)
    | _, _ => include moduleConfig
    end in
  Ok {| moduleName := moduleName moduleConfig;
        disabled := disabled moduleConfig;
        spec := s;
        buildDependencies :=
          (buildDependencies moduleConfig ++ fromBase
             ++ containerModuleDependencies (map taskResource (tasks s))
             ++ containerModuleDependencies (map testResource (tests s)))%list;
        include := included;
        exclude := exclude moduleConfig;
        serviceConfigs := services;
        taskConfigs :=
          map (fun t => {| taskConfigName := taskName t;
                           taskConfigCacheResult := taskCacheResult t;
                           taskConfigDependencies := taskDependencies t;
                           taskConfigDisabled := disabled moduleConfig;
                           taskConfigTimeout := taskTimeout t |}) (tasks s);
        testConfigs :=
          map (fun t => {| testConfigName := testName t;
                           testConfigDependencies := testDependencies t;
                           testConfigDisabled := disabled moduleConfig;
                           testConfigTimeout := testTimeout t |}) (tests s) |}.

End WithSources.

End Helm.

(** ** More of the graph builder ([graph/actions.ts]) *)

Module Builder.

(** A pattern that sets the mode for the key: the key itself or a glob that
    matches it ([minimatch] is the glob matcher). *)
Definition selects (minimatch : string -> string -> bool) (key pattern : string) : Prop :=
  pattern = key ∨ minimatch key pattern = true.





Section WithTypes.

(** [relative(from, to)] of the [path] module. *)
Variable relative : string -> string -> string.
(** [naturalList(kinds, { trailingWord: "or a" })] of [util/string]. *)
Variable naturalList : list string -> string.
Variable projectRoot : string.

(** [actionTypes[kind][type]] as a condition.  The action types of a
    kind are held in a plain object, so the look-up also finds what the
    object inherits from [Object.prototype], and each of those members is
    truthy. *)
Definition hasType (actionTypes : gmap (string * string) Deps.ActionTypeDefinition)
    (actionKind type : string) : bool :=
  bool_decide (is_Some (actionTypes !! (actionKind, type)))
  || existsb (String.eqb type) Editor.inheritedMembers.

(** The [forEach] over [actionKinds] in [actionFromConfig], lines 254-259:
    the kinds that have an action type of this name. *)
Definition availableKinds (actionTypes : gmap (string * string) Deps.ActionTypeDefinition)
    (type : string) : list string :=
  List.filter (fun actionKind => hasType actionTypes actionKind type) actionKinds.

(** The two errors of lines 261-279; the messages are written with
    [deline], which joins the lines with a space. *)
Definition unrecognizedTypeError (actionTypes : gmap (string * string) Deps.ActionTypeDefinition)
    (config : ActionConfig) : GardenError :=
  let configPath := relative projectRoot (sourcePath config) in
  match availableKinds actionTypes (type config) with
  | [] =>
      {| errType := ConfigurationError;
         message := "Unrecognized action type '" ++ type config ++ "' (defined at "
                      ++ configPath ++ "). Are you missing a provider configuration?";
         detailConfigs := [config] |}
  | kinds =>
      {| errType := ConfigurationError;
         message := "Unrecognized " ++ type config ++ " action of kind " ++ kind config
                      ++ " (defined at " ++ configPath ++ "). There are no " ++ type config
                      ++ " " ++ kind config ++ " actions, did you mean to specify a "
                      ++ naturalList kinds ++ " action(s)?";
         detailConfigs := [config] |}
  end.

(** Lines 252-280 of [actionFromConfig]: the type of the config must be
    an action type of its kind. *)
Definition checkActionType (actionTypes : gmap (string * string) Deps.ActionTypeDefinition)
    (config : ActionConfig) : Result GardenError unit :=
  if hasType actionTypes (kind config) (type config) then Ok tt
  else Err (unrecognizedTypeError actionTypes config).

End WithTypes.

End Builder.

(** ** Statements about the exec handlers *)

Module ExecEffects.

Import Exec.
Local Open Scope string_scope.

(** The verbose log line of the full output, when there is output. *)
Definition outputLogged (prefix outputLog : string) : list Effect :=
  if String.eqb outputLog "" then [] else [LogVerbose prefix outputLog].

End ExecEffects.

(** ** Concrete inputs *)

Module Samples.

Import Modes Deps.
Local Open Scope string_scope.

(** The key of an action, ["<kind>.<name>"] with the kind in lower case
    for the four kinds. *)
Definition lowerKind (k : string) : string :=
  if String.eqb k "Build" then "build"
  else if String.eqb k "Deploy" then "deploy"
  else if String.eqb k "Run" then "run"
  else if String.eqb k "Test" then "test"
  else k.

Definition keyOf (k n : string) : string := lowerKind k ++ "." ++ n.

Definition describeWithPath (c : ActionConfig) (root : string) : string :=
  kind c ++ " " ++ name c ++ " (in " ++ sourcePath c ++ ")".

Definition mkConfig (k t n path : string) : ActionConfig :=
  {| kind := k; type := t; name := n;
     internal := {| basePath := path; configFilePath := None;
                    groupName := None; moduleName := None |};
     dependencies := None; build := None; copyFrom := None |}.

Definition apiBuild : ActionConfig := mkConfig "Build" "container" "api" "services/api".
Definition apiBuildAgain : ActionConfig := mkConfig "Build" "exec" "api" "legacy/api".
Definition apiDeploy : ActionConfig := mkConfig "Deploy" "helm" "api" "charts/api".

(** [garden deploy --sync '*' --sync api]: the wildcard comes first. *)
Definition wildcardThenExact : list string := ["deploy.*"; "deploy.api"].

(** [--sync api --local '*'] *)
Definition syncExactLocalWildcard : ActionModeMap :=
  {| sync := Some ["deploy.api"]; local := Some ["deploy.*"] |}.

(** An action built from a config that is set up for sync mode and not for
    local mode. *)
Definition syncCapableAction (config : ActionConfig) (m : ActionMode)
  : Result GardenError Action :=
  Ok {| actionConfig := config;
        longDescription := kind config ++ " type=" ++ type config ++ " name=" ++ name config;
        supportsMode := fun m' => match m' with ModeLocal => false | _ => true end |}.

(** A Helm Deploy whose values reference
    [${actions.build.api.outputs.deploymentImageName}], an output that the
    container Build type declares in its static-outputs schema. *)
Definition webDeploy : ActionConfig := mkConfig "Deploy" "helm" "web" "charts/web".

Definition imageNameReference : ActionTemplateReference :=
  {| tplKind := "Build"; tplName := "api";
     fullRef := ["actions"; "build"; "api"; "outputs"; "deploymentImageName"] |}.

Definition referencesOf (c : ActionConfig) : list ActionTemplateReference :=
  if String.eqb (name c) "web" then [imageNameReference] else [].

Definition sampleActionTypes : gmap (string * string) ActionTypeDefinition :=
  {[ ("Build", "container") :=
       {| staticOutputsSchema := Some ["localImageName"; "deploymentImageName"] |};
     ("Deploy", "helm") := {| staticOutputsSchema := Some [] |} ]}.

Definition sampleRegistry : gmap string ActionConfig :=
  {[ "build.api" := apiBuild; "deploy.web" := webDeploy ]}.

Definition parseReference (d : string) : Result string ActionReference :=
  Err "not used".

(** The static keys of the type of the action a reference points to. *)
Definition referencedStaticKeys (types : gmap (string * string) ActionTypeDefinition)
    (registry : gmap string ActionConfig) (ref : ActionTemplateReference) : list string :=
  match registry !! keyOf (tplKind ref) (tplName ref) with
  | Some target => staticKeysOf (types !! (kind target, type target))
  | None => []
  end.

(** Exec actions with an empty command list. *)
Definition emptyCommandAction : Exec.ExecAction :=
  {| Exec.actionName := "noop"; Exec.actionKey := "test.noop";
     Exec.actionModuleName := None; Exec.versionString := "v-1";
     Exec.specCommand := Some [] |}.

Definition startWorld : Exec.World :=
  {| Exec.now := 1000; Exec.nextDateId := 0; Exec.effects := [] |}.

(** A process that prints nothing, exits with 0 and takes 5 ms. *)
Definition quietSpawn (command : list string) : Result string Exec.ExecResult * Z :=
  (Ok {| Exec.all := Some ""; Exec.stdout := ""; Exec.stderr := ""; Exec.exitCode := 0 |}, 5%Z).

Definition stateOfSuccess (d : Exec.RunDetail) : string :=
  if Exec.success d then "ready" else "failed".

(** Run results and the action they belong to. *)
Definition apiRun : RunResults.Action :=
  {| RunResults.kind := "Run"; RunResults.type := "container"; RunResults.name := "api";
     RunResults.moduleName := Some "api-module"; RunResults.versionString := "v1" |}.

Definition projContext : RunResults.PluginContext := {| RunResults.projectName := "proj" |}.

Definition annotationKey (k : string) : string := "garden.io/" ++ k.

(** A record written before [outputs] existed: a top-level [log] only. *)
Definition legacyRecord : list (string * RunResults.JsValue) :=
  [ ("success", RunResults.JBool true);
    ("log", RunResults.JStr "hello");
    ("version", RunResults.JStr "v1") ].

(** A record with an [outputs] object that has no [log]. *)
Definition recordWithoutOutputsLog : list (string * RunResults.JsValue) :=
  [ ("success", RunResults.JBool true);
    ("log", RunResults.JStr "hello");
    ("outputs", RunResults.JObj [("exitCode", RunResults.JNum 0)]);
    ("version", RunResults.JObj [("versionString", RunResults.JStr "v1")]) ].

Definition stateOfRecord (v : RunResults.JsValue) : string :=
  match v with
  | RunResults.JObj fields =>
      match RunResults.lookupField "success" fields with
      | Some s => if RunResults.truthy s then "ready" else "failed"
      | None => "failed"
      end
  | _ => "failed"
  end.

Definition notFound : RunResults.JsError :=
  {| RunResults.statusCode := Some 404%Z; RunResults.errorMessage := "Not Found" |}.

Definition forbidden : RunResults.JsError :=
  {| RunResults.statusCode := Some 403%Z; RunResults.errorMessage := "Forbidden" |}.

(** A command set with [build] and [status]. *)
Definition buildCommand : CommandLine.Command :=
  {| CommandLine.fullName := "build"; CommandLine.isInteractive := false |}.

Definition statusCommand : CommandLine.Command :=
  {| CommandLine.fullName := "status"; CommandLine.isInteractive := false |}.

Definition pickSample (rawArgs : list string) : option (CommandLine.Command * list string) :=
  match rawArgs with
  | first :: rest =>
      if String.eqb first "build" then Some (buildCommand, rest)
      else if String.eqb first "status" then Some (statusCommand, rest)
      else None
  | [] => None
  end.

Definition acceptArgs (c : CommandLine.Command) (rawArgs rest : list string)
  : Result string unit := Ok tt.

(** The editor with a mistyped command in the buffer, over a history of two
    lines. *)
Definition editingUnknown : CommandLine.State :=
  {| CommandLine.enabled := true; CommandLine.currentCommand := "deploi api";
     CommandLine.cursorPosition := 6; CommandLine.historyIndex := 2;
     CommandLine.suggestionIndex := (-1); CommandLine.autocompletingFrom := (-1);
     CommandLine.commandHistory := ["build api"; "status"];
     CommandLine.showCursor := false; CommandLine.messageTimeout := None |}.

End Samples.

(** ** More concrete inputs *)

Module MoreSamples.

Local Open Scope string_scope.

(** Three suggestions for the typed text ["bu"], none for anything else. *)
Definition suggestBuild (typed : string) : list string :=
  if String.eqb typed "bu" then ["build"; "build api"; "build web"] else [].

(** The editor with ["bu"] typed and the cursor after it. *)
Definition typedBu : CommandLine.State :=
  {| CommandLine.enabled := true; CommandLine.currentCommand := "bu";
     CommandLine.cursorPosition := 2; CommandLine.historyIndex := 0;
     CommandLine.suggestionIndex := (-1); CommandLine.autocompletingFrom := (-1);
     CommandLine.commandHistory := []; CommandLine.showCursor := true;
     CommandLine.messageTimeout := None |}.

(** The editor with ["build api"] typed over a history that has it. *)
Definition typedBuildApi : CommandLine.State :=
  {| CommandLine.enabled := true; CommandLine.currentCommand := "build api";
     CommandLine.cursorPosition := 5; CommandLine.historyIndex := 2;
     CommandLine.suggestionIndex := (-1); CommandLine.autocompletingFrom := (-1);
     CommandLine.commandHistory := ["build api"; "status"];
     CommandLine.showCursor := true; CommandLine.messageTimeout := None |}.

(** A config file of an older release, with a kind that is not an action
    kind. *)
Definition legacyService : ActionConfig :=
  Samples.mkConfig "Service" "container" "old" "services/old".

(** A group with one Test action. *)
Definition apiTests : GroupConfig :=
  {| groupConfigName := "api-tests";
     groupInternal := Some {| groupConfigFilePath := Some "groups/api.yml" |};
     actions := [Samples.mkConfig "Test" "exec" "unit" "services/api"] |}.

(** [--sync api --sync web --local 'deploy.*'] *)
Definition syncTwoLocalWildcard : Modes.ActionModeMap :=
  {| Modes.sync := Some ["deploy.api"; "deploy.web"]; Modes.local := Some ["deploy.*"] |}.

(** A parser for references of the form [build.<name>] and
    [deploy.<name>]. *)
Definition parseKindName (d : string) : Result string Deps.ActionReference :=
  if String.prefix "build." d then
    Ok {| Deps.refKind := "Build"; Deps.refName := Editor.substringFrom 6 d |}
  else if String.prefix "deploy." d then
    Ok {| Deps.refKind := "Deploy"; Deps.refName := Editor.substringFrom 7 d |}
  else Err ("Could not parse " ++ d).

(** A Deploy that names a Build which no config declares. *)
Definition workerDeploy : ActionConfig :=
  {| kind := "Deploy"; type := "helm"; name := "worker";
     internal := {| basePath := "charts/worker"; configFilePath := None;
                    groupName := None; moduleName := None |};
     dependencies := Some ["build.api"]; build := Some "worker"; copyFrom := None |}.

(** Manifests of a Deploy: a Deployment without a namespace, a Namespace
    and a resource that names its namespace. *)
Definition apiDeployment : Kubernetes.KubernetesResource :=
  {| Kubernetes.apiVersion := "apps/v1"; Kubernetes.resourceKind := "Deployment";
     Kubernetes.metadata :=
       Some {| Kubernetes.metaName := Some "api"; Kubernetes.metaNamespace := None;
               Kubernetes.metaAnnotations := Some [("team", "core")];
               Kubernetes.metaLabels := None |};
     Kubernetes.resourceSpec := "replicas: 1" |}.

Definition devNamespace : Kubernetes.KubernetesResource :=
  {| Kubernetes.apiVersion := "v1"; Kubernetes.resourceKind := "Namespace";
     Kubernetes.metadata :=
       Some {| Kubernetes.metaName := Some "dev"; Kubernetes.metaNamespace := None;
               Kubernetes.metaAnnotations := None; Kubernetes.metaLabels := None |};
     Kubernetes.resourceSpec := "" |}.

Definition pinnedConfigMap : Kubernetes.KubernetesResource :=
  {| Kubernetes.apiVersion := "v1"; Kubernetes.resourceKind := "ConfigMap";
     Kubernetes.metadata :=
       Some {| Kubernetes.metaName := Some "settings"; Kubernetes.metaNamespace := Some "ops";
               Kubernetes.metaAnnotations := None; Kubernetes.metaLabels := None |};
     Kubernetes.resourceSpec := "data: {}" |}.

Definition sampleManifests : list Kubernetes.KubernetesResource :=
  [apiDeployment; devNamespace; pinnedConfigMap].

(** Every kind but [Namespace] is namespaced. *)
Definition resourceInfo (apiVersion kind : string) : option bool :=
  Some (negb (String.eqb kind "Namespace")).

(** What [getManifests] makes of [sampleManifests] for the action [api]. *)
Definition preparedManifests : list Kubernetes.KubernetesResource :=
  Eval vm_compute in
    default [] (Kubernetes.getManifests resourceInfo Samples.annotationKey "api" "default"
                  sampleManifests).

(** A spec with a kustomization and an output flag among the extra
    arguments. *)
Definition kustomizedSpec : Kubernetes.KubernetesDeploySpec :=
  {| Kubernetes.files := ["api.yml"];
     Kubernetes.kustomize :=
       Some {| Kubernetes.kustomizePath := Some "overlays/dev";
               Kubernetes.extraArgs := Some ["--output"; "out.yml"] |};
     Kubernetes.manifests := [devNamespace] |}.

Definition inlineSpec : Kubernetes.KubernetesDeploySpec :=
  {| Kubernetes.files := ["api.yml"]; Kubernetes.kustomize := None;
     Kubernetes.manifests := [devNamespace] |}.

Definition loadOneDeployment (paths : list string)
  : Result Kubernetes.Thrown (list (list Kubernetes.KubernetesResource)) :=
  Ok (map (fun _ => [apiDeployment]) paths).

(** A Run with a pod spec of two containers and a resource as well. *)
Definition migrateRun : Kubernetes.RunAction :=
  {| Kubernetes.actionKind := "Run"; Kubernetes.actionName := "migrate";
     Kubernetes.longDescription := "Run type=kubernetes-pod name=migrate";
     Kubernetes.versionString := "v-1"; Kubernetes.timeout := Some 0%Z;
     Kubernetes.spec :=
       {| Kubernetes.podSpec :=
            Some {| Kubernetes.containers :=
                      [ {| Kubernetes.containerName := "main";
                           Kubernetes.image := Some "migrations:1" |};
                        {| Kubernetes.containerName := "sidecar";
                           Kubernetes.image := Some "proxy:2" |} ] |};
          Kubernetes.resource :=
            Some {| Kubernetes.targetKind := Some "Deployment";
                    Kubernetes.targetName := Some "api";
                    Kubernetes.targetContainerName := None |};
          Kubernetes.command := Some ["migrate"]; Kubernetes.args := None |} |}.

(** An exec action with a command, and a process that prints and exits
    with 2 after 7 ms. *)
Definition lintAction : Exec.ExecAction :=
  {| Exec.actionName := "lint"; Exec.actionKey := "test.lint";
     Exec.actionModuleName := None; Exec.versionString := "v-1";
     Exec.specCommand := Some ["npm"; "run"; "lint"] |}.

Definition failedLint : Exec.ExecResult :=
  {| Exec.all := Some "2 problems"; Exec.stdout := "2 problems"; Exec.stderr := "";
     Exec.exitCode := 2 |}.

Definition failingSpawn (command : list string) : Result string Exec.ExecResult * Z :=
  (Ok failedLint, 7%Z).


(** The same Build declared in two files. *)
Definition apiBuildInFile (file : string) : ActionConfig :=
  {| kind := "Build"; type := "container"; name := "api";
     internal := {| basePath := "/project/services/api"; configFilePath := Some file;
                    groupName := None; moduleName := None |};
     dependencies := None; build := None; copyFrom := None |}.

(** [relative] for paths under [/project/]. *)
Definition relativeToProject (root path : string) : string :=
  if String.prefix "/project/" path then Editor.substringFrom 9 path else path.

(** A Deploy generated from the module [web]. *)
Definition webFromModule : ActionConfig :=
  {| kind := "Deploy"; type := "helm"; name := "web";
     internal := {| basePath := "modules/web"; configFilePath := None;
                    groupName := None; moduleName := Some "web" |};
     dependencies := None; build := None; copyFrom := None |}.

(** Three monitors: logs of [api] and of [web], and a sync of [api]. *)
Definition apiLogs : ServerCommands.Monitor :=
  {| ServerCommands.monitorType := "log"; ServerCommands.monitorKey := "api";
     ServerCommands.monitorDescription := "log monitor for api" |}.

Definition webLogs : ServerCommands.Monitor :=
  {| ServerCommands.monitorType := "log"; ServerCommands.monitorKey := "web";
     ServerCommands.monitorDescription := "log monitor for web" |}.

Definition apiSync : ServerCommands.Monitor :=
  {| ServerCommands.monitorType := "sync"; ServerCommands.monitorKey := "api";
     ServerCommands.monitorDescription := "sync monitor for api" |}.

(** A matcher for exact names and the wildcard. *)
Definition matchesName (key : string) (names : list string) : bool :=
  existsb (fun n => String.eqb n "*" || String.eqb n key) names.

(** A request for a project root that is not there. *)
Definition requestForMissingRoot : ServerCommands.BaseServerRequest :=
  {| ServerCommands.requestId := None; ServerCommands.requestCommand := Some "deploy api";
     ServerCommands.requestEnvironment := None;
     ServerCommands.requestProjectRoot := Some "/nowhere";
     ServerCommands.stringArguments := None; ServerCommands.requestInternal := None |}.

(** A Helm module with a remote chart, a value file and a task that runs
    in the container of the module [api-image]. *)
Definition chartModule : Helm.HelmModuleConfig :=
  {| Helm.moduleName := "api-chart"; Helm.disabled := false;
     Helm.spec :=
       {| Helm.base := None; Helm.chartPath := "chart"; Helm.dependencies := [];
          Helm.serviceResource := None; Helm.skipDeploy := false;
          Helm.tasks :=
            [{| Helm.taskName := "migrate"; Helm.taskDependencies := [];
                Helm.taskTimeout := None; Helm.taskCacheResult := None;
                Helm.taskResource := Some {| Helm.containerModule := Some "api-image" |} |}];
          Helm.tests := []; Helm.valueFiles := ["values-dev.yaml"] |};
     Helm.buildDependencies := []; Helm.include := None; Helm.exclude := None;
     Helm.serviceConfigs := []; Helm.taskConfigs := []; Helm.testConfigs := [] |}.

Definition joinPath (a b : string) : string := a ++ "/" ++ b.

(** What [configureHelmModule] makes of [chartModule]. *)
Definition configuredChartModule : Helm.HelmModuleConfig :=
  Eval vm_compute in
    match Helm.configureHelmModule (fun _ => false) joinPath chartModule with
    | Ok c => c
    | Err _ => chartModule
    end.

(** An action built from a config that is set up for local mode and not
    for sync mode. *)
Definition localCapableAction (config : ActionConfig) (m : ActionMode)
  : Result GardenError Modes.Action :=
  Ok {| Modes.actionConfig := config;
        Modes.longDescription :=
          kind config ++ " type=" ++ type config ++ " name=" ++ name config;
        Modes.supportsMode := fun m' => match m' with ModeSync => false | _ => true end |}.

(** [--sync api --sync '*']: the exact entry comes first. *)
Definition exactThenWildcard : list string := ["deploy.api"; "deploy.*"].

End MoreSamples.

(** * Properties *)

Local Close Scope string_scope.

(** ** Strings *)

Lemma append_cons (c : ascii) (a b : string) :
  (String c a ++ b)%string = String c (a ++ b).
Proof. reflexivity. Qed.

Lemma append_nil_l (b : string) : ("" ++ b)%string = b.
Proof. reflexivity. Qed.

Lemma string_app_assoc (a b c : string) : ((a ++ b) ++ c = a ++ (b ++ c))%string.
Proof.
  induction a as [|x a IH]; [reflexivity|].
  rewrite !append_cons. f_equal. exact IH.
Qed.

Lemma string_app_nil_r (a : string) : (a ++ "")%string = a.
Proof.
  induction a as [|x a IH]; [reflexivity|].
  rewrite append_cons. f_equal. exact IH.
Qed.

Lemma string_length_app (a b : string) :
  String.length (a ++ b) = String.length a + String.length b.
Proof.
  induction a as [|x a IH]; [reflexivity|].
  rewrite append_cons. simpl. f_equal. exact IH.
Qed.

Lemma prefix_app (x q : string) : String.prefix x (x ++ q) = true.
Proof.
  induction x as [|c x IH].
  - rewrite append_nil_l. by destruct q.
  - rewrite append_cons. simpl.
    destruct (ascii_dec c c) as [_|Hne]; [exact IH | by destruct Hne].
Qed.

Lemma includesStr_prefix (x s : string) : String.prefix x s = true -> includesStr x s = true.
Proof. intros H. destruct s; cbn [includesStr]; rewrite H; reflexivity. Qed.

Lemma includesStr_skip (p x s : string) :
  includesStr x s = true -> includesStr x (p ++ s) = true.
Proof.
  intros H. induction p as [|c p IH].
  - by rewrite append_nil_l.
  - rewrite append_cons. cbn [includesStr]. rewrite IH. apply orb_true_r.
Qed.

Lemma includesStr_app (p x q : string) : includesStr x (p ++ x ++ q) = true.
Proof. apply includesStr_skip, includesStr_prefix, prefix_app. Qed.


(** ** The registry *)

Section RegistryFacts.

Variable actionReferenceToString : string -> string -> string.
Variable describeActionConfigWithPath : ActionConfig -> string -> string.
Variable projectRoot : string.

Local Abbreviation key := (configKey actionReferenceToString).
Local Abbreviation conflict := (actionNameConflictError describeActionConfigWithPath).
Local Abbreviation addConfig' := (addConfig actionReferenceToString describeActionConfigWithPath projectRoot).
Local Abbreviation addConfigs' := (addConfigs actionReferenceToString describeActionConfigWithPath projectRoot).
Local Abbreviation registerConfigs' :=
  (registerConfigs actionReferenceToString describeActionConfigWithPath projectRoot).

Lemma knownKind_check c :
  knownKind c -> existsb (String.eqb (kind c)) actionKinds = true.
Proof.
  intros H. apply existsb_exists. exists (kind c). split.
  - by apply list_elem_of_In.
  - apply String.eqb_refl.
Qed.

Lemma addConfig_known reg c :
  knownKind c ->
  addConfig' reg c =
    match reg !! key c with
    | Some existing => Err (conflict existing c projectRoot)
    | None => Ok (<[key c := c]> reg)
    end.
Proof. intros H. unfold addConfig. by rewrite (knownKind_check c H). Qed.

Lemma addConfigs_app reg l1 l2 :
  addConfigs' reg (l1 ++ l2) = (try! reg' := addConfigs' reg l1 in addConfigs' reg' l2).
Proof.
  revert reg. induction l1 as [|c l1 IH]; intros reg; simpl; [reflexivity|].
  destruct (addConfig' reg c) as [reg'|e]; simpl; [apply IH | reflexivity].
Qed.

Lemma addGroupActions_map g reg acts :
  addGroupActions actionReferenceToString describeActionConfigWithPath projectRoot g reg acts
  = addConfigs' reg (map (nestInGroup g) acts).
Proof.
  revert reg. induction acts as [|c acts IH]; intros reg; simpl; [reflexivity|].
  destruct (addConfig' reg (nestInGroup g c)); simpl; [apply IH | reflexivity].
Qed.

Lemma addGroups_flat reg gs :
  addGroups actionReferenceToString describeActionConfigWithPath projectRoot reg gs
  = addConfigs' reg (flat_map (fun g => map (nestInGroup g) (actions g)) gs).
Proof.
  revert reg. induction gs as [|g gs IH]; intros reg; simpl; [reflexivity|].
  rewrite addConfigs_app, addGroupActions_map.
  destruct (addConfigs' reg (map (nestInGroup g) (actions g))); simpl;
    [apply IH | reflexivity].
Qed.

(** Registration is one pass of [addConfig] over [allConfigs]. *)
Lemma registerConfigs_all configs groups :
  registerConfigs' configs groups = addConfigs' ∅ (allConfigs configs groups).
Proof.
  unfold registerConfigs, allConfigs. rewrite addConfigs_app.
  destruct (addConfigs' ∅ configs); simpl; [apply addGroups_flat | reflexivity].
Qed.

(** A successful pass saw no key twice and none that was registered. *)
Lemma addConfigs_ok reg l reg' :
  addConfigs' reg l = Ok reg' ->
  NoDup (key <$> l) ∧ (∀ c, c ∈ l -> reg !! key c = None)
  ∧ (∀ k, reg' !! k = match list_find (fun c => key c = k) l with
                      | Some (_, c) => Some c
                      | None => reg !! k
                      end).
Proof.
  revert reg. induction l as [|c l IH]; intros reg; simpl.
  - intros [= <-]. split; [constructor|]. split; [by intros c ?%elem_of_nil | done].
  - unfold addConfig at 1.
    destruct (negb _); [done|].
    destruct (reg !! key c) eqn:Hc; [done|]. simpl.
    intros H. destruct (IH _ H) as (Hnd & Hfresh & Hlook).
    split; [|split].
    + apply NoDup_cons. split; [|done]. intros Hin.
      apply list_elem_of_fmap in Hin as (c' & Hk & Hc').
      specialize (Hfresh c' Hc'). rewrite <- Hk in Hfresh.
      by rewrite lookup_insert_eq in Hfresh.
    + intros c' [->|Hin]%elem_of_cons; [done|].
      specialize (Hfresh c' Hin).
      destruct (decide (key c = key c')) as [Heq|Hne].
      * rewrite Heq, lookup_insert_eq in Hfresh. done.
      * by rewrite lookup_insert_ne in Hfresh.
    + intros k. rewrite Hlook. case_decide as Hk.
      * simpl. destruct (list_find _ l) as [[i c']|] eqn:Hf; simpl.
        -- apply list_find_Some in Hf as (Hi & Hk' & _).
           apply list_elem_of_lookup_2 in Hi. specialize (Hfresh c' Hi).
           rewrite Hk', <- Hk, lookup_insert_eq in Hfresh. done.
        -- by rewrite <- Hk, lookup_insert_eq.
      * destruct (list_find _ l) as [[i c']|]; simpl; [done|].
        by rewrite lookup_insert_ne.
Qed.

(** A failed pass over configs of known kinds stopped at the first config
    whose key was taken, and its error carries the holder of the key and
    that config. *)
Lemma addConfigs_err reg l e :
  (∀ k a, reg !! k = Some a -> key a = k) ->
  Forall knownKind l ->
  addConfigs' reg l = Err e ->
  ∃ pre a b post,
    l = pre ++ b :: post ∧ e = conflict a b projectRoot ∧ key a = key b
    ∧ (reg !! key b = Some a ∨ a ∈ pre)
    ∧ NoDup (key <$> pre) ∧ (∀ c, c ∈ pre -> reg !! key c = None).
Proof.
  revert reg. induction l as [|c l IH]; intros reg Hwf Hk; simpl; [done|].
  apply Forall_cons in Hk as [Hc Hl].
  rewrite (addConfig_known reg c Hc).
  destruct (reg !! key c) as [existing|] eqn:Hreg; simpl.
  - intros [= <-]. exists [], existing, c, l. simpl.
    split; [done|]. split; [done|]. split; [by apply Hwf|].
    split; [by left|]. split; [constructor | by intros ? ?%elem_of_nil].
  - intros H.
    assert (Hwf' : ∀ k a, <[key c := c]> reg !! k = Some a -> key a = k).
    { intros k a. destruct (decide (key c = k)) as [<-|Hne].
      - rewrite lookup_insert_eq. by intros [= <-].
      - rewrite lookup_insert_ne by done. apply Hwf. }
    destruct (IH _ Hwf' Hl H)
      as (pre & a & b & post & -> & -> & Hab & Hsrc & Hnd & Hfresh).
    exists (c :: pre), a, b, post. split; [done|]. split; [done|]. split; [done|].
    assert (Hcpre : ∀ c', c' ∈ pre -> key c ≠ key c').
    { intros c' Hin Heq. specialize (Hfresh c' Hin).
      by rewrite <- Heq, lookup_insert_eq in Hfresh. }
    split; [|split].
    + destruct Hsrc as [Hsrc|Hsrc]; [|right; by apply elem_of_cons; right].
      destruct (decide (key c = key b)) as [Heq|Hne].
      * rewrite <- Heq, lookup_insert_eq in Hsrc. injection Hsrc as <-.
        right. apply elem_of_cons. by left.
      * rewrite lookup_insert_ne in Hsrc by done. by left.
    + simpl. apply NoDup_cons. split; [|done]. intros Hin.
      apply list_elem_of_fmap in Hin as (c' & Heq & Hc'). by apply (Hcpre c' Hc').
    + intros c' [->|Hin]%elem_of_cons; [done|].
      specialize (Hfresh c' Hin). rewrite lookup_insert_ne in Hfresh; [done|].
      by apply Hcpre.
Qed.

Lemma NoDup_fmap_eq {A B} (f : A -> B) (l : list A) x y :
  NoDup (f <$> l) -> x ∈ l -> y ∈ l -> f x = f y -> x = y.
Proof.
  intros Hnd [i Hi]%list_elem_of_lookup [j Hj]%list_elem_of_lookup Hf.
  assert (i = j) as ->.
  { apply (NoDup_lookup (f <$> l) i j (f x)); [done|..].
    - by rewrite list_lookup_fmap, Hi.
    - by rewrite list_lookup_fmap, Hj, Hf. }
  congruence.
Qed.

(** Whatever stops the pass is a [ConfigurationError]. *)
Lemma addConfigs_err_type reg l e :
  addConfigs' reg l = Err e -> errType e = ConfigurationError.
Proof.
  revert reg. induction l as [|c l IH]; intros reg; simpl; [done|].
  unfold addConfig at 1.
  destruct (negb _); [by intros [= <-]|].
  destruct (reg !! key c); simpl; [by intros [= <-] | apply IH].
Qed.

(** C1. Whenever two of the configs handed to the graph construction
    (declared directly, derived from modules, or nested in a group) have
    the same kind and name, the registration fails with a
    [ConfigurationError] and returns no registry.  With kinds as the type
    [ActionKind] has them, the error is that of [actionNameConflictError]
    for the first config [b'] whose key was already taken and the config
    [a'] that holds the key: the message contains the description with path
    of both, the detail carries both, and when the given pair is the first
    clash the two configs named are the given ones. *)
Theorem duplicate_action_config_rejected configs groups i j a b :
  i < j ->
  allConfigs configs groups !! i = Some a ->
  allConfigs configs groups !! j = Some b ->
  kind a = kind b ->
  name a = name b ->
  ∃ e,
    registerConfigs' configs groups = Err e
    ∧ errType e = ConfigurationError
    ∧ (Forall knownKind (allConfigs configs groups) ->
       ∃ pre a' b' post,
         e = conflict a' b' projectRoot
         ∧ allConfigs configs groups = pre ++ b' :: post
         ∧ a' ∈ pre ∧ key a' = key b' ∧ NoDup (key <$> pre)
         ∧ length pre ≤ j ∧ (length pre = j -> a' = a ∧ b' = b)
         ∧ includesStr (describeActionConfigWithPath a' projectRoot) (message e) = true
         ∧ includesStr (describeActionConfigWithPath b' projectRoot) (message e) = true
         ∧ detailConfigs e = [a'; b']).
Proof.
  intros Hij Hi Hj Hkind Hname.
  assert (Hkey : key a = key b) by (unfold configKey; congruence).
  rewrite registerConfigs_all.
  destruct (addConfigs' ∅ (allConfigs configs groups)) as [reg|e] eqn:Hrun.
  { apply addConfigs_ok in Hrun as (Hnd & _ & _).
    assert (i = j); [|lia].
    apply (NoDup_lookup _ i j (key a) Hnd).
    - by rewrite list_lookup_fmap, Hi.
    - by rewrite list_lookup_fmap, Hj, Hkey. }
  exists e. split; [done|]. split; [by eapply addConfigs_err_type|].
  intros Hknown.
  apply addConfigs_err in Hrun
    as (pre & a' & b' & post & Hall & -> & Hab & Hsrc & Hnd & _); [|done|done].
  destruct Hsrc as [Hsrc|Hin]; [by rewrite lookup_empty in Hsrc|].
  assert (Hle : length pre ≤ j).
  { destruct (decide (length pre ≤ j)) as [|Hgt]; [done|]. exfalso.
    assert (Hi' : pre !! i = Some a).
    { rewrite Hall, lookup_app_l in Hi by lia. done. }
    assert (Hj' : pre !! j = Some b).
    { rewrite Hall, lookup_app_l in Hj by lia. done. }
    assert (i = j); [|lia].
    apply (NoDup_lookup _ i j (key a) Hnd).
    - by rewrite list_lookup_fmap, Hi'.
    - by rewrite list_lookup_fmap, Hj', Hkey. }
  exists pre, a', b', post.
  split; [done|]. split; [done|]. split; [done|]. split; [done|].
  split; [done|]. split; [done|]. split.
  { intros Hlen. rewrite Hall in Hi, Hj.
    rewrite lookup_app_l in Hi by lia.
    rewrite list_lookup_middle in Hj by done. injection Hj as ->.
    split; [|done].
    apply (NoDup_fmap_eq key pre); [done|done|by eapply list_elem_of_lookup_2|congruence]. }
  split; [|split; [|done]].
  - unfold actionNameConflictError, actionNameConflictMessage, message.
    do 3 apply includesStr_skip. apply includesStr_prefix, prefix_app.
  - unfold actionNameConflictError, actionNameConflictMessage, message.
    do 6 apply includesStr_skip. apply includesStr_prefix, prefix_app.
Qed.

End RegistryFacts.

(** C1 at a project that declares the Build [api] twice, with a Deploy
    [api] between the two. *)
Lemma duplicate_action_config_rejected_witness :
  let all := allConfigs [Samples.apiBuild; Samples.apiDeploy; Samples.apiBuildAgain] [] in
  all !! 0 = Some Samples.apiBuild ∧ all !! 2 = Some Samples.apiBuildAgain
  ∧ Forall knownKind all
  ∧ ∃ e pre a' b' post,
      registerConfigs Samples.keyOf Samples.describeWithPath "/project"
        [Samples.apiBuild; Samples.apiDeploy; Samples.apiBuildAgain] [] = Err e
      ∧ errType e = ConfigurationError
      ∧ e = actionNameConflictError Samples.describeWithPath a' b' "/project"
      ∧ all = pre ++ b' :: post
      ∧ a' ∈ pre
      ∧ length pre ≤ 2
      ∧ (length pre = 2 -> a' = Samples.apiBuild ∧ b' = Samples.apiBuildAgain)
      ∧ includesStr (Samples.describeWithPath a' "/project") (message e) = true
      ∧ includesStr (Samples.describeWithPath b' "/project") (message e) = true
      ∧ detailConfigs e = [a'; b'].
Proof.
  assert (Hknown : Forall knownKind
            (allConfigs [Samples.apiBuild; Samples.apiDeploy; Samples.apiBuildAgain] [])).
  { repeat constructor. }
  split; [reflexivity|]. split; [reflexivity|]. split; [exact Hknown|].
  destruct (duplicate_action_config_rejected Samples.keyOf Samples.describeWithPath "/project"
              [Samples.apiBuild; Samples.apiDeploy; Samples.apiBuildAgain] [] 0 2
              Samples.apiBuild Samples.apiBuildAgain)
    as (e & Hrun & Htype & Hnamed);
    [lia | reflexivity | reflexivity | reflexivity | reflexivity |].
  destruct (Hnamed Hknown)
    as (pre & a' & b' & post & He & Hall & Hin & _ & _ & Hle & Hfirst & Ha & Hb & Hd).
  exists e, pre, a', b', post.
  split; [exact Hrun|]. split; [exact Htype|]. split; [exact He|]. split; [exact Hall|].
  split; [exact Hin|]. split; [exact Hle|]. split; [exact Hfirst|].
  split; [exact Ha|]. split; [exact Hb | exact Hd].
Defined.

(** The registration at the sample: the error names both [api] builds. *)
Example duplicate_api_build_error :
  registerConfigs Samples.keyOf Samples.describeWithPath "/project"
    [Samples.apiBuild; Samples.apiDeploy; Samples.apiBuildAgain] []
  = Err (actionNameConflictError Samples.describeWithPath
           Samples.apiBuild Samples.apiBuildAgain "/project").
Proof. reflexivity. Qed.

(** The registry of the declared configs refuses a second config of a kind
    and name in the same way: a [ConfigurationError] whose message has the
    path of the config it holds and the path of the new one. *)
Lemma addActionConfig_declared_twice (relative : string -> string -> string)
    (projectRoot : string) (actionConfigs : gmap (string * string) ActionConfig)
    (existing config : ActionConfig) :
  actionConfigs !! (kind config, name config) = Some existing ->
  ∃ e,
    addActionConfig relative projectRoot actionConfigs config = Err e
    ∧ errType e = ConfigurationError
    ∧ includesStr (relative projectRoot (sourcePath existing)) (message e) = true
    ∧ includesStr (relative projectRoot (sourcePath config)) (message e) = true.
Proof.
  intros Hex. unfold addActionConfig. rewrite Hex. unfold sortPaths.
  destruct (String.leb _ _); eexists; (split; [reflexivity|]); (split; [reflexivity|]);
    unfold message, declaredTwiceMessage; split.
  - do 4 apply includesStr_skip. apply includesStr_prefix, prefix_app.
  - do 6 apply includesStr_skip. apply includesStr_prefix, prefix_app.
  - do 6 apply includesStr_skip. apply includesStr_prefix, prefix_app.
  - do 4 apply includesStr_skip. apply includesStr_prefix, prefix_app.
Qed.

(** ** Execution modes *)

Section ModeFacts.

Import Modes.

Variable minimatch : string -> string -> bool.
Variable actionFromConfig : ActionConfig -> ActionMode -> Result GardenError Action.

(** Entries that neither equal the key nor match it are skipped. *)
Lemma applyModePatterns_skip target key pre rest st :
  Forall (fun p => p ≠ key ∧ minimatch key p = false) pre ->
  applyModePatterns minimatch target key (pre ++ rest) st
  = applyModePatterns minimatch target key rest st.
Proof.
  induction 1 as [|p pre [Hne Hno] _ IH]; simpl; [reflexivity|].
  rewrite Hno. destruct (String.eqb_spec key p) as [->|_]; [done | exact IH].
Qed.

(** What a loop leaves is decided by its first matching entry. *)
Lemma applyModePatterns_firstMatch target key patterns st :
  applyModePatterns minimatch target key patterns st =
    match firstMatch minimatch key patterns with
    | NoMatch => st
    | ByExactKey =>
        {| mode := target; explicitMode := true;
           logged := logged st ++ [silly (exactKeyMessage key target)] |}
    | ByGlob =>
        {| mode := target; explicitMode := explicitMode st;
           logged := logged (applyModePatterns minimatch target key patterns st) |}
    end.
Proof.
  induction patterns as [|p patterns IH]; simpl; [reflexivity|].
  destruct (String.eqb key p); [reflexivity|].
  destruct (minimatch key p); [reflexivity | exact IH].
Qed.

Lemma firstMatch_exact_in key patterns :
  firstMatch minimatch key patterns = ByExactKey -> key ∈ patterns.
Proof.
  induction patterns as [|p patterns IH]; simpl; [done|].
  destruct (String.eqb_spec key p) as [->|_]; [intros _; apply elem_of_cons; by left|].
  destruct (minimatch key p); [done|].
  intros H. apply elem_of_cons. right. by apply IH.
Qed.

(** The flag is raised by an exact first match in either list, and by
    nothing else. *)
Lemma explicitMode_resolveMode actionModes key :
  explicitMode (resolveMode minimatch actionModes key) = true
  <-> firstMatch minimatch key (default [] (sync actionModes)) = ByExactKey
      ∨ firstMatch minimatch key (default [] (local actionModes)) = ByExactKey.
Proof.
  unfold resolveMode.
  rewrite (applyModePatterns_firstMatch ModeLocal).
  rewrite (applyModePatterns_firstMatch ModeSync key (default [] (sync actionModes))).
  destruct (firstMatch minimatch key (default [] (local actionModes)));
    destruct (firstMatch minimatch key (default [] (sync actionModes)));
    simpl; split; intros H; try done; try (by left); try (by right);
    destruct H as [H|H]; done.
Qed.

(** The warning needs the flag and an action that lacks the mode. *)
Lemma warned_iff actionModes key config :
  warned minimatch actionFromConfig actionModes key config = true
  <-> ∃ action,
       actionFromConfig config (mode (resolveMode minimatch actionModes key)) = Ok action
       ∧ supportsMode action (mode (resolveMode minimatch actionModes key)) = false
       ∧ explicitMode (resolveMode minimatch actionModes key) = true.
Proof.
  unfold warned, processEntry.
  set (st := resolveMode minimatch actionModes key).
  assert (Hsilly : ∀ l,
    existsb (fun e => match level e with LWarn => true | _ => false end) l = true ->
    Forall (fun e => level e = LSilly) l -> False).
  { intros l Hex Hall. apply existsb_exists in Hex as (e & Hin & He).
    rewrite Forall_forall in Hall. apply list_elem_of_In in Hin.
    rewrite (Hall e Hin) in He. done. }
  assert (Hlog : Forall (fun e => level e = LSilly) (logged st)).
  { subst st. unfold resolveMode.
    assert (Hstep : ∀ target patterns st0,
      Forall (fun e => level e = LSilly) (logged st0) ->
      Forall (fun e => level e = LSilly)
             (logged (applyModePatterns minimatch target key patterns st0))).
    { intros target patterns st0 H0.
      induction patterns as [|p patterns IH]; simpl; [done|].
      destruct (String.eqb key p); simpl.
      - apply Forall_app. split; [done | by repeat constructor].
      - destruct (minimatch key p); simpl; [|done].
        apply Forall_app. split; [done | by repeat constructor]. }
    apply Hstep, Hstep. constructor. }
  destruct (actionFromConfig config (mode st)) as [action|err]; simpl.
  - rewrite existsb_app.
    destruct (supportsMode action (mode st)) eqn:Hsup; simpl.
    + rewrite orb_false_r. split.
      * intros H. destruct (Hsilly _ H Hlog).
      * intros (action' & [= <-] & Hs & _). congruence.
    + destruct (explicitMode st) eqn:Hex; simpl.
      * rewrite orb_true_r. split; [|done]. intros _. by exists action.
      * rewrite orb_false_r. split.
        -- intros H. destruct (Hsilly _ H Hlog).
        -- intros (action' & _ & _ & ?). done.
  - split.
    + intros H. destruct (Hsilly _ H Hlog).
    + intros (action' & ? & _). done.
Qed.

(** No exact first match in either list: no warning, whatever the action
    supports. *)
Lemma glob_only_never_warns actionModes key config :
  firstMatch minimatch key (default [] (sync actionModes)) ≠ ByExactKey ->
  firstMatch minimatch key (default [] (local actionModes)) ≠ ByExactKey ->
  warned minimatch actionFromConfig actionModes key config = false.
Proof.
  intros Hs Hl. apply not_true_is_false. intros (action & _ & _ & Hex)%warned_iff.
  apply explicitMode_resolveMode in Hex as [?|?]; done.
Qed.

(** What the scan of the sync list does, for any list: it stops at the
    first entry that equals the key or glob-matches it.  When the key is an
    entry of the list and no entry before it glob-matches the key, the
    mode is set on the exact match and nothing after it is looked at;
    when an earlier entry glob-matches the key, that entry sets the mode,
    the exact entry is never reached and the flag for an explicit mode
    stays down. *)
Theorem exact_match_wins_unless_earlier_glob key pre post :
  Forall (fun p => p ≠ key) pre ->
  (Forall (fun p => minimatch key p = false) pre ->
     resolveMode minimatch {| sync := Some (pre ++ key :: post); local := None |} key
     = {| mode := ModeSync; explicitMode := true;
          logged := [silly (exactKeyMessage key ModeSync)] |})
  ∧ (∀ before p after,
       pre = before ++ p :: after ->
       Forall (fun q => minimatch key q = false) before ->
       minimatch key p = true ->
       resolveMode minimatch {| sync := Some (pre ++ key :: post); local := None |} key
       = {| mode := ModeSync; explicitMode := false;
            logged := [silly (patternMessage key ModeSync p)] |}).
Proof.
  intros Hne. split.
  - intros Hno. unfold resolveMode. simpl.
    rewrite applyModePatterns_skip.
    + simpl. by rewrite String.eqb_refl.
    + rewrite Forall_forall in *. intros p Hp. split; [by apply Hne | by apply Hno].
  - intros before p after -> Hno Hp. unfold resolveMode. simpl.
    apply Forall_app in Hne as [Hb Hpa]. apply Forall_cons in Hpa as [Hpk _].
    rewrite <- app_assoc. rewrite applyModePatterns_skip.
    + simpl. rewrite Hp.
      destruct (String.eqb_spec key p) as [->|_]; [done | reflexivity].
    + rewrite Forall_forall in *. intros q Hq. split; [by apply Hb | by apply Hno].
Qed.

End ModeFacts.

(** The scan at a list whose exact entry comes before the wildcard. *)
Lemma exact_match_wins_unless_earlier_glob_witness :
  Forall (fun p => p ≠ "deploy.api") ["deploy.web"] ∧
  Forall (fun p => Modes.globMatch "deploy.api" p = false) ["deploy.web"] ∧
  Modes.resolveMode Modes.globMatch
    {| Modes.sync := Some (["deploy.web"] ++ "deploy.api" :: ["deploy.*"]);
       Modes.local := None |} "deploy.api"
  = {| Modes.mode := ModeSync; Modes.explicitMode := true;
       Modes.logged := [Modes.silly (Modes.exactKeyMessage "deploy.api" ModeSync)] |}.
Proof.
  assert (Hne : Forall (fun p => p ≠ "deploy.api") ["deploy.web"]).
  { repeat constructor. discriminate. }
  assert (Hno : Forall (fun p => Modes.globMatch "deploy.api" p = false) ["deploy.web"]).
  { repeat constructor. }
  split; [exact Hne|]. split; [exact Hno|].
  exact (proj1 (exact_match_wins_unless_earlier_glob Modes.globMatch
                  "deploy.api" ["deploy.web"] ["deploy.*"] Hne) Hno).
Defined.

(** The matcher on the sample keys. *)
Example globMatch_samples :
  Modes.globMatch "deploy.api" "deploy.*" = true
  ∧ Modes.globMatch "deploy.api" "*" = true
  ∧ Modes.globMatch "deploy.api" "deploy.api" = true
  ∧ Modes.globMatch "deploy.api" "deploy.web" = false
  ∧ Modes.globMatch "deploy.api" "build.*" = false
  ∧ Modes.globMatch "deploy.api" "deploy.ap?" = true.
Proof. repeat split. Qed.

(** An exact entry does not always win: the key is an entry of the list,
    yet the wildcard entry before it sets the mode and the exact entry is
    not reached. *)
Lemma exact_match_precedence_counterexample :
  ¬ (∀ (key : string) (patterns : list string),
       key ∈ patterns ->
       Modes.resolveMode Modes.globMatch
         {| Modes.sync := Some patterns; Modes.local := None |} key
       = {| Modes.mode := ModeSync; Modes.explicitMode := true;
            Modes.logged := [Modes.silly (Modes.exactKeyMessage key ModeSync)] |}).
Proof.
  intros H.
  specialize (H "deploy.api" Samples.wildcardThenExact).
  assert (Hin : "deploy.api" ∈ Samples.wildcardThenExact).
  { apply elem_of_cons. right. apply elem_of_cons. by left. }
  pose proof (f_equal Modes.explicitMode (H Hin)) as Hflag.
  vm_compute in Hflag. congruence.
Qed.

(** What the builder does at that input: the mode comes from the wildcard. *)
Example wildcard_before_exact :
  Modes.resolveMode Modes.globMatch
    {| Modes.sync := Some Samples.wildcardThenExact; Modes.local := None |} "deploy.api"
  = {| Modes.mode := ModeSync; Modes.explicitMode := false;
       Modes.logged := [Modes.silly (Modes.patternMessage "deploy.api" ModeSync "deploy.*")] |}.
Proof. reflexivity. Qed.

(** C3 at [--sync '*' --sync api] for a Deploy [api] that supports local
    mode and not sync mode.  The key is an entry of the sync list, so the
    user has set sync mode for it explicitly; but the wildcard entry before
    it ends the scan, the exact entry is never compared with the key, the
    mode is recorded as assigned by a glob and the flag for an explicit
    mode stays down.  So the warning that the action does not support the
    mode it was explicitly given is not logged, while the same two patterns
    in the other order log it. *)
Theorem exact_entry_after_wildcard_loses_the_warning :
  "deploy.api" ∈ Samples.wildcardThenExact
  ∧ Modes.resolveMode Modes.globMatch
      {| Modes.sync := Some Samples.wildcardThenExact; Modes.local := None |} "deploy.api"
    = {| Modes.mode := ModeSync; Modes.explicitMode := false;
         Modes.logged :=
           [Modes.silly (Modes.patternMessage "deploy.api" ModeSync "deploy.*")] |}
  ∧ Modes.modeAssignedBy Modes.globMatch
      {| Modes.sync := Some Samples.wildcardThenExact; Modes.local := None |} "deploy.api"
    = Modes.ByGlob
  ∧ Modes.warned Modes.globMatch MoreSamples.localCapableAction
      {| Modes.sync := Some Samples.wildcardThenExact; Modes.local := None |}
      "deploy.api" Samples.apiDeploy = false
  ∧ Modes.resolveMode Modes.globMatch
      {| Modes.sync := Some MoreSamples.exactThenWildcard; Modes.local := None |} "deploy.api"
    = {| Modes.mode := ModeSync; Modes.explicitMode := true;
         Modes.logged := [Modes.silly (Modes.exactKeyMessage "deploy.api" ModeSync)] |}
  ∧ fst (Modes.processEntry Modes.globMatch MoreSamples.localCapableAction
           {| Modes.sync := Some MoreSamples.exactThenWildcard; Modes.local := None |}
           "deploy.api" Samples.apiDeploy)
    = [ Modes.silly (Modes.exactKeyMessage "deploy.api" ModeSync);
        {| Modes.level := Modes.LWarn;
           Modes.text := "Deploy type=helm name=api is not configured for or does not support sync mode" |} ]
  ∧ Modes.warned Modes.globMatch MoreSamples.localCapableAction
      {| Modes.sync := Some MoreSamples.exactThenWildcard; Modes.local := None |}
      "deploy.api" Samples.apiDeploy = true.
Proof.
  split.
  - apply elem_of_cons. right. apply elem_of_cons. by left.
  - repeat split.
Qed.

(** C9 at [--sync api --local '*'] for a Deploy [api] that supports sync
    mode and not local mode: the final mode, local, was assigned by the glob
    entry, and the warning is logged all the same, because the flag set by
    the exact sync entry is still up. *)
Theorem warning_after_glob_assigned_local_mode :
  Modes.modeAssignedBy Modes.globMatch Samples.syncExactLocalWildcard "deploy.api" = Modes.ByGlob
  ∧ Modes.mode (Modes.resolveMode Modes.globMatch Samples.syncExactLocalWildcard "deploy.api")
    = ModeLocal
  ∧ fst (Modes.processEntry Modes.globMatch Samples.syncCapableAction
           Samples.syncExactLocalWildcard "deploy.api" Samples.apiDeploy)
    = [ Modes.silly (Modes.exactKeyMessage "deploy.api" ModeSync);
        Modes.silly (Modes.patternMessage "deploy.api" ModeLocal "deploy.*");
        {| Modes.level := Modes.LWarn;
           Modes.text := "Deploy type=helm name=api is not configured for or does not support local mode" |} ]
  ∧ Modes.warned Modes.globMatch Samples.syncCapableAction
      Samples.syncExactLocalWildcard "deploy.api" Samples.apiDeploy = true.
Proof. repeat split. Qed.

(** ** Dependency inference *)

Section DependencyFacts.

Import Modes Deps.

Variable actionReferenceToString : string -> string -> string.
Variable describeActionConfig : ActionConfig -> string.
Variable parseActionReference : string -> Result string ActionReference.
Variable addActionDependency : ActionDependency -> list ActionDependency -> list ActionDependency.
Variable getActionTemplateReferences : ActionConfig -> list ActionTemplateReference.
Variable maybeTemplateString : string -> bool.
Variable resolveTemplateString : string -> Result string string.

(** For a reference to [outputs.<key>] the flag is the absence of the key
    from the static keys the loop was given. *)
Lemma needsExecuted_outputs staticKeys k n outputKey more :
  outputKey ≠ ""%string ->
  needsExecuted staticKeys
    {| tplKind := k; tplName := n;
       fullRef := "actions" :: k :: n :: "outputs" :: outputKey :: more |}
  = negb (bool_decide (outputKey ∈ staticKeys)).
Proof.
  intros Hne. unfold needsExecuted. simpl.
  destruct (String.eqb_spec outputKey "") as [?|_]; [done|]. simpl. f_equal.
  induction staticKeys as [|s staticKeys IH]; simpl; [done|].
  destruct (String.eqb_spec outputKey s) as [->|Hs]; simpl.
  - symmetry. apply bool_decide_eq_true. apply elem_of_cons. by left.
  - rewrite IH. apply bool_decide_ext. rewrite elem_of_cons.
    split; [by right | by intros [?|?]].
Qed.

(** The static keys the loop is given are those of the type of the config
    being processed, whatever the references point to. *)
Lemma inferDependencies_static_keys actionTypes config configsByKey logs deps :
  inferDependencies actionReferenceToString describeActionConfig parseActionReference
    addActionDependency getActionTemplateReferences maybeTemplateString
    resolveTemplateString actionTypes config configsByKey = Ok (logs, deps) ->
  ∃ deps0,
    (logs, deps) =
      templateDeps describeActionConfig addActionDependency maybeTemplateString
        resolveTemplateString config
        (staticKeysOf (actionTypes !! (kind config, type config)))
        (getActionTemplateReferences config) ([], deps0).
Proof.
  unfold inferDependencies, dependenciesFromActionConfig.
  destruct (explicitDeps _ _ _) as [deps0|e]; simpl; [|done].
  match goal with |- context [bindR ?x _] => destruct x as [deps1|e] end; simpl; [|done].
  intros [= H]. exists deps1. by rewrite H.
Qed.

End DependencyFacts.

(** C2 at a Helm Deploy that references the static output
    [deploymentImageName] of a container Build: the key is in the schema of
    the referenced type, and the edge still asks for the executed outputs,
    because the keys consulted are those of the Helm type. *)
Theorem static_output_of_other_type_needs_execution :
  bool_decide ("deploymentImageName"
     ∈ Samples.referencedStaticKeys Samples.sampleActionTypes Samples.sampleRegistry
         Samples.imageNameReference) = true
  ∧ ∀ addActionDependency,
      Deps.inferDependencies Samples.keyOf (fun c => name c) Samples.parseReference
        addActionDependency Samples.referencesOf (fun _ => false) (fun s => Ok s)
        Samples.sampleActionTypes Samples.webDeploy Samples.sampleRegistry
      = Ok ([], addActionDependency
                  {| Deps.depKind := "Build"; Deps.depName := "api"; Deps.explicit := false;
                     Deps.needsExecutedOutputs := true;
                     Deps.needsStaticOutputs := false |} []).
Proof. split; [by vm_compute | intros add; reflexivity]. Qed.

(** The same reference from a config of the container type gets the static
    edge: the outcome follows the type of the referencing config. *)
Example static_output_of_same_type :
  Deps.inferDependencies Samples.keyOf (fun c => name c) Samples.parseReference
    Deps.addActionDependencyMerging (fun _ => [Samples.imageNameReference])
    (fun _ => false) (fun s => Ok s)
    Samples.sampleActionTypes (Samples.mkConfig "Build" "container" "web" "services/web")
    Samples.sampleRegistry
  = Ok ([], [ {| Deps.depKind := "Build"; Deps.depName := "api"; Deps.explicit := false;
                 Deps.needsExecutedOutputs := false; Deps.needsStaticOutputs := true |} ]).
Proof. reflexivity. Qed.

(** ** The exec handlers on an empty command *)

Section ExecFacts.

Import Exec.

Variable spawn : list string -> Result string ExecResult * Z.
Variable runResultToActionState : RunDetail -> string.

Lemma executedSomething_app w after extra :
  effects after = effects w ++ extra ->
  executedSomething w after
  = existsb (fun e => match e with RunCommand _ => true | _ => false end) extra.
Proof. intros H. unfold executedSomething. by rewrite H, drop_app_length. Qed.

(** Build: nothing runs, the world is untouched, the status is the initial
    [ready] one with no log. *)
Lemma exec_build_noop action w :
  emptyCommand action ->
  execBuildHandler spawn action w
  = (Ok {| buildState := "ready"; buildOutputsLog := None;
           buildDetail := {| fresh := None; buildLog := None |} |}, w).
Proof. intros [H|H]; unfold execBuildHandler; rewrite H; reflexivity. Qed.

(** Run: nothing runs, the result is a success with an empty log, and
    [completedAt] is the very [Date] object of [startedAt]. *)
Lemma exec_run_noop action w :
  emptyCommand action ->
  ∃ status w',
    execRunHandler spawn runResultToActionState action w = (Ok status, w')
    ∧ success (detail status) = true
    ∧ log (detail status) = ""%string
    ∧ outputsLog status = ""%string
    ∧ completedAt (detail status) = startedAt (detail status)
    ∧ runState status = runResultToActionState (detail status)
    ∧ effects w' = effects w ++ [CopyArtifacts]
    ∧ now w' = now w
    ∧ executedSomething w w' = false.
Proof.
  intros [H|H]; unfold execRunHandler; rewrite H; simpl;
    eexists _, _; (split; [reflexivity|]); simpl; repeat (split; [reflexivity|]);
    by rewrite (executedSomething_app w _ [CopyArtifacts]).
Qed.

(** The Test handler has no branch for an empty command: it always goes
    through [execRunCommand], and stamps [completedAt] with a new [Date]. *)
Lemma exec_test_always_runs action w :
  ∃ rest,
    effects (snd (execTestHandler spawn runResultToActionState action w))
    = effects w ++ RunCommand (default [] (specCommand action)) :: rest.
Proof.
  unfold execTestHandler, execRunCommand. simpl.
  destruct (spawn (default [] (specCommand action))) as [[r|e] elapsed]; simpl.
  - unfold logOutput. destruct (String.eqb (trimmedOutput r) ""); simpl.
    + exists [CopyArtifacts]. by rewrite <- !app_assoc.
    + eexists [CopyArtifacts; _]. by rewrite <- !app_assoc.
  - by exists [].
Qed.

Lemma exec_test_dates action w status w' :
  execTestHandler spawn runResultToActionState action w = (Ok status, w') ->
  dateId (startedAt (detail status)) = nextDateId w
  ∧ dateId (completedAt (detail status)) = S (nextDateId w)
  ∧ millis (completedAt (detail status))
    = (millis (startedAt (detail status)) + snd (spawn (default [] (specCommand action))))%Z.
Proof.
  unfold execTestHandler, execRunCommand. simpl.
  destruct (spawn (default [] (specCommand action))) as [[r|e] elapsed]; simpl; [|done].
  unfold logOutput. destruct (String.eqb (trimmedOutput r) ""); simpl;
    intros [= <- <-]; done.
Qed.

End ExecFacts.

(** C4 for a Test action with the command list [[]]: whatever the process
    layer does, the handler hands the empty command to [execRunCommand]
    (so something is executed), and when it returns a result its
    [completedAt] is a second [Date] object, not [startedAt]. *)
Theorem exec_test_empty_command_is_executed :
  ∀ spawn runResultToActionState w,
    Exec.executedSomething w
      (snd (Exec.execTestHandler spawn runResultToActionState Samples.emptyCommandAction w))
    = true
    ∧ match fst (Exec.execTestHandler spawn runResultToActionState
                   Samples.emptyCommandAction w) with
      | Ok status =>
          Exec.dateId (Exec.completedAt (Exec.detail status))
          = S (Exec.dateId (Exec.startedAt (Exec.detail status)))
      | Err _ => True
      end.
Proof.
  intros spawn rts w. split.
  - destruct (exec_test_always_runs spawn rts Samples.emptyCommandAction w) as [rest Hrest].
    by rewrite (executedSomething_app w _ _ Hrest).
  - destruct (Exec.execTestHandler spawn rts Samples.emptyCommandAction w)
      as [[status|e] w'] eqn:Hrun; simpl; [|done].
    apply exec_test_dates in Hrun as (-> & -> & _). done.
Qed.

(** With a process that exits at once with code 0 after 5 ms: the command
    was spawned, and the two instants differ. *)
Example exec_test_empty_command_run :
  Exec.execTestHandler Samples.quietSpawn Samples.stateOfSuccess
    Samples.emptyCommandAction Samples.startWorld
  = (Ok {| Exec.runState := "ready";
           Exec.detail :=
             {| Exec.detailModuleName := None; Exec.detailName := "noop";
                Exec.detailCommand := Some []; Exec.detailVersion := "v-1";
                Exec.success := true; Exec.log := ""; Exec.detailOutputsLog := None;
                Exec.startedAt := {| Exec.dateId := 0; Exec.millis := 1000 |};
                Exec.completedAt := {| Exec.dateId := 1; Exec.millis := 1005 |} |};
           Exec.outputsLog := "" |},
     {| Exec.now := 1005; Exec.nextDateId := 2;
        Exec.effects := [Exec.RunCommand []; Exec.CopyArtifacts] |}).
Proof. reflexivity. Qed.

(** The Run handler on the same action, for comparison. *)
Example exec_run_empty_command_run :
  Exec.execRunHandler Samples.quietSpawn Samples.stateOfSuccess
    Samples.emptyCommandAction Samples.startWorld
  = (Ok {| Exec.runState := "ready";
           Exec.detail :=
             {| Exec.detailModuleName := None; Exec.detailName := "noop";
                Exec.detailCommand := Some []; Exec.detailVersion := "v-1";
                Exec.success := true; Exec.log := ""; Exec.detailOutputsLog := Some "";
                Exec.startedAt := {| Exec.dateId := 0; Exec.millis := 1000 |};
                Exec.completedAt := {| Exec.dateId := 0; Exec.millis := 1000 |} |};
           Exec.outputsLog := "" |},
     {| Exec.now := 1000; Exec.nextDateId := 1; Exec.effects := [Exec.CopyArtifacts] |}).
Proof. reflexivity. Qed.

(** ** The run-result key *)

Section KeyFacts.

Import Sha1 RunResults.

(** The FIPS 180 test vectors: the empty message, one block, two blocks. *)
Example sha1_test_vectors :
  sha1Hex "" = "da39a3ee5e6b4b0d3255bfef95601890afd80709"%string
  ∧ sha1Hex "abc" = "a9993e364706816aba3e25717850c26c9cd0d89d"%string
  ∧ sha1Hex "abcdbcdecdefdefgefghfghighijhijkijkljklmklmnlmnomnopnopq"
    = "84983e441c3bd26ebaae4aa1f95129e5e54670f1"%string.
Proof. repeat split; vm_compute; reflexivity. Qed.

Lemma isHexChar_hexDigit n : isHexChar (hexDigit n) = true.
Proof.
  unfold hexDigit. generalize (Z.to_nat (n mod 16)) as k. intros k.
  do 16 (destruct k as [|k]; [reflexivity|]). by destruct k.
Qed.

Lemma allHex_app a b : allHex (a ++ b)%string = allHex a && allHex b.
Proof.
  induction a as [|c a IH]; [reflexivity|].
  rewrite append_cons. simpl. rewrite IH. apply andb_assoc.
Qed.

Lemma hexWord_length w : String.length (hexWord w) = 8.
Proof. reflexivity. Qed.

Lemma hexWord_allHex w : allHex (hexWord w) = true.
Proof.
  unfold hexWord. cbn [map string_of_list_ascii allHex].
  rewrite !isHexChar_hexDigit. reflexivity.
Qed.

(** The digest is always 40 lower-case hexadecimal characters. *)
Lemma sha1Hex_length s : String.length (sha1Hex s) = 40.
Proof. unfold sha1Hex. rewrite !string_length_app, !hexWord_length. reflexivity. Qed.

Lemma sha1Hex_allHex s : allHex (sha1Hex s) = true.
Proof. unfold sha1Hex. rewrite !allHex_app, !hexWord_allHex. reflexivity. Qed.

Lemma slice0_length n s : n ≤ String.length s -> String.length (Js.slice0 n s) = n.
Proof.
  unfold Js.slice0. revert s. induction n as [|n IH]; intros s Hn.
  - by destruct s.
  - destruct s as [|c s]; simpl in *; [lia|]. f_equal. apply IH. lia.
Qed.

Lemma slice0_allHex n s : allHex s = true -> allHex (Js.slice0 n s) = true.
Proof.
  unfold Js.slice0. revert s. induction n as [|n IH]; intros s Hs.
  - by destruct s.
  - destruct s as [|c s]; simpl in *; [done|].
    apply andb_true_iff in Hs as [Hc Hs]. rewrite Hc. simpl. by apply IH.
Qed.

(** The slice is a prefix of the digest. *)
Lemma slice0_prefix n s : String.prefix (Js.slice0 n s) s = true.
Proof.
  unfold Js.slice0. revert s. induction n as [|n IH]; intros s.
  - by destruct s.
  - destruct s as [|c s]; simpl; [done|].
    destruct (ascii_dec c c) as [_|Hne]; [apply IH | by destruct Hne].
Qed.

(** C5. The key is a function of the project name and of the action's type,
    name and version string alone (the same four strings give the same
    key, whatever the other fields of the action); it is ["run-result--"] followed by the
    first 32 characters of the 40-character hexadecimal SHA-1 digest of
    ["<projectName>--<type>.<name>--<versionString>"], and these 32
    characters are hexadecimal digits.  For project [proj], type
    [container], name [api] and version [v1] it is the key given last. *)
Theorem run_result_key_derivation :
  ∀ (ctx : PluginContext) (action : Action) (kind' : string) (moduleName' : option string),
    let input := (projectName ctx ++ "--" ++ type action ++ "." ++ name action
                    ++ "--" ++ versionString action)%string in
    let suffix := Js.slice0 32 (sha1Hex input) in
    getRunResultKey ctx action = ("run-result--" ++ suffix)%string
    ∧ String.length suffix = 32
    ∧ allHex suffix = true
    ∧ String.prefix suffix (sha1Hex input) = true
    ∧ String.length (getRunResultKey ctx action) = 44
    ∧ getRunResultKey {| projectName := projectName ctx |}
        {| kind := kind'; type := type action; name := name action;
           moduleName := moduleName'; versionString := versionString action |}
      = getRunResultKey ctx action
    ∧ getRunResultKey {| projectName := "proj" |}
        {| kind := "Run"; type := "container"; name := "api"; moduleName := None;
           versionString := "v1" |}
      = "run-result--6852280ff06e7f580cf980c899098788"%string.
Proof.
  intros ctx action kind' moduleName' input suffix.
  assert (Hlen : String.length suffix = 32).
  { apply slice0_length. rewrite sha1Hex_length. lia. }
  split; [reflexivity|]. split; [exact Hlen|].
  split; [apply slice0_allHex, sha1Hex_allHex|].
  split; [apply slice0_prefix|].
  split.
  { change (String.length ("run-result--" ++ suffix)%string = 44).
    rewrite string_length_app, Hlen. reflexivity. }
  split; [reflexivity|].
  vm_compute. reflexivity.
Qed.

End KeyFacts.

(** ** Reading a stored run result *)

Section ReadFacts.

Import RunResults.

Variable runResultToActionState : JsValue -> string.

Lemma lookup_setField_eq k v fields : lookupField k (setField k v fields) = Some v.
Proof.
  induction fields as [|[k' v'] fields IH]; simpl.
  - by rewrite String.eqb_refl.
  - destruct (String.eqb_spec k k') as [->|Hne]; simpl.
    + by rewrite String.eqb_refl.
    + destruct (String.eqb_spec k k'); [done | exact IH].
Qed.

Lemma lookup_setField_ne k k' v fields :
  k ≠ k' -> lookupField k (setField k' v fields) = lookupField k fields.
Proof.
  intros Hne. induction fields as [|[k0 v0] fields IH]; simpl.
  - destruct (String.eqb_spec k k'); done.
  - destruct (String.eqb_spec k' k0) as [->|Hk0]; simpl.
    + destruct (String.eqb_spec k k0); done.
    + destruct (String.eqb_spec k k0); [done | exact IH].
Qed.

Lemma getProp_object fields k :
  getProp (JObj fields) k = Ok (default JUndefined (lookupField k fields)).
Proof. reflexivity. Qed.

Lemma getProp_not_nullish v k : nullish v = false -> getProp v k = Ok (propOf v k).
Proof. by destruct v. Qed.

Lemma orEmpty_string s : orEmpty (JStr s) = JStr s.
Proof. unfold orEmpty. simpl. by destruct (String.eqb_spec s "") as [->|]. Qed.

(** The [version] step changes neither [outputs] nor [log]. *)
Lemma flattenVersion_frame fields version :
  lookupField "version" fields = Some version ->
  nullish version = false ->
  ∃ fields',
    flattenVersion (JObj fields) = Ok (JObj fields')
    ∧ lookupField "outputs" fields' = lookupField "outputs" fields
    ∧ lookupField "log" fields' = lookupField "log" fields.
Proof.
  intros Hv Hn. unfold flattenVersion. rewrite getProp_object, Hv. simpl.
  rewrite (getProp_not_nullish _ _ Hn). simpl.
  destruct (truthy (propOf version "versionString")); simpl.
  - eexists. split; [reflexivity|]. by rewrite !lookup_setField_ne.
  - by eexists.
Qed.

(** A record without [outputs] gets an empty one. *)
Lemma ensureOutputs_absent fields :
  lookupField "outputs" fields = None ->
  ensureOutputs (JObj fields) = Ok (JObj (setField "outputs" (JObj []) fields)).
Proof. intros H. unfold ensureOutputs. by rewrite getProp_object, H. Qed.

Lemma ensureOutputs_object fields outs :
  lookupField "outputs" fields = Some (JObj outs) ->
  ensureOutputs (JObj fields) = Ok (JObj fields).
Proof. intros H. unfold ensureOutputs. by rewrite getProp_object, H. Qed.

(** An [outputs] object without [log] gets the top-level one, or [""]. *)
Lemma backfillLog_absent fields outs :
  lookupField "outputs" fields = Some (JObj outs) ->
  lookupField "log" outs = None ->
  backfillLog (JObj fields)
  = Ok (JObj (setField "outputs"
                (JObj (setField "log"
                         (orEmpty (default JUndefined (lookupField "log" fields))) outs))
                fields)).
Proof.
  intros Ho Hl. unfold backfillLog. rewrite getProp_object, Ho. simpl.
  by rewrite Hl.
Qed.

(** The value returned once [outputs] is settled. *)
Lemma normalizeResult_settled fields result2 outs version :
  (try! result1 := ensureOutputs (JObj fields) in backfillLog result1)
  = Ok (JObj result2) ->
  lookupField "outputs" result2 = Some (JObj outs) ->
  lookupField "log" result2 = lookupField "log" fields ->
  lookupField "version" result2 = Some version ->
  nullish version = false ->
  ∃ r d,
    normalizeResult runResultToActionState fields = Ok r
    ∧ detail r = Some d
    ∧ getProp d "outputs" = Ok (JObj outs)
    ∧ outputs r = Some (JObj [("log", default JUndefined (lookupField "log" fields))])
    ∧ state r = runResultToActionState d.
Proof.
  intros Hfill Hout Hlog Hv Hn.
  destruct (flattenVersion_frame result2 version Hv Hn) as (fields' & Hstep & Hout' & Hlog').
  unfold normalizeResult.
  destruct (ensureOutputs (JObj fields)) as [result1|e]; simpl in *; [|done].
  rewrite Hfill. simpl. rewrite Hstep. simpl.
  eexists _, (JObj fields'). split; [reflexivity|]. simpl.
  split; [reflexivity|]. split; [by rewrite Hout', Hout|].
  split; [by rewrite Hlog', Hlog | reflexivity].
Qed.

(** C6, as amended.  (a) A record without an [outputs] object (and with a
    version) is read back with a synthesized [outputs] that holds exactly
    [log]: the legacy top-level [log] when it is truthy, else the empty
    string; it is not left empty.  (b) A record whose [outputs] object has
    no [log], and whose legacy top-level [log] is the string [legacy], is
    read back with [outputs.log] equal to [legacy].  In both cases the
    [outputs] of the value returned is [{ log: <top-level log> }].  (c) A
    read that fails with status code 404 gives
    [{ state: "not-ready", detail: null, outputs: null }], and any other
    error is thrown on. *)
Theorem run_result_read_compatibility :
  (∀ fields version,
     lookupField "outputs" fields = None ->
     lookupField "version" fields = Some version ->
     nullish version = false ->
     ∃ r d,
       k8sGetRunResult runResultToActionState (Ok fields) = Ok r
       ∧ detail r = Some d
       ∧ getProp d "outputs"
         = Ok (JObj [("log", orEmpty (default JUndefined (lookupField "log" fields)))])
       ∧ outputs r = Some (JObj [("log", default JUndefined (lookupField "log" fields))]))
  ∧ (∀ fields outs legacy version,
       lookupField "outputs" fields = Some (JObj outs) ->
       lookupField "log" outs = None ->
       lookupField "log" fields = Some (JStr legacy) ->
       lookupField "version" fields = Some version ->
       nullish version = false ->
       ∃ r d o,
         k8sGetRunResult runResultToActionState (Ok fields) = Ok r
         ∧ detail r = Some d
         ∧ getProp d "outputs" = Ok o
         ∧ getProp o "log" = Ok (JStr legacy)
         ∧ outputs r = Some (JObj [("log", JStr legacy)]))
  ∧ (∀ err,
       statusCode err = Some 404%Z ->
       k8sGetRunResult runResultToActionState (Err err)
       = Ok {| state := "not-ready"; detail := None; outputs := None |})
  ∧ (∀ err,
       statusCode err ≠ Some 404%Z ->
       k8sGetRunResult runResultToActionState (Err err) = Err err).
Proof.
  split; [|split; [|split]].
  - intros fields version Ho Hv Hn.
    destruct (normalizeResult_settled fields
                (setField "outputs"
                   (JObj [("log", orEmpty (default JUndefined (lookupField "log" fields)))])
                   (setField "outputs" (JObj []) fields))
                [("log", orEmpty (default JUndefined (lookupField "log" fields)))] version)
      as (r & d & Hr & Hd & Hout & Houts & _).
    + rewrite (ensureOutputs_absent _ Ho). simpl.
      rewrite (backfillLog_absent _ []); [|apply lookup_setField_eq|done].
      by rewrite lookup_setField_ne.
    + apply lookup_setField_eq.
    + by rewrite !lookup_setField_ne.
    + by rewrite !lookup_setField_ne.
    + done.
    + exists r, d. unfold k8sGetRunResult. simpl. rewrite Hr. done.
  - intros fields outs legacy version Ho Hl Hlegacy Hv Hn.
    destruct (normalizeResult_settled fields
                (setField "outputs" (JObj (setField "log" (JStr legacy) outs)) fields)
                (setField "log" (JStr legacy) outs) version)
      as (r & d & Hr & Hd & Hout & Houts & _).
    + rewrite (ensureOutputs_object _ _ Ho). simpl.
      rewrite (backfillLog_absent _ _ Ho Hl), Hlegacy. simpl. by rewrite orEmpty_string.
    + apply lookup_setField_eq.
    + by rewrite lookup_setField_ne.
    + by rewrite lookup_setField_ne.
    + done.
    + exists r, d, (JObj (setField "log" (JStr legacy) outs)).
      unfold k8sGetRunResult. simpl. rewrite Hr.
      repeat split; try done.
      * simpl. by rewrite lookup_setField_eq.
      * by rewrite Houts, Hlegacy.
  - intros err H404. unfold k8sGetRunResult. simpl.
    by rewrite bool_decide_eq_true_2.
  - intros err Hother. unfold k8sGetRunResult. simpl.
    by rewrite bool_decide_eq_false_2.
Qed.

End ReadFacts.

(** C6 as amended, at a legacy record, at a record whose [outputs] has no
    [log], and at the two kinds of read failure. *)
Lemma run_result_read_compatibility_witness :
  (∃ r d,
     RunResults.k8sGetRunResult Samples.stateOfRecord (Ok Samples.legacyRecord) = Ok r
     ∧ RunResults.detail r = Some d
     ∧ RunResults.getProp d "outputs"
       = Ok (RunResults.JObj [("log", RunResults.JStr "hello")])
     ∧ RunResults.outputs r = Some (RunResults.JObj [("log", RunResults.JStr "hello")]))
  ∧ (∃ r d o,
       RunResults.k8sGetRunResult Samples.stateOfRecord (Ok Samples.recordWithoutOutputsLog)
       = Ok r
       ∧ RunResults.detail r = Some d
       ∧ RunResults.getProp d "outputs" = Ok o
       ∧ RunResults.getProp o "log" = Ok (RunResults.JStr "hello")
       ∧ RunResults.outputs r = Some (RunResults.JObj [("log", RunResults.JStr "hello")]))
  ∧ RunResults.k8sGetRunResult Samples.stateOfRecord (Err Samples.notFound)
    = Ok {| RunResults.state := "not-ready"; RunResults.detail := None;
            RunResults.outputs := None |}
  ∧ RunResults.k8sGetRunResult Samples.stateOfRecord (Err Samples.forbidden)
    = Err Samples.forbidden.
Proof.
  destruct (run_result_read_compatibility Samples.stateOfRecord) as (Ha & Hb & Hc & Hd).
  split; [|split; [|split]].
  - exact (Ha Samples.legacyRecord (RunResults.JStr "v1") eq_refl eq_refl eq_refl).
  - exact (Hb Samples.recordWithoutOutputsLog [("exitCode", RunResults.JNum 0)] "hello"
              (RunResults.JObj [("versionString", RunResults.JStr "v1")])
              eq_refl eq_refl eq_refl eq_refl eq_refl).
  - exact (Hc Samples.notFound eq_refl).
  - apply (Hd Samples.forbidden). discriminate.
Defined.

(** C6 as the spec states it fails on its first part: a record without
    [outputs] is not read back with [outputs = {}], neither in the detail
    nor in the value returned; both hold the top-level [log]. *)
Lemma run_result_outputs_not_empty_counterexample :
  ¬ (∀ fields,
       RunResults.lookupField "outputs" fields = None ->
       ∃ r, RunResults.k8sGetRunResult Samples.stateOfRecord (Ok fields) = Ok r
            ∧ (RunResults.outputs r = Some (RunResults.JObj [])
               ∨ ∃ d, RunResults.detail r = Some d
                      ∧ RunResults.getProp d "outputs" = Ok (RunResults.JObj []))).
Proof.
  intros H. destruct (H Samples.legacyRecord eq_refl) as (r & Hr & Hor).
  vm_compute in Hr. injection Hr as <-.
  destruct Hor as [Hout | (d & Hd & Hout)].
  - discriminate Hout.
  - injection Hd as <-. discriminate Hout.
Qed.

(** The legacy record as it is read back. *)
Example legacy_record_read_back :
  RunResults.k8sGetRunResult Samples.stateOfRecord (Ok Samples.legacyRecord)
  = Ok {| RunResults.state := "ready";
          RunResults.detail :=
            Some (RunResults.JObj
                    [ ("success", RunResults.JBool true);
                      ("log", RunResults.JStr "hello");
                      ("version", RunResults.JStr "v1");
                      ("outputs", RunResults.JObj [("log", RunResults.JStr "hello")]) ]);
          RunResults.outputs := Some (RunResults.JObj [("log", RunResults.JStr "hello")]) |}.
Proof. reflexivity. Qed.

(** ** Storing a run result *)

Section StoreFacts.

Import RunResults.

Context {RunResult : Type}.
Variable gardenAnnotationKey : string -> string.
Variable trimRunOutput : RunResult -> RunResult.

(** The four labels, as written in the object literal. *)
Lemma runResultConfigMap_labels ctx action (result : RunResult) :
  labels (runResultConfigMap gardenAnnotationKey trimRunOutput ctx action result)
  = [ (gardenAnnotationKey "module", moduleName action);
      (gardenAnnotationKey "actionName", Some (name action));
      (gardenAnnotationKey "actionType", Some (name action));
      (gardenAnnotationKey "version", Some (versionString action)) ].
Proof. reflexivity. Qed.

(** With distinct annotation keys, the [actionType] label is the name of the
    action. *)
Lemma actionType_label_is_name ctx action (result : RunResult) :
  gardenAnnotationKey "module" ≠ gardenAnnotationKey "actionType" ->
  gardenAnnotationKey "actionName" ≠ gardenAnnotationKey "actionType" ->
  gardenAnnotationKey "version" ≠ gardenAnnotationKey "actionType" ->
  labelOf gardenAnnotationKey "actionType"
    (runResultConfigMap gardenAnnotationKey trimRunOutput ctx action result)
  = Some (Some (name action)).
Proof.
  intros H1 H2 H3. unfold labelOf. simpl.
  rewrite String.eqb_refl.
  destruct (String.eqb_spec (gardenAnnotationKey "module") (gardenAnnotationKey "actionType"));
    [done|].
  destruct (String.eqb_spec (gardenAnnotationKey "actionName")
              (gardenAnnotationKey "actionType")); [done|].
  destruct (String.eqb_spec (gardenAnnotationKey "version")
              (gardenAnnotationKey "actionType")); [done|].
  reflexivity.
Qed.

End StoreFacts.

(** C7 for the Run [api] of type [container]: the record stored carries the
    module name, the action name and the version, and under the
    [actionType] key the name [api] again, not the type. *)
Theorem stored_action_type_label_is_the_name :
  ∀ (result : string) (upsert : RunResults.ConfigMap string -> Result string unit),
    let stored := RunResults.runResultConfigMap Samples.annotationKey (fun r => r)
                    Samples.projContext Samples.apiRun result in
    RunResults.labels stored
    = [ ("garden.io/module", Some "api-module");
        ("garden.io/actionName", Some "api");
        ("garden.io/actionType", Some "api");
        ("garden.io/version", Some "v1") ]
    ∧ RunResults.labelOf Samples.annotationKey "actionType" stored = Some (Some "api")
    ∧ RunResults.type Samples.apiRun = "container"
    ∧ RunResults.cmKey stored = "run-result--6852280ff06e7f580cf980c899098788"
    ∧ match RunResults.storeRunResult Samples.annotationKey (fun r => r) upsert
              Samples.projContext Samples.apiRun result with
      | (Some record, _, _) => record = stored
      | (None, _, _) => True
      end.
Proof.
  intros result upsert stored.
  split; [reflexivity|]. split; [reflexivity|]. split; [reflexivity|].
  split; [by vm_compute|].
  unfold RunResults.storeRunResult. fold stored. by destruct (upsert stored).
Qed.

(** ** The command line *)

Section CommandLineFacts.

Import CommandLine.

Variable pickCommand : list string -> option (Command * list string).
Variable processCliArgs : Command -> list string -> list string -> Result string unit.

Local Abbreviation handleReturn' := (handleReturn pickCommand processCliArgs).
Local Abbreviation submit' := (submit pickCommand processCliArgs).
Local Abbreviation submitAll' := (submitAll pickCommand processCliArgs).
Local Abbreviation submittable' := (submittable pickCommand).

(** [trim] and [split(" ")] on sample buffers. *)
Example trim_split_samples :
  Js.trim "  build api " = "build api"%string
  ∧ Js.trim "   " = ""%string
  ∧ Js.splitSpace "build api" = ["build"; "api"]%string
  ∧ Js.splitSpace "a  b" = ["a"; ""; "b"]%string
  ∧ Js.splitSpace "" = [""]%string.
Proof. repeat split. Qed.

Lemma substring_whole b : String.substring 0 (String.length b) b = b.
Proof. induction b as [|c b IH]; simpl; [reflexivity | by rewrite IH]. Qed.

Lemma substring_past_end b n : String.substring (String.length b) n b = ""%string.
Proof. induction b as [|c b IH]; simpl; [by destruct n | exact IH]. Qed.

Lemma keyStrokeChar_at_end s c :
  atEnd s -> isInputChar c = true ->
  let s' := fst (keyStrokeChar s c) in
  currentCommand s' = (currentCommand s ++ String c "")%string
  ∧ atEnd s' ∧ sameHistory s s'.
Proof.
  intros [Hen Hcur] Hc. unfold keyStrokeChar. rewrite Hen, Hc. simpl.
  rewrite Hcur, substring_whole, substring_past_end, string_app_nil_r.
  repeat split; simpl; [done|].
  rewrite string_length_app. simpl. lia.
Qed.

Lemma typeLine_at_end s line :
  atEnd s -> allInputChars line = true ->
  currentCommand (typeLine s line) = (currentCommand s ++ line)%string
  ∧ atEnd (typeLine s line) ∧ sameHistory s (typeLine s line).
Proof.
  revert s. induction line as [|c line IH]; intros s Hs Hline; simpl.
  - rewrite string_app_nil_r. split; [done|]. split; [exact Hs|]. by repeat split.
  - simpl in Hline. apply andb_true_iff in Hline as [Hc Hline].
    destruct (keyStrokeChar_at_end s c Hs Hc) as (Hbuf & Hend & Hh1 & Hh2 & Hh3).
    destruct (IH _ Hend Hline) as (Hbuf' & Hend' & Hh1' & Hh2' & Hh3').
    split; [|split; [done|]].
    + rewrite Hbuf', Hbuf, string_app_assoc. reflexivity.
    + repeat split; congruence.
Qed.

(** Return on a buffer that names a command. *)
Lemma handleReturn_matched s command rest :
  Js.trim (currentCommand s) ≠ ""%string ->
  pickCommand (Js.splitSpace (currentCommand s)) = Some (command, rest) ->
  let s' := fst (handleReturn' s) in
  commandHistory s' = pushHistory (commandHistory s) (currentCommand s)
  ∧ historyIndex s' = length (commandHistory s')
  ∧ currentCommand s' = ""%string ∧ cursorPosition s' = 0
  ∧ enabled s' = enabled s.
Proof.
  intros Hblank Hpick. unfold handleReturn.
  destruct (String.eqb_spec (Js.trim (currentCommand s)) "") as [?|_]; [done|].
  rewrite Hpick.
  destruct (processCliArgs command _ rest); [|by repeat split].
  destruct (isInteractive command); by repeat split.
Qed.

(** The pushed line is the last entry and occurs nowhere else. *)
Lemma pushHistory_once history line :
  last (pushHistory history line) = Some line
  ∧ (line ∉ List.filter (fun cmd => negb (String.eqb cmd line)) history)
  ∧ (∀ other, other ≠ line -> (other ∈ pushHistory history line) <-> (other ∈ history)).
Proof.
  unfold pushHistory. split; [apply last_snoc|]. split.
  - intros Hin. apply list_elem_of_In, filter_In in Hin as [_ Hne].
    by rewrite String.eqb_refl in Hne.
  - intros other Hne. rewrite elem_of_app, list_elem_of_singleton.
    split.
    + intros [Hin|?]; [|done]. by apply list_elem_of_In, filter_In in Hin as [?%list_elem_of_In _].
    + intros Hin. left. apply list_elem_of_In, filter_In. split; [by apply list_elem_of_In|].
      by destruct (String.eqb_spec other line).
Qed.

Lemma submit_clean s line :
  atEnd s -> currentCommand s = ""%string -> submittable' line ->
  let s' := submit' s line in
  commandHistory s' = pushHistory (commandHistory s) line
  ∧ historyIndex s' = length (commandHistory s')
  ∧ currentCommand s' = ""%string ∧ atEnd s'.
Proof.
  intros Hs Hempty (Hchars & Hblank & [[command rest] Hpick]).
  destruct (typeLine_at_end s line Hs Hchars) as (Hbuf & [Hen _] & Hh & _ & _).
  rewrite Hempty, append_nil_l in Hbuf.
  unfold submit.
  destruct (handleReturn_matched (typeLine s line) command rest)
    as (Hhist & Hidx & Hcmd & Hcur & Hen'); [by rewrite Hbuf..|].
  rewrite Hhist, Hh, Hbuf in *.
  repeat split; try done.
  - by rewrite Hen'.
  - by rewrite Hcur, Hcmd.
Qed.

Lemma submitAll_clean s lines :
  atEnd s -> currentCommand s = ""%string -> Forall submittable' lines ->
  let s' := submitAll' s lines in
  commandHistory s' = fold_left pushHistory lines (commandHistory s)
  ∧ currentCommand s' = ""%string ∧ atEnd s'.
Proof.
  revert s. induction lines as [|line lines IH]; intros s Hs Hempty Hall; simpl.
  - done.
  - apply Forall_cons in Hall as [Hline Hall].
    destruct (submit_clean s line Hs Hempty Hline) as (Hhist & _ & Hcmd & Hend).
    destruct (IH _ Hend Hcmd Hall) as (Hhist' & Hcmd' & Hend').
    unfold submitAll in *. by rewrite Hhist', Hhist.
Qed.

(** C8. From an empty enabled prompt, after any sequence of submitted lines
    that name known commands, submitting one more such line leaves the
    history without its earlier occurrences of the line, with the line
    appended at the end, and sets the history-scroll index to the length of
    the history; the prompt is empty again.  The history after a sequence is
    the fold of this push over the lines, which for ["build api"],
    ["status"], ["build api"] from an empty history is
    [["status"; "build api"]]. *)
Theorem history_dedup_and_float s lines line :
  enabled s = true ->
  currentCommand s = ""%string ->
  cursorPosition s = 0 ->
  Forall submittable' lines ->
  submittable' line ->
  let before := submitAll' s lines in
  let after := submit' before line in
  commandHistory before = fold_left pushHistory lines (commandHistory s)
  ∧ commandHistory after
    = (List.filter (fun cmd => negb (String.eqb cmd line)) (commandHistory before)) ++ [line]
  ∧ (line ∉ List.filter (fun cmd => negb (String.eqb cmd line)) (commandHistory before))
  ∧ last (commandHistory after) = Some line
  ∧ historyIndex after = length (commandHistory after)
  ∧ currentCommand after = ""%string
  ∧ cursorPosition after = 0
  ∧ fold_left pushHistory ["build api"; "status"; "build api"]%string []
    = ["status"; "build api"]%string.
Proof.
  intros Hen Hempty Hcur Hlines Hline before after.
  assert (Hs : atEnd s) by (split; [done | by rewrite Hcur, Hempty]).
  destruct (submitAll_clean s lines Hs Hempty Hlines) as (Hbefore & Hcmd & Hend).
  destruct (submit_clean before line Hend Hcmd Hline) as (Hafter & Hidx & Hcmd' & [_ Hcur']).
  destruct (pushHistory_once (commandHistory before) line) as (Hlast & Hnot & _).
  subst after. rewrite Hcmd' in Hcur'.
  split; [done|]. split; [done|]. split; [done|].
  split; [by rewrite Hafter|]. split; [done|]. split; [done|]. split; [done|].
  reflexivity.
Qed.

(** C10. Return on a buffer that is not blank and names no command: every
    field of the editor keeps its value (buffer, cursor, history, history
    index, autocomplete state, flags); nothing is rendered or started; the
    one effect is the flashed error message and its timer. *)
Theorem unknown_command_changes_nothing s :
  Js.trim (currentCommand s) ≠ ""%string ->
  pickCommand (Js.splitSpace (currentCommand s)) = None ->
  let s' := fst (handleReturn' s) in
  currentCommand s' = currentCommand s
  ∧ cursorPosition s' = cursorPosition s
  ∧ commandHistory s' = commandHistory s
  ∧ historyIndex s' = historyIndex s
  ∧ editorFields s' = editorFields s
  ∧ snd (handleReturn' s) = [Flashed "! " couldNotFindMessage]
  ∧ messageTimeout s'
    = Some {| shown := ("! " ++ couldNotFindMessage)%string;
              duration := defaultMessageDuration |}.
Proof.
  intros Hblank Hpick. unfold handleReturn.
  destruct (String.eqb_spec (Js.trim (currentCommand s)) "") as [?|_]; [done|].
  rewrite Hpick. by repeat split.
Qed.

End CommandLineFacts.

(** C8 at the three submissions [build api], [status], [build api]. *)
Lemma history_dedup_and_float_witness :
  let before := CommandLine.submitAll Samples.pickSample Samples.acceptArgs
                  CommandLine.initialState ["build api"; "status"] in
  let after := CommandLine.submit Samples.pickSample Samples.acceptArgs before "build api" in
  CommandLine.commandHistory before = ["build api"; "status"]
  ∧ CommandLine.commandHistory after = ["status"; "build api"]
  ∧ CommandLine.historyIndex after = 2
  ∧ CommandLine.currentCommand after = ""
  ∧ CommandLine.cursorPosition after = 0.
Proof.
  assert (Hok : ∀ line, line ∈ ["build api"; "status"] ->
                        CommandLine.submittable Samples.pickSample line).
  { intros line Hin. apply elem_of_cons in Hin as [->|Hin];
      [|apply list_elem_of_singleton in Hin as ->];
      (split; [reflexivity|]); (split; [discriminate|]); by eexists. }
  assert (Hlines : Forall (CommandLine.submittable Samples.pickSample) ["build api"; "status"]).
  { apply Forall_forall. exact Hok. }
  assert (Hline : CommandLine.submittable Samples.pickSample "build api").
  { apply Hok. apply elem_of_cons. by left. }
  destruct (history_dedup_and_float Samples.pickSample Samples.acceptArgs
              CommandLine.initialState ["build api"; "status"] "build api"
              eq_refl eq_refl eq_refl Hlines Hline)
    as (Hbefore & Hafter & _ & _ & Hidx & Hcmd & Hcur & _).
  cbv zeta. rewrite Hafter, Hbefore in *.
  split; [reflexivity|]. split; [reflexivity|]. split; [exact Hidx|].
  split; [exact Hcmd | exact Hcur].
Defined.

(** C10 at a mistyped command. *)
Lemma unknown_command_changes_nothing_witness :
  let s := Samples.editingUnknown in
  let s' := fst (CommandLine.handleReturn Samples.pickSample Samples.acceptArgs s) in
  Js.trim (CommandLine.currentCommand s) ≠ ""
  ∧ CommandLine.currentCommand s' = "deploi api"
  ∧ CommandLine.cursorPosition s' = 6
  ∧ CommandLine.commandHistory s' = ["build api"; "status"]
  ∧ CommandLine.historyIndex s' = 2
  ∧ CommandLine.editorFields s' = CommandLine.editorFields s
  ∧ snd (CommandLine.handleReturn Samples.pickSample Samples.acceptArgs s)
    = [CommandLine.Flashed "! " CommandLine.couldNotFindMessage].
Proof.
  assert (Hblank : Js.trim (CommandLine.currentCommand Samples.editingUnknown) ≠ "").
  { discriminate. }
  destruct (unknown_command_changes_nothing Samples.pickSample Samples.acceptArgs
              Samples.editingUnknown Hblank eq_refl)
    as (Hcmd & Hcur & Hhist & Hidx & Hfields & Hev & _).
  cbv zeta. split; [exact Hblank|].
  split; [exact Hcmd|]. split; [exact Hcur|]. split; [exact Hhist|].
  split; [exact Hidx|]. split; [exact Hfields | exact Hev].
Defined.

(** ** The key handlers *)

Section EditorFacts.

Import CommandLine Editor.

Variable pickCommand : list string -> option (Command * list string).
Variable processCliArgs : Command -> list string -> list string -> Result string unit.
Variable suggest : string -> list string.

Local Abbreviation keyStroke' := (keyStroke pickCommand processCliArgs suggest).
Local Abbreviation keyStrokes' := (keyStrokes pickCommand processCliArgs suggest).
Local Abbreviation handleReturn' := (handleReturn pickCommand processCliArgs).

Lemma substring_length n m s :
  String.length (String.substring n m s) = Nat.min m (String.length s - n).
Proof.
  revert n m. induction s as [|c s IH]; intros [|n] [|m]; simpl; try reflexivity.
  - by rewrite IH, Nat.sub_0_r.
  - apply IH.
  - apply IH.
Qed.

Lemma substringFrom_length n s :
  String.length (substringFrom n s) = String.length s - n.
Proof. unfold substringFrom. rewrite substring_length. lia. Qed.

(** Cutting a buffer at any position and gluing the pieces gives it back. *)
Lemma substring_glue n m s :
  String.length s - n ≤ m ->
  (String.substring 0 n s ++ String.substring n m s)%string = s.
Proof.
  revert n m. induction s as [|c s IH]; intros [|n] [|m] Hm; simpl in *;
    try reflexivity; try lia.
  - rewrite append_nil_l. f_equal.
    specialize (IH 0 m). simpl in IH. rewrite <- IH at 2 by lia.
    by destruct m, s.
  - rewrite append_cons. f_equal. apply IH. lia.
  - rewrite append_cons. f_equal. apply IH. lia.
Qed.

Lemma substring_split n s :
  (String.substring 0 n s ++ substringFrom n s)%string = s.
Proof. apply substring_glue. lia. Qed.

Ltac keeps_start :=
  intros s (Hcur & Hidx & Hsug); unfold wellFormed.

Lemma backspace_keeps : keeps backspace.
Proof.
  keeps_start. unfold backspace.
  destruct (Nat.ltb_spec 0 (cursorPosition s)) as [Hpos|_].
  - eexists _, _. split; [reflexivity|]. simpl.
    rewrite string_length_app, substring_length, substringFrom_length.
    repeat split; try done; lia.
  - by eexists _, _.
Qed.

Lemma deleteForward_keeps : keeps deleteForward.
Proof.
  keeps_start. unfold deleteForward.
  eexists _, _. split; [reflexivity|]. simpl.
  rewrite string_length_app, substring_length, substringFrom_length.
  repeat split; try done; lia.
Qed.

Lemma leftArrow_keeps : keeps leftArrow.
Proof.
  keeps_start. unfold leftArrow.
  destruct (Nat.ltb_spec 0 (cursorPosition s)) as [Hpos|_].
  - eexists _, _. split; [reflexivity|]. simpl. repeat split; try done; lia.
  - by eexists _, _.
Qed.

Lemma rightArrow_keeps : keeps rightArrow.
Proof.
  keeps_start. unfold rightArrow.
  destruct (Nat.ltb_spec (cursorPosition s) (String.length (currentCommand s))) as [Hlt|_].
  - eexists _, _. split; [reflexivity|]. simpl. repeat split; try done; lia.
  - by eexists _, _.
Qed.

Lemma toStart_keeps : keeps toStart.
Proof.
  keeps_start. eexists _, _. split; [reflexivity|]. simpl. repeat split; try done; lia.
Qed.

Lemma toEnd_keeps : keeps toEnd.
Proof.
  keeps_start. eexists _, _. split; [reflexivity|]. simpl. repeat split; try done; lia.
Qed.

Lemma clearBack_keeps : keeps clearBack.
Proof.
  keeps_start. eexists _, _. split; [reflexivity|]. simpl. repeat split; try done; lia.
Qed.

Lemma clearLine_keeps : keeps clearLine.
Proof.
  keeps_start. unfold clearLine. destruct (Nat.eqb_spec (cursorPosition s) 0) as [Hz|_].
  - eexists _, _. split; [reflexivity|]. simpl. repeat split; try done; lia.
  - by eexists _, _.
Qed.

Lemma upArrow_keeps : keeps upArrow.
Proof.
  keeps_start. unfold upArrow.
  destruct (Nat.ltb_spec 0 (historyIndex s)) as [Hpos|_]; [|by eexists _, _].
  destruct (lookup_lt_is_Some_2 (commandHistory s) (historyIndex s - 1)) as [entry He];
    [lia|].
  rewrite He. eexists _, _. split; [reflexivity|]. simpl. repeat split; try done; lia.
Qed.

Lemma downArrow_keeps : keeps downArrow.
Proof.
  keeps_start. unfold downArrow.
  destruct (Nat.ltb_spec (historyIndex s) (length (commandHistory s))) as [Hlt|Hge].
  - destruct (lookup_lt_is_Some_2 (commandHistory s) (historyIndex s)) as [entry He];
      [lia|].
    rewrite He. eexists _, _. split; [reflexivity|]. simpl. repeat split; try done; lia.
  - destruct (Nat.ltb_spec 0 (historyIndex s)) as [Hpos|_].
    + eexists _, _. split; [reflexivity|]. simpl. repeat split; try done; lia.
    + by eexists _, _.
Qed.

Lemma tabKey_keeps : keeps (tabKey suggest).
Proof.
  keeps_start. unfold tabKey.
  destruct (Nat.eqb (cursorPosition s) 0); [by eexists _, _|].
  destruct (getSuggestions suggest s (completingFrom s)) as [|line0 lines] eqn:Hs.
  - eexists _, _. split; [reflexivity|]. simpl. repeat split; try done; lia.
  - set (suggestions := line0 :: lines).
    set (index := if (Z.of_nat (length suggestions) <=? suggestionIndex s + 1)%Z
                  then 0%Z else (suggestionIndex s + 1)%Z).
    assert (Hrange : (0 ≤ index < Z.of_nat (length suggestions))%Z).
    { subst index. destruct (Z.leb_spec (Z.of_nat (length suggestions)) (suggestionIndex s + 1));
        simpl length in *; lia. }
    destruct (Z.ltb_spec index 0) as [?|_]; [lia|].
    destruct (lookup_lt_is_Some_2 suggestions (Z.to_nat index)) as [line Hl]; [lia|].
    rewrite Hl. eexists _, _. split; [reflexivity|]. simpl. repeat split; try done; lia.
Qed.

Lemma characterHandler_keeps c :
  keeps (fun s => ran (characterHandler s (String c EmptyString))).
Proof.
  keeps_start. eexists _, _. split; [reflexivity|]. simpl.
  rewrite !string_length_app, substring_length, substring_length. simpl.
  repeat split; try done; lia.
Qed.

(** Return keeps the bounds too; the history is either the same or has the
    buffer, which is not blank, pushed to its end. *)
Lemma handleReturn_bounds s :
  wellFormed s ->
  wellFormed (fst (handleReturn' s))
  ∧ (commandHistory (fst (handleReturn' s)) = commandHistory s
     ∨ (Js.trim (currentCommand s) ≠ ""%string
        ∧ commandHistory (fst (handleReturn' s))
          = pushHistory (commandHistory s) (currentCommand s))).
Proof.
  intros (Hcur & Hidx & Hsug). unfold wellFormed, handleReturn.
  destruct (String.eqb_spec (Js.trim (currentCommand s)) "") as [?|Hblank];
    [by split; [|left]|].
  destruct (pickCommand _) as [[command rest]|].
  - assert (Hpush : ∀ s', commandHistory s' = pushHistory (commandHistory s) (currentCommand s) ->
                          commandHistory s' = commandHistory s
                          ∨ Js.trim (currentCommand s) ≠ ""%string
                            ∧ commandHistory s'
                              = pushHistory (commandHistory s) (currentCommand s))
      by (intros; by right).
    destruct (processCliArgs command _ rest); [|simpl; split; [repeat split; lia | by right]].
    destruct (isInteractive command); simpl; (split; [repeat split; lia | by right]).
  - simpl. split; [done | by left].
Qed.

(** A name made of one character is the input itself. *)
Lemma stringKeyOf_single input key c :
  stringKeyOf input key = String c EmptyString -> input = String c EmptyString.
Proof.
  unfold stringKeyOf.
  destruct (String.eqb input "[1~"); [discriminate|].
  destruct (String.eqb input "[4~"); [discriminate|].
  destruct (keyCtrl key && negb (keyTab key)); [discriminate|].
  destruct (keyDelete key && negb (keyMeta key)); [discriminate|].
  unfold directInputKeys. simpl.
  repeat match goal with
         | |- context [if ?b then _ else _] => destruct b; [discriminate|]
         end.
  done.
Qed.

(** The handlers there are. *)
Lemma handlerFor_cases stringKey input h :
  handlerFor pickCommand processCliArgs suggest stringKey input = Some h ->
  (∃ c, stringKey = String c EmptyString ∧ h = (fun s => ran (characterHandler s input)))
  ∨ h = (fun s => ran (handleReturn' s))
  ∨ h ∈ [backspace; deleteForward; leftArrow; rightArrow; toStart; toEnd;
         tabKey suggest; upArrow; downArrow; clearBack; clearLine].
Proof.
  unfold handlerFor. intros H.
  destruct stringKey as [|c [|c' rest]].
  2: { destruct (isInputChar c); [|discriminate]. injection H as <-. left. by exists c. }
  all: right;
    repeat match type of H with
           | context [if ?b then _ else _] => destruct b
           end;
    try discriminate; injection H as <-;
    first [ by left | right; set_solver ].
Qed.

(** One key stroke, from a state within bounds: no crash, a state within
    bounds, and a history that is the same or has the non-blank buffer
    pushed. *)
Lemma keyStroke_step input key s :
  wellFormed s ->
  ∃ s', stateAfter s (keyStroke' input key s) = Some s'
        ∧ wellFormed s'
        ∧ (commandHistory s' = commandHistory s
           ∨ (Js.trim (currentCommand s) ≠ ""%string
              ∧ commandHistory s' = pushHistory (commandHistory s) (currentCommand s))).
Proof.
  intros Hwf. unfold keyStroke.
  destruct (enabled s); simpl; [|exists s; by split; [|split; [|left]]].
  destruct (handlerFor _ _ _ _ _) as [h|] eqn:Hh.
  - apply handlerFor_cases in Hh as [(c & Hk & ->)|[->|Hin]].
    + apply stringKeyOf_single in Hk as ->.
      destruct (characterHandler_keeps c s Hwf) as (s' & ev & -> & Hwf' & Hh').
      exists s'. by split; [|split; [|left]].
    + destruct (handleReturn_bounds s Hwf) as [Hwf' Hhist].
      exists (fst (handleReturn' s)). by split.
    + assert (Hk : keeps h).
      { repeat (apply elem_of_cons in Hin as [->|Hin];
                [eauto using backspace_keeps, deleteForward_keeps, leftArrow_keeps,
                   rightArrow_keeps, toStart_keeps, toEnd_keeps, tabKey_keeps,
                   upArrow_keeps, downArrow_keeps, clearBack_keeps, clearLine_keeps|]).
        by apply elem_of_nil in Hin. }
      destruct (Hk s Hwf) as (s' & ev & -> & Hwf' & Hh').
      exists s'. by split; [|split; [|left]].
  - exists s. split; [by case_match|]. by split; [|left].
Qed.

Lemma NoDup_list_filter {A} (f : A -> bool) (l : list A) :
  NoDup l -> NoDup (List.filter f l).
Proof.
  induction 1 as [|x l Hx Hnd IH]; simpl; [constructor|].
  destruct (f x); [|done].
  apply NoDup_cons. split; [|done].
  intros Hin. apply Hx. apply list_elem_of_In, filter_In in Hin as [Hin _].
  by apply list_elem_of_In.
Qed.

(** The history stays clean when a non-blank line is pushed. *)
Lemma pushHistory_clean history line :
  NoDup history -> Forall (fun l => Js.trim l ≠ ""%string) history ->
  Js.trim line ≠ ""%string ->
  NoDup (pushHistory history line)
  ∧ Forall (fun l => Js.trim l ≠ ""%string) (pushHistory history line).
Proof.
  intros Hnd Hall Hline. unfold pushHistory. split.
  - apply NoDup_app. split; [|split].
    + by apply NoDup_list_filter.
    + intros x Hin ->%list_elem_of_singleton.
      apply list_elem_of_In, filter_In in Hin as [_ Hne].
      by rewrite String.eqb_refl in Hne.
    + apply NoDup_singleton.
  - apply Forall_app. split; [|by repeat constructor].
    apply Forall_forall. intros x Hin.
    apply list_elem_of_In, filter_In in Hin as [Hin%list_elem_of_In _].
    by apply (proj1 (Forall_forall _ _) Hall).
Qed.

Lemma renderCommandLine_quiet s msg : Threw msg ∉ renderCommandLine s.
Proof.
  unfold renderCommandLine. destruct (enabled s); [|apply not_elem_of_nil].
  intros Hin. apply list_elem_of_singleton in Hin. discriminate.
Qed.

Lemma rendered_quiet s msg : Threw msg ∉ eventsOf (rendered s).
Proof. apply renderCommandLine_quiet. Qed.

Ltac quiet_handler :=
  intros s msg;
  repeat first [ apply rendered_quiet
               | apply not_elem_of_nil
               | case_match ].

Lemma handlers_quiet :
  Forall quiet [backspace; deleteForward; leftArrow; rightArrow; toStart; toEnd;
                tabKey suggest; upArrow; downArrow; clearBack; clearLine].
Proof.
  repeat constructor.
  - unfold backspace. quiet_handler.
  - unfold deleteForward. quiet_handler.
  - unfold leftArrow. quiet_handler.
  - unfold rightArrow. quiet_handler.
  - unfold toStart. quiet_handler.
  - unfold toEnd. quiet_handler.
  - unfold tabKey. quiet_handler.
  - unfold upArrow. quiet_handler.
  - unfold downArrow. quiet_handler.
  - unfold clearBack. quiet_handler.
  - unfold clearLine. quiet_handler.
Qed.

Lemma characterHandler_quiet input : quiet (fun s => ran (characterHandler s input)).
Proof. intros s msg. apply renderCommandLine_quiet. Qed.

(** The one exception the return handler lets out is the one of
    [parseCliArgs] or [processCliArgs]. *)
Lemma handleReturn_throws s msg :
  Threw msg ∈ snd (handleReturn' s) ->
  ∃ command rest,
    pickCommand (Js.splitSpace (currentCommand s)) = Some (command, rest)
    ∧ processCliArgs command (Js.splitSpace (currentCommand s)) rest = Err msg.
Proof.
  unfold handleReturn.
  destruct (String.eqb (Js.trim (currentCommand s)) ""); cbn [snd];
    [by intros ?%elem_of_nil|].
  destruct (pickCommand _) as [[command rest]|].
  - destruct (processCliArgs command _ rest) as [[]|msg'] eqn:Hparse.
    + destruct (isInteractive command); cbn [snd flashMessage]; intros Hin;
        (apply elem_of_app in Hin as [Hin|Hin];
         [by apply renderCommandLine_quiet in Hin|]);
        repeat (apply elem_of_app in Hin as [Hin|Hin] || apply elem_of_cons in Hin as [Hin|Hin]);
        try discriminate; by apply elem_of_nil in Hin.
    + cbn [snd]. intros Hin.
      apply elem_of_app in Hin as [Hin|Hin]; [by apply renderCommandLine_quiet in Hin|].
      apply list_elem_of_singleton in Hin. injection Hin as ->. by exists command, rest.
  - unfold flashError, flashMessage. cbn [snd]. intros Hin.
    apply list_elem_of_singleton in Hin. discriminate.
Qed.

(** A handler is the one of return, under that name, or lets nothing out. *)
Lemma handlerFor_quiet stringKey input h :
  handlerFor pickCommand processCliArgs suggest stringKey input = Some h ->
  (stringKey = "return"%string ∧ h = (fun s => ran (handleReturn' s))) ∨ quiet h.
Proof.
  unfold handlerFor. intros H.
  destruct stringKey as [|c [|c' rest]].
  2: { destruct (isInputChar c); [|discriminate]. injection H as <-.
       right. apply characterHandler_quiet. }
  all: repeat match type of H with
         | context [if String.eqb ?a ?b then _ else _] =>
             destruct (String.eqb_spec a b)
         end;
    try discriminate; injection H as <-;
    first [ by left
          | right;
            match goal with
            | |- quiet ?h =>
                apply (proj1 (Forall_forall quiet _) handlers_quiet h); set_solver
            end ].
Qed.

(** What one key stroke lets out. *)
Lemma keyStroke_throws input key s msg :
  Threw msg ∈ eventsOf (keyStroke' input key s) ->
  stringKeyOf input key = "return"%string
  ∧ ∃ command rest,
      pickCommand (Js.splitSpace (currentCommand s)) = Some (command, rest)
      ∧ processCliArgs command (Js.splitSpace (currentCommand s)) rest = Err msg.
Proof.
  unfold keyStroke.
  destruct (enabled s); cbn [negb]; [|by intros ?%elem_of_nil].
  destruct (handlerFor _ _ _ _ _) as [h|] eqn:Hh.
  - apply handlerFor_quiet in Hh as [[Hname ->]|Hquiet].
    + intros Hin. split; [exact Hname|]. by apply handleReturn_throws.
    + intros Hin. by destruct (Hquiet s msg).
  - case_match; by intros ?%elem_of_nil.
Qed.

(** A handler set by [init] is never a member that [keyHandlers]
    inherits. *)
Lemma handlerFor_own stringKey input h s member :
  handlerFor pickCommand processCliArgs suggest stringKey input = Some h ->
  h s ≠ CalledInherited member.
Proof.
  unfold handlerFor. intros H.
  destruct stringKey as [|c [|c' rest]].
  2: { destruct (isInputChar c); [|discriminate]. by injection H as <-. }
  all: repeat match type of H with
         | context [if String.eqb ?a ?b then _ else _] =>
             destruct (String.eqb_spec a b)
         end;
    try discriminate; injection H as <-;
    unfold backspace, deleteForward, leftArrow, rightArrow, toStart, toEnd, tabKey,
      upArrow, downArrow, clearBack, clearLine, rendered, ran;
    repeat case_match; discriminate.
Qed.

(** Only a name without a handler reaches an inherited member. *)
Lemma keyStroke_inherited input key s member :
  keyStroke' input key s = CalledInherited member ->
  stringKeyOf input key = member
  ∧ member ∈ inheritedMembers
  ∧ handlerFor pickCommand processCliArgs suggest member input = None.
Proof.
  unfold keyStroke.
  destruct (enabled s); cbn [negb]; [|discriminate].
  destruct (handlerFor _ _ _ _ _) as [h|] eqn:Hh.
  - intros Hcall. by destruct (handlerFor_own _ _ _ s member Hh).
  - destruct (existsb _ inheritedMembers) eqn:Hex; [|discriminate].
    intros [= <-]. split; [done|]. split; [|exact Hh].
    apply existsb_exists in Hex as (m & Hin & ->%String.eqb_eq).
    by apply list_elem_of_In.
Qed.

(** X1. From a state within bounds (the constructor's state is one), every
    sequence of key strokes runs to a state within bounds: the cursor is
    inside the buffer or at its end, the history index is at most the
    length of the history, and the suggestion index is at least -1.  So at
    the next key stroke, whatever it is, [upArrow], [downArrow] and [tab]
    find the entry they read, and the only exception a handler set by
    [init] lets out is the one that [parseCliArgs] or [processCliArgs]
    throws in the return handler, for a line that names a command.  That
    exception leaves [keyStroke], which has no [try]; the history and the
    buffer are then as the return handler had set them before it parsed the
    arguments.  A key with no handler reaches a member that [keyHandlers]
    inherits only when its name is the name of that member. *)
Theorem key_strokes_keep_bounds keys s :
  wellFormed s ->
  ∃ s',
    keyStrokes pickCommand processCliArgs suggest keys s = Some s'
    ∧ wellFormed s'
    ∧ ∀ input key,
        keyStroke pickCommand processCliArgs suggest input key s' ≠ Crashed
        ∧ (∀ msg,
            Threw msg ∈ eventsOf (keyStroke pickCommand processCliArgs suggest input key s') ->
            stringKeyOf input key = "return"%string
            ∧ ∃ command rest,
                pickCommand (Js.splitSpace (currentCommand s')) = Some (command, rest)
                ∧ processCliArgs command (Js.splitSpace (currentCommand s')) rest = Err msg)
        ∧ ∀ member,
            keyStroke pickCommand processCliArgs suggest input key s' = CalledInherited member ->
            stringKeyOf input key = member
            ∧ member ∈ inheritedMembers
            ∧ handlerFor pickCommand processCliArgs suggest member input = None.
Proof.
  intros Hwf.
  assert (Hrun : ∃ s', keyStrokes' keys s = Some s' ∧ wellFormed s').
  { revert s Hwf. induction keys as [|[input key] keys IH]; intros s Hwf; simpl.
    - by exists s.
    - destruct (keyStroke_step input key s Hwf) as (s1 & -> & Hwf1 & _). by apply IH. }
  destruct Hrun as (s' & Hs' & Hwf').
  exists s'. split; [exact Hs'|]. split; [exact Hwf'|].
  intros input key. split.
  - destruct (keyStroke_step input key s' Hwf') as (s1 & Hstep & _).
    intros Hcrash. rewrite Hcrash in Hstep. discriminate.
  - split; [intros msg; apply keyStroke_throws|].
    intros member. apply keyStroke_inherited.
Qed.

(** X2. The history never holds a line twice and never holds a blank line:
    from a state within bounds whose history is clean, it is clean after
    any sequence of key strokes. *)
Theorem key_strokes_keep_history_clean keys s :
  wellFormed s ->
  cleanHistory s ->
  ∃ s', keyStrokes' keys s = Some s' ∧ cleanHistory s'.
Proof.
  revert s. induction keys as [|[input key] keys IH]; intros s Hwf [Hnd Hall]; simpl.
  - by exists s.
  - destruct (keyStroke_step input key s Hwf) as (s1 & -> & Hwf1 & Hhist).
    apply IH; [done|]. unfold cleanHistory.
    destruct Hhist as [->|[Hblank ->]]; [done|].
    by apply pushHistory_clean.
Qed.

(** X3. Once disabled, the editor ignores every key: no state change and
    nothing rendered, whatever the keys. *)
Theorem disabled_editor_ignores_keys :
  ∀ keys s input key,
    keyStroke' input key (disable s) = Ignored
    ∧ keyStrokes' keys (disable s) = Some (disable s).
Proof.
  intros keys s input key. split; [reflexivity|].
  induction keys as [|[i k] keys IH]; simpl; [reflexivity | exact IH].
Qed.

Lemma substring_0_all n s :
  String.length s ≤ n -> String.substring 0 n s = s.
Proof.
  revert s. induction n as [|n IH]; intros [|c s] Hn; simpl in *; try reflexivity; try lia.
  f_equal. apply IH. lia.
Qed.

Lemma substring_0_app a x : String.substring 0 (String.length a) (a ++ x)%string = a.
Proof.
  induction a as [|c a IH]; [by destruct x|].
  rewrite append_cons. simpl. by rewrite IH.
Qed.

Lemma substring_skip_app a x n m :
  String.substring (String.length a + n) m (a ++ x)%string = String.substring n m x.
Proof.
  induction a as [|c a IH]; [by rewrite append_nil_l|].
  rewrite append_cons. simpl. exact IH.
Qed.

(** A plain character key goes to the character handler. *)
Lemma keyStroke_char c s :
  enabled s = true -> isInputChar c = true ->
  keyStroke' (String c EmptyString) plainKey s
  = ran (characterHandler s (String c EmptyString)).
Proof.
  intros Hen Hc. unfold keyStroke, stringKeyOf. rewrite Hen.
  assert (H1 : String.eqb (String c EmptyString) "[1~" = false)
    by (apply String.eqb_neq; intros [=]).
  assert (H4 : String.eqb (String c EmptyString) "[4~" = false)
    by (apply String.eqb_neq; intros [=]).
  rewrite H1, H4. cbn [negb plainKey keyCtrl keyTab keyDelete keyMeta andb].
  change (List.find snd (directInputKeys plainKey)) with (@None (string * bool)).
  cbv beta iota. unfold handlerFor. by rewrite Hc.
Qed.

Lemma keyStroke_backspace s :
  enabled s = true -> keyStroke' "" (snd backspacePress) s = backspace s.
Proof. intros Hen. unfold keyStroke. by rewrite Hen. Qed.

(** X4. Typing a character and pressing backspace gives the buffer and the
    cursor back, wherever the cursor is in the buffer. *)
Theorem type_then_backspace_restores c s :
  enabled s = true ->
  cursorPosition s ≤ String.length (currentCommand s) ->
  isInputChar c = true ->
  ∃ s', keyStrokes' [charPress c; backspacePress] s = Some s'
        ∧ currentCommand s' = currentCommand s
        ∧ cursorPosition s' = cursorPosition s
        ∧ commandHistory s' = commandHistory s
        ∧ historyIndex s' = historyIndex s.
Proof.
  intros Hen Hcur Hc. unfold keyStrokes, charPress.
  rewrite (keyStroke_char c s Hen Hc).
  cbn [stateAfter ran fst snd characterHandler backspacePress].
  rewrite keyStroke_backspace by done.
  unfold backspace.
  cbn [moveCursor withBuffer cursorPosition currentCommand].
  destruct (Nat.ltb_spec 0 (cursorPosition s + 1)) as [_|?]; [|lia].
  eexists. split; [reflexivity|].
  cbn [rendered moveCursor withBuffer cursorPosition currentCommand commandHistory
       historyIndex].
  split; [|split; [lia | done]].
  set (a := String.substring 0 (cursorPosition s) (currentCommand s)).
  set (b := String.substring (cursorPosition s) (String.length (currentCommand s))
              (currentCommand s)).
  assert (Ha : String.length a = cursorPosition s).
  { subst a. rewrite substring_length. lia. }
  replace (cursorPosition s + 1 - 1) with (String.length a) by lia.
  rewrite substring_0_app.
  unfold substringFrom.
  replace (cursorPosition s + 1) with (String.length a + 1) by lia.
  rewrite substring_skip_app. rewrite append_cons, append_nil_l.
  cbn [String.substring].
  assert (Hb : String.substring 0
                 (String.length (a ++ String c b)%string) b = b).
  { apply substring_0_all. rewrite string_length_app. simpl. lia. }
  rewrite Hb. apply substring_glue. lia.
Qed.

Lemma keyStrokes_app keys1 keys2 s :
  keyStrokes' (keys1 ++ keys2) s
  = match keyStrokes' keys1 s with
    | Some s' => keyStrokes' keys2 s'
    | None => None
    end.
Proof.
  revert s. induction keys1 as [|[input key] keys1 IH]; intros s; simpl; [reflexivity|].
  destruct (stateAfter s _); [apply IH | reflexivity].
Qed.

Lemma keyStrokes_tab s rest :
  enabled s = true ->
  keyStrokes' (tabPress :: rest) s
  = match stateAfter s (tabKey suggest s) with
    | Some s' => keyStrokes' rest s'
    | None => None
    end.
Proof. intros Hen. unfold tabPress. cbn [keyStrokes]. unfold keyStroke. by rewrite Hen. Qed.

Lemma tabKey_next from typed suggestions i s :
  0 < from ->
  String.length typed = from ->
  suggest typed = suggestions ->
  Forall (fun line => String.substring 0 from line = typed) suggestions ->
  completing from suggestions i s ->
  ∃ s', tabKey suggest s = Ran s' (renderCommandLine s')
        ∧ completing from suggestions (S i mod length suggestions) s'
        ∧ commandHistory s' = commandHistory s.
Proof.
  intros Hfrom Htyped Hsug Hext (Hen & Hline & Hidx & Hauto & Hcur).
  assert (Hi : i < length suggestions) by (by eapply lookup_lt_Some).
  assert (Hpre : String.substring 0 from (currentCommand s) = typed).
  { apply (proj1 (Forall_forall _ _) Hext). by eapply list_elem_of_lookup_2. }
  assert (Hlen : from ≤ String.length (currentCommand s)).
  { rewrite <- Htyped, <- Hpre, substring_length. lia. }
  unfold tabKey.
  destruct (Nat.eqb_spec (cursorPosition s) 0) as [?|_]; [lia|].
  unfold getSuggestions, completingFrom. rewrite Hauto.
  destruct (Z.ltb_spec (-1) (Z.of_nat from)) as [_|?]; [|lia].
  rewrite Nat2Z.id.
  destruct (Nat.eqb_spec from 0) as [?|_]; [lia|].
  rewrite Hpre, Hsug.
  destruct suggestions as [|line0 lines] eqn:Hs; [simpl in Hi; lia|].
  rewrite <- Hs in *. rewrite Hidx.
  set (index := if (Z.of_nat (length suggestions) <=? Z.of_nat i + 1)%Z
                then 0%Z else (Z.of_nat i + 1)%Z).
  assert (Hindex : index = Z.of_nat (S i mod length suggestions)).
  { subst index.
    destruct (Z.leb_spec (Z.of_nat (length suggestions)) (Z.of_nat i + 1)).
    - assert (S i = length suggestions) as -> by lia. by rewrite Nat.Div0.mod_same.
    - rewrite Nat.mod_small by lia. lia. }
  rewrite Hindex.
  destruct (Z.ltb_spec (Z.of_nat (S i mod length suggestions)) 0) as [?|_]; [lia|].
  rewrite Nat2Z.id.
  destruct (lookup_lt_is_Some_2 suggestions (S i mod length suggestions)) as [line Hl].
  { apply Nat.mod_upper_bound. lia. }
  rewrite Hl.
  destruct (Z.eqb_spec (Z.of_nat from) (-1)) as [?|_]; [lia|].
  eexists. split; [reflexivity|]. by repeat split.
Qed.

(** X5. Completion cycles: with the cursor after a non-empty typed text,
    no completion under way, and [k > 0] suggestions for the text that all
    start with it, the tab key pressed [n + 1] times leaves the buffer on
    suggestion [n mod k], the cursor at its end, and the start of the
    completion on the original cursor position; after [k] more presses the
    editor is on the same suggestion again. *)
Theorem tab_cycles_through_suggestions s suggestions n :
  enabled s = true ->
  0 < cursorPosition s ->
  cursorPosition s ≤ String.length (currentCommand s) ->
  autocompletingFrom s = (-1)%Z ->
  suggestionIndex s = (-1)%Z ->
  suggest (String.substring 0 (cursorPosition s) (currentCommand s)) = suggestions ->
  suggestions ≠ [] ->
  Forall (fun line => String.substring 0 (cursorPosition s) line
                      = String.substring 0 (cursorPosition s) (currentCommand s))
         suggestions ->
  ∃ s', keyStrokes' (repeat tabPress (S n)) s = Some s'
        ∧ suggestions !! (n mod length suggestions) = Some (currentCommand s')
        ∧ suggestionIndex s' = Z.of_nat (n mod length suggestions)
        ∧ cursorPosition s' = String.length (currentCommand s')
        ∧ autocompletingFrom s' = Z.of_nat (cursorPosition s)
        ∧ commandHistory s' = commandHistory s.
Proof.
  intros Hen Hpos Hcur Hauto Hidx Hsug Hne Hext.
  assert (Htyped : String.length (String.substring 0 (cursorPosition s) (currentCommand s))
                   = cursorPosition s).
  { rewrite substring_length. lia. }
  assert (Hk : 0 < length suggestions) by (destruct suggestions; simpl; [done | lia]).
  assert (Hgoal : ∃ s', keyStrokes' (repeat tabPress (S n)) s = Some s'
                        ∧ completing (cursorPosition s) suggestions
                            (n mod length suggestions) s'
                        ∧ commandHistory s' = commandHistory s).
  { induction n as [|n IH].
    - rewrite Nat.Div0.mod_0_l.
      cbn [repeat]. rewrite (keyStrokes_tab s [] Hen).
      unfold tabKey.
      destruct (Nat.eqb_spec (cursorPosition s) 0) as [?|_]; [lia|].
      unfold getSuggestions, completingFrom. rewrite Hauto.
      change (Z.ltb (-1) (-1)) with false. cbv iota.
      destruct (Nat.eqb_spec (cursorPosition s) 0) as [?|_]; [lia|].
      rewrite Hsug.
      destruct suggestions as [|line0 lines] eqn:Hs; [done|].
      rewrite Hidx.
      change (-1 + 1)%Z with 0%Z.
      change (Z.of_nat (length (line0 :: lines)) <=? 0)%Z with false. cbv iota.
      change (0 <? 0)%Z with false. cbv iota.
      change (Z.to_nat 0) with 0. cbn [lookup list_lookup].
      change (-1 =? -1)%Z with true. cbv iota.
      eexists. split; [reflexivity|]. split; [|reflexivity].
      unfold completing.
      cbn [enabled currentCommand suggestionIndex autocompletingFrom cursorPosition
           setCursor setSuggestion withBuffer].
      repeat split; try done.
    - destruct IH as (s1 & Hrun & Hinv & Hhist).
      change (repeat tabPress (S (S n))) with (tabPress :: repeat tabPress (S n)).
      rewrite (List.repeat_cons (S n) tabPress).
      rewrite keyStrokes_app, Hrun.
      destruct (tabKey_next (cursorPosition s) _ suggestions _ s1 Hpos Htyped Hsug Hext Hinv)
        as (s2 & Htab & Hinv2 & Hhist2).
      rewrite (keyStrokes_tab s1 [] (proj1 Hinv)), Htab.
      cbn [stateAfter keyStrokes].
      exists s2. split; [reflexivity|]. split; [|congruence].
      replace (S n mod length suggestions)
        with (S (n mod length suggestions) mod length suggestions); [exact Hinv2|].
      rewrite <- (Nat.add_1_r n), <- (Nat.add_1_r (n mod length suggestions)).
      apply Nat.Div0.add_mod_idemp_l. }
  destruct Hgoal as (s' & Hrun & (Hen' & Hline & Hidx' & Hauto' & Hcur') & Hhist).
  exists s'. split; [exact Hrun|]. split; [exact Hline|]. split; [exact Hidx'|].
  split; [exact Hcur'|]. split; [exact Hauto' | exact Hhist].
Qed.

Lemma keyStrokes_return s rest :
  enabled s = true ->
  keyStrokes' (returnPress :: rest) s = keyStrokes' rest (fst (handleReturn' s)).
Proof. intros Hen. unfold returnPress. cbn [keyStrokes]. unfold keyStroke. by rewrite Hen. Qed.

Lemma keyStrokes_up s rest :
  enabled s = true ->
  keyStrokes' (upPress :: rest) s
  = match stateAfter s (upArrow s) with
    | Some s' => keyStrokes' rest s'
    | None => None
    end.
Proof. intros Hen. unfold upPress. cbn [keyStrokes]. unfold keyStroke. by rewrite Hen. Qed.

(** X6. After return on a line that names a command, the up arrow brings
    the line back: the buffer is the submitted line again, the cursor is at
    its end, and the history index points at the last entry of the history,
    which is that line. *)
Theorem up_arrow_recalls_submitted_line s command rest :
  enabled s = true ->
  Js.trim (currentCommand s) ≠ ""%string ->
  pickCommand (Js.splitSpace (currentCommand s)) = Some (command, rest) ->
  ∃ s', keyStrokes' [returnPress; upPress] s = Some s'
        ∧ currentCommand s' = currentCommand s
        ∧ cursorPosition s' = String.length (currentCommand s)
        ∧ commandHistory s' = pushHistory (commandHistory s) (currentCommand s)
        ∧ commandHistory s' !! historyIndex s' = Some (currentCommand s)
        ∧ S (historyIndex s') = length (commandHistory s').
Proof.
  intros Hen Hblank Hpick.
  destruct (handleReturn_matched pickCommand processCliArgs s command rest Hblank Hpick)
    as (Hhist & Hidx & _ & _ & Hen').
  rewrite (keyStrokes_return s _ Hen).
  set (s1 := fst (handleReturn' s)) in *.
  rewrite (keyStrokes_up s1 []) by congruence.
  assert (Hlen : length (commandHistory s1)
                 = S (length (List.filter (fun cmd => negb (String.eqb cmd (currentCommand s)))
                                          (commandHistory s)))).
  { rewrite Hhist. unfold pushHistory. rewrite length_app. simpl. lia. }
  assert (Hlast : commandHistory s1 !! (historyIndex s1 - 1) = Some (currentCommand s)).
  { rewrite Hidx, Hlen, Hhist. unfold pushHistory.
    apply list_lookup_middle. lia. }
  unfold upArrow.
  destruct (Nat.ltb_spec 0 (historyIndex s1)) as [_|?]; [|lia].
  rewrite Hlast.
  eexists. split; [reflexivity|].
  cbn [currentCommand cursorPosition commandHistory historyIndex moveCursor withBuffer
       setHistoryIndex withHistory].
  split; [done|]. split; [done|]. split; [done|]. split; [done | lia].
Qed.

End EditorFacts.

(** X1 from the constructor's state: a character, tab, up, return. *)
Lemma key_strokes_keep_bounds_witness :
  Editor.wellFormed CommandLine.initialState
  ∧ ∃ s', Editor.keyStrokes Samples.pickSample Samples.acceptArgs MoreSamples.suggestBuild
            [Editor.charPress "b"; Editor.tabPress; Editor.upPress; Editor.returnPress]
            CommandLine.initialState = Some s'
          ∧ Editor.wellFormed s'
          ∧ Editor.keyStroke Samples.pickSample Samples.acceptArgs MoreSamples.suggestBuild
              "" Editor.upPress.2 s' ≠ Editor.Crashed.
Proof.
  assert (Hwf : Editor.wellFormed CommandLine.initialState).
  { repeat split; simpl; lia. }
  split; [exact Hwf|].
  destruct (key_strokes_keep_bounds Samples.pickSample Samples.acceptArgs
              MoreSamples.suggestBuild
              [Editor.charPress "b"; Editor.tabPress; Editor.upPress; Editor.returnPress]
              CommandLine.initialState Hwf) as (s' & Hrun & Hwf' & Hnext).
  exists s'. split; [exact Hrun|]. split; [exact Hwf'|].
  exact (proj1 (Hnext ""%string (Editor.upPress.2))).
Defined.

(** X2 from a history of two lines, submitting the first again. *)
Lemma key_strokes_keep_history_clean_witness :
  Editor.wellFormed MoreSamples.typedBuildApi
  ∧ Editor.cleanHistory MoreSamples.typedBuildApi
  ∧ ∃ s', Editor.keyStrokes Samples.pickSample Samples.acceptArgs MoreSamples.suggestBuild
            [Editor.returnPress; Editor.upPress; Editor.returnPress]
            MoreSamples.typedBuildApi = Some s'
          ∧ Editor.cleanHistory s'.
Proof.
  assert (Hwf : Editor.wellFormed MoreSamples.typedBuildApi).
  { repeat split; simpl; lia. }
  assert (Hclean : Editor.cleanHistory MoreSamples.typedBuildApi).
  { split.
    - apply NoDup_cons. split; [|apply NoDup_singleton].
      intros Hin. apply list_elem_of_singleton in Hin. discriminate Hin.
    - repeat constructor; discriminate. }
  split; [exact Hwf|]. split; [exact Hclean|].
  exact (key_strokes_keep_history_clean Samples.pickSample Samples.acceptArgs
           MoreSamples.suggestBuild _ MoreSamples.typedBuildApi Hwf Hclean).
Defined.

(** X4 in the middle of ["build api"]. *)
Lemma type_then_backspace_restores_witness :
  ∃ s', Editor.keyStrokes Samples.pickSample Samples.acceptArgs MoreSamples.suggestBuild
          [Editor.charPress "x"; Editor.backspacePress] MoreSamples.typedBuildApi = Some s'
        ∧ CommandLine.currentCommand s' = "build api"
        ∧ CommandLine.cursorPosition s' = 5
        ∧ CommandLine.commandHistory s' = ["build api"; "status"]
        ∧ CommandLine.historyIndex s' = 2.
Proof.
  apply (type_then_backspace_restores Samples.pickSample Samples.acceptArgs
           MoreSamples.suggestBuild "x" MoreSamples.typedBuildApi);
    [reflexivity | simpl; lia | reflexivity].
Defined.

(** X5 with three suggestions: the fourth press is on the first again. *)
Lemma tab_cycles_through_suggestions_witness :
  ∃ s', Editor.keyStrokes Samples.pickSample Samples.acceptArgs MoreSamples.suggestBuild
          (repeat Editor.tabPress 4) MoreSamples.typedBu = Some s'
        ∧ ["build"; "build api"; "build web"] !! (3 mod 3) = Some (CommandLine.currentCommand s')
        ∧ CommandLine.suggestionIndex s' = Z.of_nat (3 mod 3)
        ∧ CommandLine.cursorPosition s' = String.length (CommandLine.currentCommand s')
        ∧ CommandLine.autocompletingFrom s' = 2%Z
        ∧ CommandLine.commandHistory s' = [].
Proof.
  apply (tab_cycles_through_suggestions Samples.pickSample Samples.acceptArgs
           MoreSamples.suggestBuild MoreSamples.typedBu ["build"; "build api"; "build web"] 3);
    [reflexivity | simpl; lia | simpl; lia | reflexivity | reflexivity | reflexivity
    | discriminate | repeat constructor].
Defined.

(** X6 on ["build api"]. *)
Lemma up_arrow_recalls_submitted_line_witness :
  ∃ s', Editor.keyStrokes Samples.pickSample Samples.acceptArgs MoreSamples.suggestBuild
          [Editor.returnPress; Editor.upPress] MoreSamples.typedBuildApi = Some s'
        ∧ CommandLine.currentCommand s' = "build api"
        ∧ CommandLine.cursorPosition s' = 9
        ∧ CommandLine.commandHistory s' = ["status"; "build api"]
        ∧ CommandLine.commandHistory s' !! CommandLine.historyIndex s' = Some "build api"
        ∧ S (CommandLine.historyIndex s') = length (CommandLine.commandHistory s').
Proof.
  apply (up_arrow_recalls_submitted_line Samples.pickSample Samples.acceptArgs
           MoreSamples.suggestBuild MoreSamples.typedBuildApi Samples.buildCommand ["api"]);
    [reflexivity | discriminate | reflexivity].
Defined.

(** [trim] on white space of more than one byte: a no-break space, a
    byte order mark, a line separator. *)
Example trim_unicode_samples :
  Js.trim (String (ascii_of_nat 194) (String (ascii_of_nat 160) "hello")
             ++ String (ascii_of_nat 194) (String (ascii_of_nat 160) ""))%string
  = "hello"%string
  ∧ Js.trim ("hello " ++ String (ascii_of_nat 239) (String (ascii_of_nat 187)
                           (String (ascii_of_nat 191) "")))%string
    = "hello"%string
  ∧ Js.trim (String (ascii_of_nat 226) (String (ascii_of_nat 128)
               (String (ascii_of_nat 168) " a b ")))%string
    = "a b"%string
  ∧ Js.trim (String (ascii_of_nat 195) (String (ascii_of_nat 160) " la "))
    = String (ascii_of_nat 195) (String (ascii_of_nat 160) " la").
Proof. repeat split. Qed.

(** ** More on the graph builder *)

Section BuilderFacts.

Import Modes.

Variable actionReferenceToString : string -> string -> string.
Variable describeActionConfigWithPath : ActionConfig -> string -> string.
Variable projectRoot : string.
Variable minimatch : string -> string -> bool.
Variable actionFromConfig : ActionConfig -> ActionMode -> Result GardenError Action.

Local Abbreviation key := (configKey actionReferenceToString).
Local Abbreviation addConfigs' :=
  (addConfigs actionReferenceToString describeActionConfigWithPath projectRoot).
Local Abbreviation registerConfigs' :=
  (registerConfigs actionReferenceToString describeActionConfigWithPath projectRoot).

Local Abbreviation selects := (Builder.selects minimatch).

Lemma firstMatch_NoMatch key patterns :
  firstMatch minimatch key patterns = NoMatch
  <-> ∀ p, p ∈ patterns -> ¬ selects key p.
Proof.
  unfold Builder.selects. induction patterns as [|p patterns IH]; simpl.
  - split; [by intros _ p ?%elem_of_nil | done].
  - destruct (String.eqb_spec key p) as [->|Hne].
    + split; [done|]. intros H. destruct (H p); [apply elem_of_cons|]; by left.
    + destruct (minimatch key p) eqn:Hm.
      * split; [done|]. intros H. destruct (H p); [apply elem_of_cons; by left | by right].
      * rewrite IH. split.
        -- intros H q [->|Hq]%elem_of_cons; [|by apply H].
           intros [?|?]; congruence.
        -- intros H q Hq. apply H, elem_of_cons. by right.
Qed.

Lemma applyModePatterns_mode target key patterns st :
  mode (applyModePatterns minimatch target key patterns st)
  = match firstMatch minimatch key patterns with
    | NoMatch => mode st
    | _ => target
    end.
Proof.
  rewrite applyModePatterns_firstMatch.
  by destruct (firstMatch minimatch key patterns).
Qed.

(** X7. Local mode takes precedence over sync mode, whatever the order in
    which the patterns were given: a key selected by some local pattern
    (exactly or by a glob) gets local mode even if a sync pattern selects it
    too; a key selected by no local pattern and by some sync pattern gets
    sync mode; a key selected by no pattern keeps the default mode, with
    nothing logged and the explicit flag down. *)
Theorem local_mode_takes_precedence actionModes key :
  let locals := default [] (local actionModes) in
  let syncs := default [] (sync actionModes) in
  ((∃ p, p ∈ locals ∧ selects key p) ->
     mode (resolveMode minimatch actionModes key) = ModeLocal)
  ∧ ((∀ p, p ∈ locals -> ¬ selects key p) -> (∃ p, p ∈ syncs ∧ selects key p) ->
     mode (resolveMode minimatch actionModes key) = ModeSync)
  ∧ ((∀ p, p ∈ locals -> ¬ selects key p) -> (∀ p, p ∈ syncs -> ¬ selects key p) ->
     resolveMode minimatch actionModes key = initialModeState).
Proof.
  intros locals syncs. unfold resolveMode. fold locals syncs.
  split; [|split].
  - intros (p & Hin & Hsel). rewrite applyModePatterns_mode.
    destruct (firstMatch minimatch key locals) eqn:Hf; try done.
    rewrite firstMatch_NoMatch in Hf. by destruct (Hf p Hin).
  - intros Hno (p & Hin & Hsel). rewrite !applyModePatterns_mode.
    pose proof Hno as Hno'. rewrite <- firstMatch_NoMatch in Hno'. rewrite Hno'.
    destruct (firstMatch minimatch key syncs) eqn:Hf; try done.
    rewrite firstMatch_NoMatch in Hf. by destruct (Hf p Hin).
  - intros Hl Hs. rewrite <- firstMatch_NoMatch in Hl, Hs.
    rewrite (applyModePatterns_firstMatch minimatch ModeLocal), Hl.
    by rewrite (applyModePatterns_firstMatch minimatch ModeSync), Hs.
Qed.

(** X8. An action that does not support its mode is still added: the entry
    gives the action exactly when [actionFromConfig] gives it, with at most
    one warning on top of the mode messages; and an error of
    [actionFromConfig] comes back as a [ConfigurationError] for the config,
    with the message of the error inside it. *)
Theorem unsupported_mode_never_fails actionModes key config :
  let st := resolveMode minimatch actionModes key in
  match actionFromConfig config (mode st) with
  | Ok action =>
      snd (processEntry minimatch actionFromConfig actionModes key config) = Ok action
      ∧ ∃ warnings,
          fst (processEntry minimatch actionFromConfig actionModes key config)
          = logged st ++ warnings
          ∧ length warnings ≤ 1
  | Err error =>
      ∃ e, snd (processEntry minimatch actionFromConfig actionModes key config) = Err e
           ∧ errType e = ConfigurationError
           ∧ detailConfigs e = [config]
           ∧ includesStr (message error) (message e) = true
           ∧ includesStr (kind config) (message e) = true
           ∧ includesStr (name config) (message e) = true
           ∧ fst (processEntry minimatch actionFromConfig actionModes key config) = logged st
  end.
Proof.
  intros st. unfold processEntry. fold st.
  destruct (actionFromConfig config (mode st)) as [action|error]; simpl.
  - split; [done|]. eexists. split; [reflexivity|].
    destruct (supportsMode action (mode st)), (explicitMode st); simpl; lia.
  - eexists. split; [reflexivity|]. cbn [fst snd errType detailConfigs message].
    unfold processingErrorMessage.
    split; [done|]. split; [done|]. split; [|split; [|split; [|done]]].
    + do 7 apply includesStr_skip. apply includesStr_prefix.
      rewrite <- (string_app_nil_r (message error)) at 2. apply prefix_app.
    + do 2 apply includesStr_skip. apply includesStr_prefix, prefix_app.
    + do 4 apply includesStr_skip. apply includesStr_prefix, prefix_app.
Qed.

(** A pass over configs of known kinds with fresh, distinct keys succeeds. *)
Lemma addConfigs_distinct reg l :
  (∀ k a, reg !! k = Some a -> key a = k) ->
  Forall knownKind l ->
  NoDup (key <$> l) ->
  (∀ c, c ∈ l -> reg !! key c = None) ->
  ∃ reg', addConfigs' reg l = Ok reg'.
Proof.
  intros Hwf Hknown Hnd Hfresh.
  destruct (addConfigs' reg l) as [reg'|e] eqn:Hrun; [by exists reg'|].
  apply addConfigs_err in Hrun
    as (pre & a & b & post & -> & _ & Hab & Hsrc & _ & _); [|done|done].
  exfalso. destruct Hsrc as [Hsrc|Hin].
  - rewrite Hfresh in Hsrc; [done|]. apply elem_of_app. right. apply elem_of_cons. by left.
  - rewrite fmap_app, fmap_cons in Hnd. apply NoDup_app in Hnd as (_ & Hdisj & _).
    apply (Hdisj (key a)).
    + apply list_elem_of_fmap. by exists a.
    + rewrite Hab. apply elem_of_cons. by left.
Qed.

(** X9. When the configs handed to the graph construction have known kinds
    and pairwise distinct keys, the registration succeeds, and the registry
    holds exactly these configs, each under its own key (the group-nested
    ones with their group's name and config file path). *)
Theorem distinct_configs_are_all_registered configs groups :
  Forall knownKind (allConfigs configs groups) ->
  NoDup (key <$> allConfigs configs groups) ->
  ∃ reg,
    registerConfigs' configs groups = Ok reg
    ∧ (∀ c, c ∈ allConfigs configs groups -> reg !! key c = Some c)
    ∧ (∀ k c, reg !! k = Some c -> c ∈ allConfigs configs groups ∧ key c = k).
Proof.
  intros Hknown Hnd. rewrite registerConfigs_all.
  destruct (addConfigs_distinct ∅ (allConfigs configs groups)) as [reg Hrun];
    [by intros k a; rewrite lookup_empty | done | done | by intros; apply lookup_empty |].
  exists reg. split; [done|].
  apply addConfigs_ok in Hrun as (_ & _ & Hlook).
  split.
  - intros c Hc. rewrite Hlook.
    destruct (list_find (fun c' => key c' = key c) (allConfigs configs groups))
      as [[i c']|] eqn:Hf.
    + apply list_find_Some in Hf as (Hi & Hk & _). f_equal.
      apply (NoDup_fmap_eq key (allConfigs configs groups)); try done.
      by eapply list_elem_of_lookup_2.
    + apply list_find_None in Hf. rewrite Forall_forall in Hf. by destruct (Hf c Hc).
  - intros k c. rewrite Hlook.
    destruct (list_find (fun c' => key c' = k) (allConfigs configs groups))
      as [[i c']|] eqn:Hf; [|by rewrite lookup_empty].
    intros [= <-]. apply list_find_Some in Hf as (Hi & Hk & _).
    split; [by eapply list_elem_of_lookup_2 | done].
Qed.

(** X10. A config whose kind is not one of the four action kinds stops the
    registration with "Unknown action kind", when the configs before it are
    in order; the check comes before the look-up of its key. *)
Theorem unknown_kind_is_rejected configs groups pre c post :
  allConfigs configs groups = pre ++ c :: post ->
  Forall knownKind pre ->
  NoDup (key <$> pre) ->
  ¬ knownKind c ->
  registerConfigs' configs groups = Err (unknownKindError c)
  ∧ message (unknownKindError c) = ("Unknown action kind: " ++ kind c)%string.
Proof.
  intros Hall Hknown Hnd Hc. split; [|reflexivity].
  rewrite registerConfigs_all, Hall, addConfigs_app.
  destruct (addConfigs_distinct ∅ pre) as [reg ->];
    [by intros k a; rewrite lookup_empty | done | done | by intros; apply lookup_empty |].
  cbn [bindR addConfigs]. unfold addConfig.
  destruct (existsb (String.eqb (kind c)) actionKinds) eqn:Hex; [|done].
  exfalso. apply Hc. apply existsb_exists in Hex as (k & Hin & Hk%String.eqb_eq).
  unfold knownKind. rewrite Hk. by apply list_elem_of_In.
Qed.

End BuilderFacts.

Lemma local_mode_takes_precedence_witness :
  Modes.mode (Modes.resolveMode Modes.globMatch MoreSamples.syncTwoLocalWildcard "deploy.api")
  = ModeLocal.
Proof.
  apply (local_mode_takes_precedence Modes.globMatch MoreSamples.syncTwoLocalWildcard
           "deploy.api").
  exists "deploy.*". split; [constructor | right; reflexivity].
Defined.

Lemma distinct_configs_are_all_registered_witness :
  ∃ reg,
    registerConfigs Samples.keyOf Samples.describeWithPath "/project"
      [Samples.apiBuild; Samples.apiDeploy] [MoreSamples.apiTests] = Ok reg
    ∧ (∀ c, c ∈ allConfigs [Samples.apiBuild; Samples.apiDeploy] [MoreSamples.apiTests] ->
         reg !! configKey Samples.keyOf c = Some c)
    ∧ (∀ k c, reg !! k = Some c ->
         c ∈ allConfigs [Samples.apiBuild; Samples.apiDeploy] [MoreSamples.apiTests]
         ∧ configKey Samples.keyOf c = k).
Proof.
  apply (distinct_configs_are_all_registered Samples.keyOf Samples.describeWithPath "/project").
  - repeat constructor.
  - apply (bool_decide_unpack _). vm_compute. reflexivity.
Defined.

Lemma unknown_kind_is_rejected_witness :
  registerConfigs Samples.keyOf Samples.describeWithPath "/project"
    [Samples.apiBuild; MoreSamples.legacyService; Samples.apiDeploy] []
  = Err (unknownKindError MoreSamples.legacyService)
  ∧ message (unknownKindError MoreSamples.legacyService) = "Unknown action kind: Service"%string.
Proof.
  apply (unknown_kind_is_rejected Samples.keyOf Samples.describeWithPath "/project"
           [Samples.apiBuild; MoreSamples.legacyService; Samples.apiDeploy] []
           [Samples.apiBuild] MoreSamples.legacyService [Samples.apiDeploy]).
  - reflexivity.
  - repeat constructor.
  - apply (bool_decide_unpack _). vm_compute. reflexivity.
  - unfold knownKind. intros H. apply (bool_decide_pack _) in H. vm_compute in H. exact H.
Defined.

(** ** More on the dependencies of a config *)

Section DependencyMoreFacts.

Import Modes Deps.

Variable actionReferenceToString : string -> string -> string.
Variable describeActionConfig : ActionConfig -> string.
Variable parseActionReference : string -> Result string ActionReference.
Variable addActionDependency : ActionDependency -> list ActionDependency -> list ActionDependency.
Variable getActionTemplateReferences : ActionConfig -> list ActionTemplateReference.
Variable maybeTemplateString : string -> bool.
Variable resolveTemplateString : string -> Result string string.

Local Abbreviation explicitDeps' := (explicitDeps parseActionReference).
Local Abbreviation missingBuildError' := (missingBuildError describeActionConfig).
Local Abbreviation copyFromDeps' :=
  (copyFromDeps actionReferenceToString describeActionConfig addActionDependency).
Local Abbreviation templateDeps' :=
  (templateDeps describeActionConfig addActionDependency maybeTemplateString
     resolveTemplateString).
Local Abbreviation dependenciesFromActionConfig' :=
  (dependenciesFromActionConfig actionReferenceToString describeActionConfig
     parseActionReference addActionDependency getActionTemplateReferences
     maybeTemplateString resolveTemplateString).


Lemma copyFromDeps_missing config configsByKey pre c post deps :
  Forall (fun c' => is_Some (configsByKey !! actionReferenceToString "Build" (copyBuild c'))) pre ->
  configsByKey !! actionReferenceToString "Build" (copyBuild c) = None ->
  copyFromDeps' config configsByKey (pre ++ c :: post) deps
  = Err (missingBuildError' config (copyBuild c) "copyFrom").
Proof.
  intros Hpre Hc. revert deps.
  induction Hpre as [|c' pre [x Hx] _ IH]; intros deps; cbn [copyFromDeps app].
  - by rewrite Hc.
  - by rewrite Hx, IH.
Qed.

Lemma copyFromDeps_present config configsByKey cs deps :
  Forall (fun c' => is_Some (configsByKey !! actionReferenceToString "Build" (copyBuild c'))) cs ->
  copyFromDeps' config configsByKey cs deps
  = Ok (fold_left (fun acc c => addActionDependency (mkDep "Build" (copyBuild c) true false false) acc)
          cs deps).
Proof.
  intros Hcs. revert deps.
  induction Hcs as [|c' cs [x Hx] _ IH]; intros deps; cbn [copyFromDeps fold_left]; [done|].
  by rewrite Hx, IH.
Qed.

(** X12. A reference to a Build that is not among the configs is an error,
    and the only one after the [dependencies] field was read: for a runtime
    action with a [build] field the function fails exactly when the
    registry has no Build of that name; for a Build it fails at the first
    [copyFrom] entry whose Build is missing, and succeeds when there is
    none.  The error is a [ConfigurationError] that names the field. *)
Theorem missing_build_reference_is_an_error config configsByKey definition deps :
  explicitDeps' config (default [] (dependencies config)) = Ok deps ->
  (kind config ≠ "Build"%string ->
   ∀ b, build config = Some b -> b ≠ ""%string ->
     match configsByKey !! actionReferenceToString "Build" b with
     | None =>
         dependenciesFromActionConfig' config configsByKey definition
         = Err (missingBuildError' config b "build")
     | Some _ =>
         ∃ result, dependenciesFromActionConfig' config configsByKey definition = Ok result
     end)
  ∧ (kind config = "Build"%string ->
     (∀ pre c post,
        default [] (copyFrom config) = (pre ++ c :: post)%list ->
        Forall (fun c' => is_Some (configsByKey !! actionReferenceToString "Build" (copyBuild c')))
               pre ->
        configsByKey !! actionReferenceToString "Build" (copyBuild c) = None ->
        dependenciesFromActionConfig' config configsByKey definition
        = Err (missingBuildError' config (copyBuild c) "copyFrom"))
     ∧ (Forall (fun c' => is_Some (configsByKey !! actionReferenceToString "Build" (copyBuild c')))
               (default [] (copyFrom config)) ->
        ∃ result, dependenciesFromActionConfig' config configsByKey definition = Ok result))
  ∧ (∀ b field,
       errType (missingBuildError' config b field) = ConfigurationError
       ∧ includesStr field (message (missingBuildError' config b field)) = true).
Proof.
  intros Hdeps. unfold dependenciesFromActionConfig. rewrite Hdeps. cbn [bindR].
  split; [|split].
  3: { intros b field. split; [done|]. cbn [message missingBuildError].
       do 4 apply includesStr_skip. apply includesStr_prefix, prefix_app. }
  - intros Hkind b Hb Hne.
    destruct (String.eqb_spec (kind config) "Build") as [?|_]; [done|].
    rewrite Hb. destruct (String.eqb_spec b "") as [?|_]; [done|].
    destruct (configsByKey !! actionReferenceToString "Build" b); cbn [bindR]; [|done].
    by eexists.
  - intros Hkind. rewrite Hkind. cbn [String.eqb Ascii.eqb Bool.eqb]. split.
    + intros pre c post -> Hpre Hc.
      by rewrite (copyFromDeps_missing config configsByKey pre c post deps Hpre Hc).
    + intros Hall. rewrite (copyFromDeps_present config configsByKey _ deps Hall).
      cbn [bindR]. by eexists.
Qed.





End DependencyMoreFacts.


Lemma missing_build_reference_is_an_error_witness :
  Deps.dependenciesFromActionConfig Samples.keyOf (fun c => name c) MoreSamples.parseKindName
    Deps.addActionDependencyMerging Samples.referencesOf (fun _ => false) (fun n => Ok n)
    MoreSamples.workerDeploy Samples.sampleRegistry None
  = Err (Deps.missingBuildError (fun c => name c) MoreSamples.workerDeploy "worker" "build").
Proof.
  apply (proj1 (missing_build_reference_is_an_error Samples.keyOf (fun c => name c)
                  MoreSamples.parseKindName Deps.addActionDependencyMerging
                  Samples.referencesOf (fun _ => false) (fun n => Ok n)
                  MoreSamples.workerDeploy Samples.sampleRegistry None
                  [Deps.mkDep "Build" "api" true false false] eq_refl)
           ltac:(discriminate) "worker" eq_refl ltac:(discriminate)).
Defined.

(** ** The run-result store against a cluster *)

Section RunResultStoreFacts.

Import RunResults RunResultStore.

Variable Cluster : Type.
Variable readNamespacedConfigMap : Cluster -> string -> ReadOutcome.
Variable upsertConfigMap : Cluster -> ConfigMap Fields -> Result string unit * Cluster.
Variable deleteNamespacedConfigMap : Cluster -> string -> Result JsError unit * Cluster.
Variable runResultToActionState : JsValue -> string.
Variable gardenAnnotationKey : string -> string.
Variable trimRunOutput : Fields -> Fields.

Local Abbreviation getRunResult' :=
  (getRunResult Cluster readNamespacedConfigMap runResultToActionState).
Local Abbreviation storeRunResultIn' :=
  (storeRunResultIn Cluster upsertConfigMap gardenAnnotationKey trimRunOutput).
Local Abbreviation clearTaskResult' := (clearTaskResult Cluster deleteNamespacedConfigMap).

(** X14. Storing, reading and clearing address the same record.  On a
    cluster where a ConfigMap that was written is read back with its data,
    and a ConfigMap that was deleted (or was not there) is read as 404:
    a result stored without a warning is read back as the trimmed result,
    normalised by the read; after a clear that did not throw, the read
    reports "not-ready"; and a clear never throws a 404. *)
Theorem stored_result_is_read_back_until_cleared cluster ctx action :
  (∀ c record c',
     upsertConfigMap c record = (Ok tt, c') ->
     readNamespacedConfigMap c' (cmKey record) = Ok (data record)) ->
  (∀ c key outcome c',
     deleteNamespacedConfigMap c key = (outcome, c') ->
     (outcome = Ok tt ∨ ∃ err, outcome = Err err ∧ statusCode err = Some 404%Z) ->
     ∃ err, readNamespacedConfigMap c' key = Err err ∧ statusCode err = Some 404%Z) ->
  (∀ result warnings returned cluster',
     storeRunResultIn' cluster ctx action result = (warnings, returned, cluster') ->
     returned = trimRunOutput result
     ∧ (warnings = [] ->
        getRunResult' cluster' ctx action
        = k8sGetRunResult runResultToActionState (Ok (trimRunOutput result))))
  ∧ (∀ cluster',
       clearTaskResult' cluster ctx action = (Ok tt, cluster') ->
       getRunResult' cluster' ctx action
       = Ok {| state := "not-ready"; detail := None; outputs := None |})
  ∧ (∀ err cluster',
       clearTaskResult' cluster ctx action = (Err err, cluster') ->
       statusCode err ≠ Some 404%Z).
Proof.
  intros Hwrite Hdelete. split; [|split].
  - intros result warnings returned cluster'.
    unfold storeRunResultIn, storeRunResult.
    destruct (upsertConfigMap cluster
                (runResultConfigMap gardenAnnotationKey trimRunOutput ctx action result))
      as [[[]|msg] c1] eqn:Hup; cbn [fst snd]; intros [= <- <- <-].
    + split; [done|]. intros _. unfold getRunResult.
      pose proof (Hwrite _ _ _ Hup) as Hread.
      cbn [cmKey data runResultConfigMap] in Hread. by rewrite Hread.
    + split; [done|]. discriminate.
  - intros cluster'. unfold clearTaskResult, getRunResult.
    destruct (deleteNamespacedConfigMap cluster (getRunResultKey ctx action))
      as [[[]|err] c1] eqn:Hdel.
    + intros [= <-].
      destruct (Hdelete _ _ _ _ Hdel) as (e & -> & He); [by left|].
      unfold k8sGetRunResult. cbn [bindR]. by rewrite He, bool_decide_eq_true_2.
    + case_bool_decide as H404; [|done]. intros [= <-].
      destruct (Hdelete _ _ _ _ Hdel) as (e & -> & He); [right; by exists err|].
      unfold k8sGetRunResult. cbn [bindR]. by rewrite He, bool_decide_eq_true_2.
  - intros err cluster'. unfold clearTaskResult.
    destruct (deleteNamespacedConfigMap cluster (getRunResultKey ctx action))
      as [[[]|err'] c1]; [done|].
    case_bool_decide as H404; [done|]. by intros [= <- <-].
Qed.

End RunResultStoreFacts.

Lemma stored_result_is_read_back_until_cleared_witness :
  RunResults.detail <$>
    (let '(_, _, cluster') :=
       RunResultStore.storeRunResultIn RunResultStore.MemoryCluster RunResultStore.memoryUpsert
         Samples.annotationKey (fun fields => fields) ∅ Samples.projContext Samples.apiRun
         Samples.legacyRecord in
     match RunResultStore.getRunResult RunResultStore.MemoryCluster RunResultStore.memoryRead
             Samples.stateOfRecord cluster' Samples.projContext Samples.apiRun with
     | Ok r => Some r
     | Err _ => None
     end)
  = RunResults.detail <$>
      match RunResults.k8sGetRunResult Samples.stateOfRecord (Ok Samples.legacyRecord) with
      | Ok r => Some r
      | Err _ => None
      end.
Proof.
  destruct (stored_result_is_read_back_until_cleared RunResultStore.MemoryCluster
              RunResultStore.memoryRead RunResultStore.memoryUpsert RunResultStore.memoryDelete
              Samples.stateOfRecord Samples.annotationKey (fun fields => fields)
              ∅ Samples.projContext Samples.apiRun) as (Hstore & _ & _).
  - intros c record c' H. unfold RunResultStore.memoryUpsert in H. injection H as <-.
    unfold RunResultStore.memoryRead, RunResultStore.MemoryCluster in *.
    by rewrite lookup_insert_eq.
  - intros c key outcome c'.
    unfold RunResultStore.memoryDelete, RunResultStore.memoryRead,
      RunResultStore.MemoryCluster, RunResultStore.Fields in *.
    destruct (c !! key) eqn:Hc; intros [= <- <-] _.
    + rewrite lookup_delete_eq. by eexists.
    + rewrite Hc. by eexists.
  - destruct (RunResultStore.storeRunResultIn RunResultStore.MemoryCluster
                RunResultStore.memoryUpsert Samples.annotationKey (fun fields => fields) ∅
                Samples.projContext Samples.apiRun Samples.legacyRecord)
      as [[warnings returned] cluster'] eqn:Hrun.
    destruct (Hstore _ _ _ _ Hrun) as (_ & Hread).
    rewrite Hread; [reflexivity|].
    unfold RunResultStore.storeRunResultIn, RunResults.storeRunResult in Hrun.
    cbn [RunResultStore.memoryUpsert fst snd] in Hrun. by injection Hrun as <- _ _.
Defined.

(** ** Kubernetes manifests *)

Section ManifestFacts.

Import Kubernetes.

Variable getApiResourceInfo : string -> string -> option bool.
Variable gardenAnnotationKey : string -> string.

Local Abbreviation ensureNamespace' := (ensureNamespace getApiResourceInfo).
Local Abbreviation setAnnotations' := (setAnnotations gardenAnnotationKey).
Local Abbreviation prepareManifest' := (prepareManifest getApiResourceInfo gardenAnnotationKey).
Local Abbreviation getManifests' := (getManifests getApiResourceInfo gardenAnnotationKey).
Local Abbreviation prepared' := (prepared getApiResourceInfo gardenAnnotationKey).
Local Abbreviation metadataOf := (fun m => default emptyMetadata (metadata m)).

Lemma entry_assign_eq k v entries : entry k (assign k v entries) = Some v.
Proof.
  induction entries as [|[k' v'] entries IH]; cbn [assign entry].
  - by rewrite String.eqb_refl.
  - destruct (String.eqb k k') eqn:Hk; cbn [entry]; rewrite ?String.eqb_refl, ?Hk; done.
Qed.

Lemma entry_assign_ne k k' v entries : k' ≠ k -> entry k' (assign k v entries) = entry k' entries.
Proof.
  intros Hne. induction entries as [|[k0 v0] entries IH]; cbn [assign entry].
  - by destruct (String.eqb_spec k' k).
  - destruct (String.eqb_spec k k0) as [<-|Hk0]; cbn [entry].
    + by destruct (String.eqb_spec k' k).
    + by rewrite IH.
Qed.

Lemma assign_idem k v entries : assign k v (assign k v entries) = assign k v entries.
Proof.
  induction entries as [|[k' v'] entries IH]; cbn [assign].
  - by rewrite String.eqb_refl.
  - destruct (String.eqb k k') eqn:Hk; cbn [assign]; rewrite ?String.eqb_refl, ?Hk; [done|].
    by rewrite IH.
Qed.

Lemma ensureNamespace_spec defaultNamespace m m1 :
  ensureNamespace' defaultNamespace m = Some m1 ->
  apiVersion m1 = apiVersion m
  ∧ resourceKind m1 = resourceKind m
  ∧ resourceSpec m1 = resourceSpec m
  ∧ ∃ md1,
      metadata m1 = Some md1
      ∧ metaName md1 = metaName (metadataOf m)
      ∧ metaNamespace md1
        = (if truthyString (metaNamespace (metadataOf m)) then metaNamespace (metadataOf m)
           else match getApiResourceInfo (apiVersion m) (resourceKind m) with
                | Some true => Some defaultNamespace
                | _ => metaNamespace (metadataOf m)
                end)
      ∧ metaAnnotations md1 = metaAnnotations (metadataOf m)
      ∧ metaLabels md1 = metaLabels (metadataOf m).
Proof.
  unfold ensureNamespace.
  destruct m as [av kd [md|] sp]; cbn [metadata apiVersion resourceKind resourceSpec].
  - destruct (truthyString (metaNamespace md)) eqn:Hns.
    + intros [= <-]. repeat split. exists md. simpl. by rewrite Hns.
    + destruct (getApiResourceInfo av kd) as [[|]|]; [| |done]; intros [= <-];
        repeat split; eexists; (split; [reflexivity|]); simpl; by rewrite Hns.
  - destruct (getApiResourceInfo av kd) as [[|]|]; [| |done]; intros [= <-];
      repeat split; eexists; (split; [reflexivity|]); simpl; done.
Qed.

Lemma prepareManifest_prepared actionName defaultNamespace m m' :
  prepareManifest' actionName defaultNamespace m = Some m' ->
  prepared' actionName defaultNamespace m m'.
Proof.
  unfold prepareManifest. intros H.
  destruct (ensureNamespace' defaultNamespace m) as [m1|] eqn:H1; [|done].
  injection H as <-.
  destruct (ensureNamespace_spec _ _ _ H1)
    as (Hav & Hkd & Hsp & md1 & Hmd & Hname & Hns & Hann & Hlab).
  unfold prepared, setAnnotations, annotationValue.
  cbn [metadata apiVersion resourceKind resourceSpec].
  rewrite Hmd, Hkd. cbn [default from_option id].
  split; [done|]. split; [done|]. split; [done|]. eexists. split; [reflexivity|].
  cbn [metaName metaNamespace metaAnnotations metaLabels setIn mbind option_bind].
  rewrite !entry_assign_eq, Hname. split; [done|]. split; [exact Hns|].
  split; [done|]. split; [done|].
  intros k Hk. unfold setIn. rewrite Hann, Hlab.
  change (default ?d (Some ?x)) with x. cbv beta. by rewrite !entry_assign_ne.
Qed.

(** X15. [getManifests] gives one manifest per manifest read, in the same
    order, and changes only the metadata: a namespace that is set is kept;
    a manifest without one gets the default namespace exactly when its
    resource type is namespaced; the Garden service annotation and the
    Garden service label both hold the name of the action, or, for a
    Namespace resource, "garden-namespace--" followed by its own name; the
    other annotations and labels are kept. *)
Theorem manifests_get_namespace_and_service_annotation actionName defaultNamespace
    manifests result :
  getManifests getApiResourceInfo gardenAnnotationKey actionName defaultNamespace manifests
  = Some result ->
  Forall2 (prepared getApiResourceInfo gardenAnnotationKey actionName defaultNamespace)
    manifests result
  ∧ length result = length manifests.
Proof.
  unfold getManifests. intros H. apply mapM_Some in H.
  split; [|symmetry; by eapply Forall2_length].
  eapply Forall2_impl; [exact H|]. intros m m'. apply prepareManifest_prepared.
Qed.

Lemma prepareManifest_idem actionName defaultNamespace m m' :
  prepareManifest' actionName defaultNamespace m = Some m' ->
  prepareManifest' actionName defaultNamespace m' = Some m'.
Proof.
  unfold prepareManifest. intros H.
  destruct (ensureNamespace' defaultNamespace m) as [m1|] eqn:H1; [|done].
  injection H as <-.
  destruct (ensureNamespace_spec _ _ _ H1)
    as (Hav & Hkd & Hsp & md1 & Hmd & Hname & Hns & Hann & Hlab).
  destruct m1 as [av1 kd1 omd1 sp1]. cbn [metadata apiVersion resourceKind resourceSpec] in *.
  subst omd1 av1 kd1 sp1.
  assert (Hstable : ensureNamespace' defaultNamespace
            (setAnnotations' actionName
               {| apiVersion := apiVersion m; resourceKind := resourceKind m;
                  metadata := Some md1; resourceSpec := resourceSpec m |})
          = Some (setAnnotations' actionName
               {| apiVersion := apiVersion m; resourceKind := resourceKind m;
                  metadata := Some md1; resourceSpec := resourceSpec m |})).
  { unfold ensureNamespace, setAnnotations.
    cbn [metadata apiVersion resourceKind resourceSpec default from_option id metaNamespace
         metaName metaAnnotations metaLabels].
    destruct (truthyString (metaNamespace md1)) eqn:Hn1; [done|].
    rewrite Hns in Hn1 |- *.
    destruct (truthyString (metaNamespace (metadataOf m))) eqn:Hn0; [congruence|].
    destruct (getApiResourceInfo (apiVersion m) (resourceKind m)) as [[|]|] eqn:Hinfo.
    - done.
    - do 3 f_equal; try by destruct md1.
    - exfalso. unfold ensureNamespace in H1.
      destruct m as [av kd [md|] sp];
        cbn [metadata apiVersion resourceKind resourceSpec default from_option id] in *.
      + rewrite Hn0, Hinfo in H1. done.
      + rewrite Hinfo in H1. done. }
  rewrite Hstable. cbn [fmap option_fmap option_map]. f_equal.
  unfold setAnnotations, annotationValue, setIn.
  cbn [metadata apiVersion resourceKind resourceSpec default from_option id metaName
       metaNamespace metaAnnotations metaLabels].
  by rewrite !assign_idem.
Qed.

(** X16. [getManifests] changes the manifests in place, and doing it again
    changes nothing more: on manifests it has prepared it succeeds and
    returns them as they are. *)
Theorem preparing_manifests_again_changes_nothing actionName defaultNamespace manifests result :
  getManifests getApiResourceInfo gardenAnnotationKey actionName defaultNamespace manifests
  = Some result ->
  getManifests getApiResourceInfo gardenAnnotationKey actionName defaultNamespace result
  = Some result.
Proof.
  unfold getManifests. intros H. apply mapM_Some in H. apply mapM_Some.
  induction H as [|m m' ms ms' Hm _ IH]; constructor; [|exact IH].
  by eapply prepareManifest_idem.
Qed.

End ManifestFacts.

(** ** Reading manifests and running pods *)

Section ReadManifestFacts.

Import Kubernetes.

Variable loadFiles : list string -> Result Thrown (list (list KubernetesResource)).

Lemma disallowed_check extra :
  existsb (fun arg => existsb (String.eqb arg) extra) disallowedKustomizeArgs = true
  <-> ∃ arg, arg ∈ disallowedKustomizeArgs ∧ arg ∈ extra.
Proof.
  rewrite existsb_exists. split.
  - intros (arg & Hin & Hex). apply existsb_exists in Hex as (x & Hx & Heq).
    apply String.eqb_eq in Heq as <-. exists arg. by rewrite !list_elem_of_In.
  - intros (arg & Hin & Hex). exists arg. split; [by apply list_elem_of_In|].
    apply existsb_exists. exists arg. split; [by apply list_elem_of_In | apply String.eqb_refl].
Qed.

(** X17. With a kustomize path in the spec and the files read: extra
    arguments that include [-o], [--output], [-h] or [--help] are refused
    with the same [ConfigurationError] whatever kustomize would do (it is
    not run); otherwise kustomize is run with [build], the path and the
    extra arguments, its failure comes back as a [PluginError] with its
    message, and on success the manifests of the spec come first, then the
    documents of the files in the order of [files], then those of
    kustomize. *)
Theorem kustomize_arguments_are_screened spec k path fileManifests :
  loadFiles (files spec) = Ok fileManifests ->
  kustomize spec = Some k ->
  kustomizePath k = Some path ->
  path ≠ ""%string ->
  ((∃ arg, arg ∈ disallowedKustomizeArgs ∧ arg ∈ default [] (extraArgs k)) ->
     ∀ kustomizeBuild,
       readManifests loadFiles kustomizeBuild spec = Err (Garden disallowedArgsError))
  ∧ ((∀ arg, arg ∈ disallowedKustomizeArgs -> arg ∉ default [] (extraArgs k)) ->
     ∀ kustomizeBuild,
       readManifests loadFiles kustomizeBuild spec
       = match kustomizeBuild ("build" :: path :: default [] (extraArgs k)) with
         | Ok docs => Ok (manifests spec ++ concat fileManifests ++ docs)
         | Err msg => Err (Garden (kustomizeFailedError msg))
         end)
  ∧ errType disallowedArgsError = ConfigurationError
  ∧ message disallowedArgsError
    = "kustomize.extraArgs must not include any of -o, --output, -h, --help"%string.
Proof.
  intros Hfiles Hk Hpath Hne.
  assert (Hempty : String.eqb path "" = false) by by apply String.eqb_neq.
  split; [|split; [|by split]].
  - intros Hbad kustomizeBuild. unfold readManifests, kustomizeManifests.
    rewrite Hfiles, Hk, Hpath, Hempty. cbn [bindR].
    apply disallowed_check in Hbad. by rewrite Hbad.
  - intros Hgood kustomizeBuild. unfold readManifests, kustomizeManifests.
    rewrite Hfiles, Hk, Hpath, Hempty. cbn [bindR].
    destruct (existsb _ disallowedKustomizeArgs) eqn:Hcheck.
    + apply disallowed_check in Hcheck as (arg & Hin & Hex). by destruct (Hgood arg Hin).
    + by destruct (kustomizeBuild _).
Qed.

(** X18. Without a kustomize path the extra arguments are not looked at
    and kustomize is not run: when the files can be read, the result is the
    manifests of the spec followed by the documents of the files; an error
    of reading the files comes back as it is, before anything about
    kustomize is checked. *)
Theorem manifests_without_kustomize spec kustomizeBuild :
  (match kustomize spec with
   | Some k => truthyString (kustomizePath k) = false
   | None => True
   end ->
   readManifests loadFiles kustomizeBuild spec
   = match loadFiles (files spec) with
     | Ok fileManifests => Ok (manifests spec ++ concat fileManifests)
     | Err e => Err e
     end)
  ∧ (∀ e, loadFiles (files spec) = Err e ->
       readManifests loadFiles kustomizeBuild spec = Err e).
Proof.
  split.
  - intros Hno. unfold readManifests, kustomizeManifests.
    destruct (loadFiles (files spec)) as [fileManifests|e]; cbn [bindR]; [|done].
    destruct (kustomize spec) as [k|]; [|cbn [bindR]; by rewrite app_nil_r].
    unfold truthyString in Hno. destruct (kustomizePath k) as [path|].
    + apply negb_false_iff in Hno. rewrite Hno. cbn [bindR]. by rewrite app_nil_r.
    + cbn [bindR]. by rewrite app_nil_r.
  - intros e He. unfold readManifests. by rewrite He.
Qed.

End ReadManifestFacts.

Section RunOrTestFacts.

Import Kubernetes.

Variable Target : Type.
Variable getTargetResource : TargetResourceSpec -> Result Thrown Target.
Variable getResourcePodSpec : Target -> option PodSpec.
Variable getResourceContainer : Target -> option string -> Result Thrown Container.
Variable makePodName : string -> string -> string.
Variable toLowerCase : string -> string.
Variable DEFAULT_TASK_TIMEOUT : Z.

Local Abbreviation runOrTest' :=
  (runOrTest Target getTargetResource getResourcePodSpec getResourceContainer makePodName
     toLowerCase DEFAULT_TASK_TIMEOUT).

(** X19. A pod spec in the action takes precedence over its [resource]:
    with a pod spec the pod is run from the first container of the spec and
    with its image, without a look at the cluster, whatever [resource]
    says; a pod spec without containers is an error even when a [resource]
    is given; without a pod spec and without a resource the action is
    refused.  The timeout handed on is the configured one, or the default
    when none or zero is configured. *)
Theorem pod_spec_takes_precedence_over_resource action :
  (∀ ps container rest,
     podSpec (spec action) = Some ps ->
     containers ps = container :: rest ->
     ∃ params,
       runOrTest' action = Ok params
       ∧ runContainer params = container
       ∧ runImage params = image container
       ∧ runPodSpec params = Some ps)
  ∧ (∀ ps,
       podSpec (spec action) = Some ps ->
       containers ps = [] ->
       runOrTest' action = Err (Garden (noContainersError action)))
  ∧ (podSpec (spec action) = None ->
     resource (spec action) = None ->
     runOrTest' action = Err (Garden (noPodSpecNorResourceError action)))
  ∧ (∀ params,
       runOrTest' action = Ok params ->
       runTimeout params
       = match timeout action with
         | Some t => if Z.eqb t 0 then DEFAULT_TASK_TIMEOUT else t
         | None => DEFAULT_TASK_TIMEOUT
         end
       ∧ runImage params = image (runContainer params)
       ∧ (podSpec (spec action) = None ->
          ∃ resourceSpec target,
            resource (spec action) = Some resourceSpec
            ∧ getTargetResource resourceSpec = Ok target
            ∧ getResourceContainer target (targetContainerName resourceSpec)
              = Ok (runContainer params)
            ∧ runPodSpec params = getResourcePodSpec target)).
Proof.
  unfold runOrTest. split; [|split; [|split]].
  - intros ps container rest -> ->. cbn [bindR fst snd]. eexists. by repeat split.
  - by intros ps -> ->.
  - by intros -> ->.
  - intros params. destruct (podSpec (spec action)) as [ps|].
    + destruct (containers ps) as [|container rest]; cbn [bindR fst snd]; [done|].
      intros [= <-]. by repeat split.
    + destruct (resource (spec action)) as [resourceSpec|]; cbn [bindR]; [|done].
      destruct (getTargetResource resourceSpec) as [target|e] eqn:Ht; cbn [bindR]; [|done].
      destruct (getResourceContainer target (targetContainerName resourceSpec))
        as [container|e] eqn:Hc; cbn [bindR fst snd]; [|done].
      intros [= <-]. split; [done|]. split; [done|]. intros _.
      exists resourceSpec, target. by repeat split.
Qed.

End RunOrTestFacts.

(** ** More on the exec handlers *)

Section ExecMoreFacts.

Import Exec ExecEffects.

Variable spawn : list string -> Result string ExecResult * Z.
Variable runResultToActionState : RunDetail -> string.

(** X20. On a command that could be spawned, the Run and the Test handler
    of the exec plugin agree: neither fails when the exit code is not zero;
    both report success exactly when the exit code is zero, and the trimmed
    output of the command as the log; both spawn the command once and copy
    the artifacts once, whatever the exit code; and both stamp the start
    and the end with two distinct [Date] objects.  They differ in that only
    Run puts the log into the outputs of the detail, that Run logs the
    output before copying the artifacts while Test logs it afterwards, and
    that Run takes the end time right after the command, so that its two
    dates are apart by the time the process took. *)
Theorem exec_run_and_test_agree_on_commands action w first rest r elapsed :
  specCommand action = Some (first :: rest) ->
  spawn (first :: rest) = (Ok r, elapsed) ->
  ∃ run test w1 w2,
    execRunHandler spawn runResultToActionState action w = (Ok run, w1)
    ∧ execTestHandler spawn runResultToActionState action w = (Ok test, w2)
    ∧ success (detail run) = Z.eqb (exitCode r) 0
    ∧ success (detail test) = Z.eqb (exitCode r) 0
    ∧ log (detail run) = trimmedOutput r
    ∧ log (detail test) = trimmedOutput r
    ∧ outputsLog run = trimmedOutput r
    ∧ outputsLog test = trimmedOutput r
    ∧ detailOutputsLog (detail run) = Some (trimmedOutput r)
    ∧ detailOutputsLog (detail test) = None
    ∧ effects w1
      = effects w ++ RunCommand (first :: rest)
          :: outputLogged ("Finished running task " ++ actionName action
                             ++ ". Here is the full output:") (trimmedOutput r)
          ++ [CopyArtifacts]
    ∧ effects w2
      = effects w ++ RunCommand (first :: rest) :: CopyArtifacts
          :: outputLogged ("Finished executing " ++ actionKey action
                             ++ ". Here is the full output:") (trimmedOutput r)
    ∧ (millis (completedAt (detail run)) - millis (startedAt (detail run)) = elapsed)%Z
    ∧ dateId (completedAt (detail run)) ≠ dateId (startedAt (detail run))
    ∧ dateId (completedAt (detail test)) ≠ dateId (startedAt (detail test)).
Proof.
  intros Hcmd Hspawn.
  unfold execRunHandler, execTestHandler, execRunCommand, outputLogged, logOutput.
  rewrite Hcmd. cbn [newDate default from_option id now nextDateId effects].
  rewrite Hspawn. cbn [andb newDate now nextDateId effects].
  destruct (String.eqb (trimmedOutput r) "") eqn:Hout;
    eexists _, _, _, _; (split; [reflexivity|]); (split; [reflexivity|]);
    cbn [detail success log outputsLog detailOutputsLog startedAt completedAt millis dateId
         copyArtifacts emit effects now nextDateId app];
    rewrite <- ?app_assoc; cbn [app];
    repeat (split; [reflexivity || lia|]); lia.
Qed.


End ExecMoreFacts.

Lemma manifests_get_namespace_and_service_annotation_witness :
  Forall2 (Kubernetes.prepared MoreSamples.resourceInfo Samples.annotationKey "api" "default")
    MoreSamples.sampleManifests MoreSamples.preparedManifests
  ∧ length MoreSamples.preparedManifests = 3.
Proof.
  apply (manifests_get_namespace_and_service_annotation MoreSamples.resourceInfo
           Samples.annotationKey "api" "default" MoreSamples.sampleManifests
           MoreSamples.preparedManifests).
  vm_compute. reflexivity.
Defined.

Lemma preparing_manifests_again_changes_nothing_witness :
  Kubernetes.getManifests MoreSamples.resourceInfo Samples.annotationKey "api" "default"
    MoreSamples.preparedManifests
  = Some MoreSamples.preparedManifests.
Proof.
  apply (preparing_manifests_again_changes_nothing MoreSamples.resourceInfo
           Samples.annotationKey "api" "default" MoreSamples.sampleManifests).
  vm_compute. reflexivity.
Defined.

Lemma kustomize_arguments_are_screened_witness :
  Kubernetes.readManifests MoreSamples.loadOneDeployment
    (fun _ => Ok [MoreSamples.pinnedConfigMap]) MoreSamples.kustomizedSpec
  = Err (Kubernetes.Garden Kubernetes.disallowedArgsError).
Proof.
  apply (proj1 (kustomize_arguments_are_screened MoreSamples.loadOneDeployment
                  MoreSamples.kustomizedSpec
                  {| Kubernetes.kustomizePath := Some "overlays/dev";
                     Kubernetes.extraArgs := Some ["--output"; "out.yml"] |}
                  "overlays/dev" [[MoreSamples.apiDeployment]]
                  eq_refl eq_refl eq_refl ltac:(discriminate))).
  exists "--output"%string. split.
  - apply elem_of_cons. right. apply elem_of_cons. by left.
  - apply elem_of_cons. by left.
Defined.

Lemma manifests_without_kustomize_witness :
  Kubernetes.readManifests MoreSamples.loadOneDeployment
    (fun _ => Err "kustomize is not installed"%string) MoreSamples.inlineSpec
  = Ok [MoreSamples.devNamespace; MoreSamples.apiDeployment].
Proof.
  apply (proj1 (manifests_without_kustomize MoreSamples.loadOneDeployment
                  MoreSamples.inlineSpec (fun _ => Err "kustomize is not installed"%string)) I).
Defined.

Lemma pod_spec_takes_precedence_over_resource_witness :
  ∃ params,
    Kubernetes.runOrTest unit (fun _ => Err (Kubernetes.Other "cluster unreachable"))
      (fun _ => None) (fun _ _ => Err (Kubernetes.Other "no container"))
      (fun type name => type ++ "-" ++ name)%string (fun s => s) 600%Z MoreSamples.migrateRun
    = Ok params
    ∧ Kubernetes.containerName (Kubernetes.runContainer params) = "main"%string
    ∧ Kubernetes.runImage params = Some "migrations:1"%string.
Proof.
  destruct (proj1 (pod_spec_takes_precedence_over_resource unit
                     (fun _ => Err (Kubernetes.Other "cluster unreachable"))
                     (fun _ => None) (fun _ _ => Err (Kubernetes.Other "no container"))
                     (fun type name => type ++ "-" ++ name)%string (fun s => s) 600%Z
                     MoreSamples.migrateRun)
             _ _ _ eq_refl eq_refl) as (params & Hrun & Hcontainer & Himage & _).
  exists params. split; [exact Hrun|]. split; [by rewrite Hcontainer | exact Himage].
Defined.

Lemma exec_run_and_test_agree_on_commands_witness :
  ∃ run test w1 w2,
    Exec.execRunHandler MoreSamples.failingSpawn Samples.stateOfSuccess MoreSamples.lintAction
      Samples.startWorld = (Ok run, w1)
    ∧ Exec.execTestHandler MoreSamples.failingSpawn Samples.stateOfSuccess
        MoreSamples.lintAction Samples.startWorld = (Ok test, w2)
    ∧ Exec.success (Exec.detail run) = false
    ∧ Exec.success (Exec.detail test) = false
    ∧ Exec.log (Exec.detail run) = "2 problems"%string
    ∧ Exec.log (Exec.detail test) = "2 problems"%string.
Proof.
  destruct (exec_run_and_test_agree_on_commands MoreSamples.failingSpawn Samples.stateOfSuccess
              MoreSamples.lintAction Samples.startWorld "npm" ["run"; "lint"]
              MoreSamples.failedLint 7%Z eq_refl eq_refl)
    as (run & test & w1 & w2 & Hrun & Htest & Hs1 & Hs2 & Hl1 & Hl2 & _).
  exists run, test, w1, w2.
  split; [exact Hrun|]. split; [exact Htest|]. split; [exact Hs1|]. split; [exact Hs2|].
  split; [rewrite Hl1 | rewrite Hl2]; vm_compute; reflexivity.
Defined.


(** ** The registries of the Garden class *)

Section GardenFacts.

Import Garden.

Variable relative : string -> string -> string.
Variable projectRoot : string.
Variable actionReferenceToString : string -> string -> string.

Local Abbreviation keyOfConfig := (fun c => actionReferenceToString (kind c) (name c)).

Lemma sortPaths_comm a b : sortPaths a b = sortPaths b a.
Proof.
  unfold sortPaths.
  destruct (String.leb a b) eqn:Hab, (String.leb b a) eqn:Hba; try done.
  - by rewrite (String.leb_antisym a b Hab Hba).
  - destruct (String.leb_total a b); congruence.
Qed.

(** X22. The "declared multiple times" error does not depend on which of
    the two declarations was scanned first: for two action configs of the
    same kind and name, and for two module configs of the same name, adding
    the second after the first fails with the same error as adding the
    first after the second (the two paths are sorted).  For workflows this
    holds when the path of each is its base path: the new workflow is
    always named by its base path. *)
Theorem declared_twice_error_ignores_scan_order :
  (∀ (registry registry' : gmap (string * string) ActionConfig) a b,
     kind a = kind b -> name a = name b ->
     registry !! (kind b, name b) = Some a ->
     registry' !! (kind a, name a) = Some b ->
     addActionConfig relative projectRoot registry b
     = addActionConfig relative projectRoot registry' a)
  ∧ (∀ (registry registry' : gmap string ModuleConfig) a b,
       moduleConfigName a = moduleConfigName b ->
       registry !! moduleConfigName b = Some a ->
       registry' !! moduleConfigName a = Some b ->
       addModuleConfig relative projectRoot registry b
       = addModuleConfig relative projectRoot registry' a)
  ∧ (∀ (registry registry' : gmap string WorkflowConfig) a b,
       workflowName a = workflowName b ->
       registry !! workflowName b = Some a ->
       registry' !! workflowName a = Some b ->
       orPath (configFilePath (workflowInternal a)) (basePath (workflowInternal a))
       = basePath (workflowInternal a) ->
       orPath (configFilePath (workflowInternal b)) (basePath (workflowInternal b))
       = basePath (workflowInternal b) ->
       addWorkflow relative projectRoot registry b
       = addWorkflow relative projectRoot registry' a).
Proof.
  split; [|split].
  - intros registry registry' a b Hkind Hname Ha Hb. unfold addActionConfig.
    rewrite Ha, Hb.
    rewrite (sortPaths_comm (relative projectRoot (sourcePath a))).
    destruct (sortPaths _ _) as [pathA pathB].
    unfold declaredTwiceMessage. by rewrite Hkind, Hname.
  - intros registry registry' a b Hname Ha Hb. unfold addModuleConfig.
    rewrite Ha, Hb.
    rewrite (sortPaths_comm
               (relative projectRoot (orPath (moduleConfigPath a) (modulePath a)))).
    destruct (sortPaths _ _) as [pathA pathB]. by rewrite Hname.
  - intros registry registry' a b Hname Ha Hb Hpa Hpb. unfold addWorkflow.
    rewrite Ha, Hb, Hpa, Hpb.
    rewrite (sortPaths_comm (relative projectRoot (basePath (workflowInternal a)))).
    destruct (sortPaths _ _) as [pathA pathB]. by rewrite Hname.
Qed.

Lemma mergeModuleActionConfigs_app declared l1 l2 :
  mergeModuleActionConfigs actionReferenceToString declared (l1 ++ l2)
  = try! merged := mergeModuleActionConfigs actionReferenceToString declared l1 in
    mergeModuleActionConfigs actionReferenceToString merged l2.
Proof.
  revert declared. induction l1 as [|c l1 IH]; intros declared; [done|].
  cbn [app mergeModuleActionConfigs].
  destruct (declared !! actionReferenceToString (kind c) (name c)); [done|]. apply IH.
Qed.

Lemma mergeModuleActionConfigs_ok declared mods merged :
  mergeModuleActionConfigs actionReferenceToString declared mods = Ok merged ->
  NoDup (keyOfConfig <$> mods)
  ∧ (∀ c, c ∈ mods -> declared !! keyOfConfig c = None)
  ∧ (∀ k, merged !! k
          = match list_find (fun c => keyOfConfig c = k) mods with
            | Some (_, c) => Some c
            | None => declared !! k
            end).
Proof.
  revert declared. induction mods as [|c mods IH]; intros declared.
  - intros [= <-]. split; [constructor|]. split; [by intros c ?%elem_of_nil|]. done.
  - cbn [mergeModuleActionConfigs].
    destruct (declared !! actionReferenceToString (kind c) (name c)) eqn:Hc; [done|].
    intros H. destruct (IH _ H) as (Hnd & Hfresh & Hlook).
    split; [|split].
    + rewrite fmap_cons. constructor; [|exact Hnd].
      intros (c' & Heq & Hin)%list_elem_of_fmap.
      specialize (Hfresh c' Hin). cbv beta in Heq. rewrite <- Heq in Hfresh.
      by rewrite lookup_insert_eq in Hfresh.
    + intros c' [->|Hin]%elem_of_cons; [exact Hc|].
      specialize (Hfresh c' Hin).
      destruct (decide (actionReferenceToString (kind c) (name c) = keyOfConfig c'))
        as [Heq|Hne].
      * rewrite Heq in Hfresh. by rewrite lookup_insert_eq in Hfresh.
      * by rewrite lookup_insert_ne in Hfresh.
    + intros k. rewrite Hlook. cbn [list_find].
      destruct (decide (keyOfConfig c = k)) as [<-|Hne].
      * destruct (list_find (fun c0 => keyOfConfig c0 = keyOfConfig c) mods)
          as [[i c']|] eqn:Hf; cbn [fmap option_fmap option_map].
        -- exfalso. apply list_find_Some in Hf as (Hi & Hk & _).
           assert (Hin : c' ∈ mods) by by eapply list_elem_of_lookup_2.
           specialize (Hfresh c' Hin). rewrite Hk in Hfresh.
           by rewrite lookup_insert_eq in Hfresh.
        -- by rewrite lookup_insert_eq.
      * destruct (list_find (fun c0 => keyOfConfig c0 = k) mods) as [[i c']|];
          cbn [fmap option_fmap option_map]; [done|].
        by rewrite lookup_insert_ne.
Qed.

Lemma mergeModuleActionConfigs_fresh declared mods :
  NoDup (keyOfConfig <$> mods) ->
  (∀ c, c ∈ mods -> declared !! keyOfConfig c = None) ->
  ∃ merged, mergeModuleActionConfigs actionReferenceToString declared mods = Ok merged.
Proof.
  revert declared. induction mods as [|c mods IH]; intros declared Hnd Hfresh.
  - by eexists.
  - cbn [mergeModuleActionConfigs].
    rewrite (Hfresh c) by (apply elem_of_cons; by left).
    rewrite fmap_cons in Hnd. apply NoDup_cons in Hnd as [Hc Hnd].
    apply IH; [exact Hnd|]. intros c' Hin.
    rewrite lookup_insert_ne.
    + apply Hfresh, elem_of_cons. by right.
    + intros Heq. apply Hc, list_elem_of_fmap. exists c'. by split.
Qed.

(** X23. The action configs generated from modules never replace a
    declared action, nor one another: the merge succeeds exactly when the
    keys of the generated configs are pairwise distinct and none of them is
    the key of a declared action; it then holds every declared action and
    every generated config under its key, and nothing else. *)
Theorem module_actions_never_replace_declared_actions declared mods :
  ((∃ merged, mergeModuleActionConfigs actionReferenceToString declared mods = Ok merged)
   <-> NoDup ((fun c => actionReferenceToString (kind c) (name c)) <$> mods)
       ∧ ∀ c, c ∈ mods -> declared !! actionReferenceToString (kind c) (name c) = None)
  ∧ (∀ merged,
       mergeModuleActionConfigs actionReferenceToString declared mods = Ok merged ->
       (∀ k c, declared !! k = Some c -> merged !! k = Some c)
       ∧ (∀ c, c ∈ mods -> merged !! actionReferenceToString (kind c) (name c) = Some c)
       ∧ (∀ k c, merged !! k = Some c ->
            declared !! k = Some c
            ∨ (c ∈ mods ∧ actionReferenceToString (kind c) (name c) = k))).
Proof.
  split.
  - split.
    + intros (merged & H). apply mergeModuleActionConfigs_ok in H as (Hnd & Hfresh & _).
      by split.
    + intros (Hnd & Hfresh). by apply mergeModuleActionConfigs_fresh.
  - intros merged H. apply mergeModuleActionConfigs_ok in H as (Hnd & Hfresh & Hlook).
    split; [|split].
    + intros k c Hk. rewrite Hlook.
      destruct (list_find (fun c0 => keyOfConfig c0 = k) mods) as [[i c']|] eqn:Hf; [|done].
      exfalso. apply list_find_Some in Hf as (Hi & Hkey & _).
      assert (Hin : c' ∈ mods) by by eapply list_elem_of_lookup_2.
      specialize (Hfresh c' Hin). rewrite Hkey in Hfresh. congruence.
    + intros c Hin. rewrite Hlook.
      destruct (list_find (fun c0 => keyOfConfig c0 = keyOfConfig c) mods)
        as [[i c']|] eqn:Hf.
      * apply list_find_Some in Hf as (Hi & Hkey & _). f_equal.
        apply (NoDup_fmap_eq keyOfConfig mods); try done.
        by eapply list_elem_of_lookup_2.
      * apply list_find_None in Hf. rewrite Forall_forall in Hf. by destruct (Hf c Hin).
    + intros k c. rewrite Hlook.
      destruct (list_find (fun c0 => keyOfConfig c0 = k) mods) as [[i c']|] eqn:Hf.
      * intros [= <-]. apply list_find_Some in Hf as (Hi & Hkey & _).
        right. split; [by eapply list_elem_of_lookup_2 | done].
      * by left.
Qed.

(** X24. A warning that was hidden is not shown again: after
    [hideWarning(key)], [emitWarning] for this key logs nothing, whatever
    the message, and hiding it again changes nothing; the warnings of the
    other keys are shown or not as before. *)
Theorem hidden_warning_is_not_emitted warnings key :
  (∀ message, emitWarning (hideWarning warnings key) key message = [])
  ∧ hideWarning (hideWarning warnings key) key = hideWarning warnings key
  ∧ (∀ other message,
       other ≠ key ->
       emitWarning (hideWarning warnings key) other message
       = emitWarning warnings other message)
  ∧ (∀ message,
       (∀ record, warnings !! key = Some record -> hidden record ≠ Some true) ->
       length (emitWarning warnings key message) = 1).
Proof.
  unfold emitWarning, hideWarning. split; [|split; [|split]].
  - intros message. by rewrite lookup_insert_eq.
  - apply insert_insert_eq.
  - intros other message Hne. by rewrite lookup_insert_ne.
  - intros message Hshown. destruct (warnings !! key) as [record|]; [|done].
    specialize (Hshown record eq_refl). by destruct (hidden record) as [[|]|].
Qed.

End GardenFacts.

(** ** Console and server commands *)

Section HideFacts.

Import ServerCommands.

Variable isMatch : string -> list string -> bool.
Variable naturalList : list string -> string.

Lemma sublist_list_filter {A} (f : A -> bool) (l : list A) : sublist (List.filter f l) l.
Proof.
  induction l as [|x l IH]; cbn [List.filter]; [constructor|].
  destruct (f x); by constructor.
Qed.

(** X25. [hide]: the plural type names are aliases ([logs] does what
    [log] does, [syncs] what [sync] does); leaving the names out is the
    same as giving the one name [*]; the monitors stopped are the active
    ones whose key matches the names and, when a type is given, whose type
    is the given one, in the order they are active in; and each of them gets
    one line in the log, between the two opening lines and the closing
    one. *)
Theorem hide_stops_matching_monitors type names monitors :
  hideAction isMatch naturalList "logs" names monitors
  = hideAction isMatch naturalList "log" names monitors
  ∧ hideAction isMatch naturalList "syncs" names monitors
    = hideAction isMatch naturalList "sync" names monitors
  ∧ hideAction isMatch naturalList type None monitors
    = hideAction isMatch naturalList type (Some ["*"]) monitors
  ∧ hideAction isMatch naturalList type (Some []) monitors
    = hideAction isMatch naturalList type (Some ["*"]) monitors
  ∧ (∀ monitor first rest,
       names = Some (first :: rest) ->
       type ≠ "logs"%string -> type ≠ "syncs"%string ->
       (monitor ∈ snd (hideAction isMatch naturalList type names monitors)
        <-> monitor ∈ monitors
            ∧ (type = ""%string ∨ monitorType monitor = type)
            ∧ isMatch (monitorKey monitor) (first :: rest) = true))
  ∧ length (fst (hideAction isMatch naturalList type names monitors))
    = 3 + length (snd (hideAction isMatch naturalList type names monitors))
  ∧ sublist (snd (hideAction isMatch naturalList type names monitors)) monitors.
Proof.
  split; [done|]. split; [done|]. split; [done|]. split; [done|]. split; [|split].
  - intros monitor first rest -> Hlogs Hsyncs. unfold hideAction. cbn [snd].
    destruct (String.eqb_spec type "logs") as [?|_]; [done|].
    destruct (String.eqb_spec type "syncs") as [?|_]; [done|]. cbn [orb].
    rewrite !list_elem_of_In, filter_In, andb_true_iff, orb_true_iff, !String.eqb_eq.
    tauto.
  - unfold hideAction. cbn [fst snd]. rewrite !length_app, length_map. cbn [length]. lia.
  - unfold hideAction. cbn [snd]. apply sublist_list_filter.
Qed.

End HideFacts.

Section ResolveRequestFacts.

Import ServerCommands.

Variable ProjectResource : Type.
Variable projectPath : ProjectResource -> string.
Variable Command : Type.
Variable getFullName : Command -> string.
Variable ParsedArgs : Type.
Variable pathExists : string -> bool.
Variable isDirectory : string -> bool.
Variable findProjectConfig : string -> bool -> option ProjectResource.
Variable stringArgv : string -> list string.
Variable pickCommand : string -> list string -> option Command * list string * list string.
Variable parseArgs : Command -> list string -> list string -> list string -> Result string ParsedArgs.
Variable uuidv4 : string.

Local Abbreviation resolveRequest' :=
  (resolveRequest ProjectResource projectPath Command getFullName ParsedArgs pathExists
     isDirectory findProjectConfig stringArgv pickCommand parseArgs uuidv4).

(** The arguments handed to [pickCommand], line 490. *)
Local Abbreviation argsOf := (fun request commandLine =>
  (stringArgv (Js.trim commandLine) ++ default [] (stringArguments request))%list).

(** X26. The failures of [resolveRequest] are of two kinds.  It fails with
    404 exactly when the project is found, the request names a command and
    [pickCommand] finds no command for it among those of the project; the
    message then quotes the command of the request.  Every other failure
    is a 400: no project for the request, or arguments that the command
    found does not accept.  A project root in the request is checked first
    and only that directory is looked at: if it does not exist the request
    fails with 400 whatever the command and the default root are.  A
    request without a command never fails once the project is found, and
    resolves to no command and no arguments.  The session id is the id of
    the request when it has one. *)
Theorem resolve_request_failures_are_400_or_404 defaultProjectRoot request :
  (∀ code message detail,
     resolveRequest ProjectResource projectPath Command getFullName ParsedArgs pathExists
       isDirectory findProjectConfig stringArgv pickCommand parseArgs uuidv4
       defaultProjectRoot request
     = Failed ProjectResource Command ParsedArgs code message detail ->
     code = 400%Z ∨ code = 404%Z)
  ∧ (∀ message detail,
       resolveRequest' defaultProjectRoot request
       = Failed ProjectResource Command ParsedArgs 404 message detail
       <-> ∃ project commandLine,
             resolveProject ProjectResource pathExists isDirectory findProjectConfig
               defaultProjectRoot request = inr project
             ∧ truthyField (requestCommand request) = Some commandLine
             ∧ (pickCommand (projectPath project) (argsOf request commandLine)).1.1 = None
             ∧ message = ("Could not find command " ++ commandLine ++ ".")%string
             ∧ detail = None)
  ∧ (∀ message detail,
       resolveRequest' defaultProjectRoot request
       = Failed ProjectResource Command ParsedArgs 400 message detail
       <-> (resolveProject ProjectResource pathExists isDirectory findProjectConfig
              defaultProjectRoot request = inl (400%Z, message) ∧ detail = None)
           ∨ ∃ project commandLine command error,
               resolveProject ProjectResource pathExists isDirectory findProjectConfig
                 defaultProjectRoot request = inr project
               ∧ truthyField (requestCommand request) = Some commandLine
               ∧ (pickCommand (projectPath project) (argsOf request commandLine)).1.1
                 = Some command
               ∧ parseArgs command
                   (pickCommand (projectPath project) (argsOf request commandLine)).1.2
                   (argsOf request commandLine)
                   (pickCommand (projectPath project) (argsOf request commandLine)).2
                 = Err error
               ∧ message = ("Invalid arguments for command " ++ getFullName command)%string
               ∧ detail = Some error)
  ∧ (∀ root,
       truthyField (requestProjectRoot request) = Some root ->
       pathExists root = false ->
       ∀ otherRoot,
         resolveRequest' otherRoot request
         = Failed ProjectResource Command ParsedArgs 400
             ("Specified projectRoot path (" ++ root ++ ") does not exist.")%string None)
  ∧ (∀ r,
       resolveRequest' defaultProjectRoot request
       = Success ProjectResource Command ParsedArgs r ->
       (truthyField (requestCommand request) = None ->
        resolvedCommand _ _ _ r = None ∧ resolvedArgs _ _ _ r = None
        ∧ resolvedRest _ _ _ r = [])
       ∧ (∀ id, truthyField (requestId request) = Some id -> resolvedSessionId _ _ _ r = id)).
Proof.
  assert (Hproject : ∀ code message,
            resolveProject ProjectResource pathExists isDirectory findProjectConfig
              defaultProjectRoot request = inl (code, message) -> code = 400%Z).
  { intros code message. unfold resolveProject.
    destruct (truthyField (requestProjectRoot request)) as [root|].
    - destruct (pathExists root); cbn [negb]; [|by intros [= <- _]].
      destruct (isDirectory root); cbn [negb]; [|by intros [= <- _]].
      destruct (findProjectConfig root false); [done | by intros [= <- _]].
    - destruct (findProjectConfig defaultProjectRoot true); [done | by intros [= <- _]]. }
  unfold resolveRequest. split; [|split; [|split; [|split]]].
  - intros code message detail.
    destruct (resolveProject _ _ _ _ defaultProjectRoot request) as [[c m]|project] eqn:Hp.
    + intros [= <- <- <-]. left. by eapply Hproject.
    + destruct (truthyField (requestCommand request)) as [commandLine|]; [|done].
      destruct (pickCommand _ _) as [[[command|] rest] matchedPath].
      * destruct (parseArgs command rest _ matchedPath); [done|].
        intros [= <- <- <-]. by left.
      * intros [= <- <- <-]. by right.
  - intros message detail.
    destruct (resolveProject _ _ _ _ defaultProjectRoot request) as [[c m]|project] eqn:Hp.
    + split.
      * intros [= -> <- <-]. by pose proof (Hproject _ _ eq_refl).
      * by intros (? & ? & ? & _).
    + destruct (truthyField (requestCommand request)) as [commandLine|].
      2: { split; [done | by intros (? & ? & _ & ? & _)]. }
      destruct (pickCommand (projectPath project) (argsOf request commandLine))
        as [[[command|] rest] matchedPath] eqn:Hpick.
      * destruct (parseArgs command rest _ matchedPath).
        -- split; [done|]. intros (p & c & [= <-] & [= <-] & Hnone & _).
           rewrite Hpick in Hnone. done.
        -- split; [done|]. intros (p & c & [= <-] & [= <-] & Hnone & _).
           rewrite Hpick in Hnone. done.
      * split.
        -- intros [= <- <-]. exists project, commandLine. by rewrite Hpick.
        -- intros (p & c & [= <-] & [= <-] & _ & -> & ->). done.
  - intros message detail.
    destruct (resolveProject _ _ _ _ defaultProjectRoot request) as [[c m]|project] eqn:Hp.
    + split.
      * intros [= -> <- <-]. by left.
      * intros [[[= -> ->] ->]|(? & ? & ? & ? & ? & _)]; done.
    + destruct (truthyField (requestCommand request)) as [commandLine|].
      2: { split; [done|]. intros [[? _]|(? & ? & ? & ? & _ & ? & _)]; done. }
      destruct (pickCommand (projectPath project) (argsOf request commandLine))
        as [[[command|] rest] matchedPath] eqn:Hpick.
      * destruct (parseArgs command rest _ matchedPath) as [parsed|error] eqn:Hparse.
        -- split; [done|].
           intros [[? _]|(p & c & cmd & err & [= <-] & [= <-] & Hcmd & Herr & _)]; [done|].
           rewrite Hpick in Hcmd, Herr. cbn [fst snd] in Hcmd, Herr.
           injection Hcmd as <-. congruence.
        -- split.
           ++ intros [= <- <-]. right. exists project, commandLine, command, error.
              rewrite Hpick. by cbn [fst snd].
           ++ intros [[? _]|(p & c & cmd & err & [= <-] & [= <-] & Hcmd & Herr & -> & ->)];
                [done|].
              rewrite Hpick in Hcmd, Herr. cbn [fst snd] in Hcmd, Herr.
              injection Hcmd as <-. rewrite Hparse in Herr. by injection Herr as <-.
      * split; [done|].
        intros [[? _]|(p & c & cmd & err & [= <-] & [= <-] & Hcmd & _)]; [done|].
        rewrite Hpick in Hcmd. done.
  - intros root Hroot Hmissing otherRoot. unfold resolveProject.
    by rewrite Hroot, Hmissing.
  - intros r.
    destruct (resolveProject _ _ _ _ defaultProjectRoot request) as [[c m]|project]; [done|].
    destruct (truthyField (requestCommand request)) as [commandLine|].
    + destruct (pickCommand _ _) as [[[command|] rest] matchedPath]; [|done].
      destruct (parseArgs command rest _ matchedPath); [|done].
      intros [= <-]. split; [done|]. intros id ->. done.
    + intros [= <-]. split; [done|]. intros id ->. done.
Qed.

End ResolveRequestFacts.

(** ** Helm modules *)

Section HelmFacts.

Import Helm.

Variable containsSource : HelmModuleConfig -> bool.
Variable posixJoin : string -> string -> string.

Lemma containerModuleDependencies_names resources n :
  n ∈ dependencyName <$> containerModuleDependencies resources
  <-> ∃ r, r ∈ resources ∧ containerModuleOf r = Some n.
Proof.
  unfold containerModuleDependencies. rewrite list_elem_of_fmap. split.
  - intros (d & -> & Hd). apply list_elem_of_omap in Hd as (r & Hr & Hd).
    exists r. split; [done|]. destruct (containerModuleOf r); [|done].
    by injection Hd as <-.
  - intros (r & Hr & Hn). exists {| dependencyName := n; copy := [] |}. split; [done|].
    apply list_elem_of_omap. exists r. split; [done|]. by rewrite Hn.
Qed.

(** X27. Configuring a Helm module fails exactly when the module names a
    base and contains chart sources (as [containsSource] finds, asked once
    the service configs are set), and then with the error that says so.
    Otherwise it only adds build dependencies: those the module had stay
    where they are, the base (if any) is added with a copy of everything to
    the build root, and every container module named by the resource of a
    task or of a test is added, with nothing to copy; no other name is
    added. *)
Theorem helm_module_build_dependencies moduleConfig :
  match configureHelmModule containsSource posixJoin moduleConfig with
  | Err message =>
      message = baseAndSourcesError moduleConfig
      ∧ (∃ b, truthyName (base (spec moduleConfig)) = Some b)
      ∧ containsSource (atSourceCheck moduleConfig) = true
  | Ok configured =>
      (truthyName (base (spec moduleConfig)) = None
       ∨ containsSource (atSourceCheck moduleConfig) = false)
      ∧ ∃ added,
          buildDependencies configured = (buildDependencies moduleConfig ++ added)%list
          ∧ (∀ b, truthyName (base (spec moduleConfig)) = Some b ->
               {| dependencyName := b; copy := [("*", ".")] |} ∈ added)
          ∧ (∀ n, n ∈ dependencyName <$> added
               <-> truthyName (base (spec moduleConfig)) = Some n
                   ∨ (∃ t, t ∈ tasks (spec moduleConfig)
                           ∧ containerModuleOf (taskResource t) = Some n)
                   ∨ (∃ t, t ∈ tests (spec moduleConfig)
                           ∧ containerModuleOf (testResource t) = Some n))
  end.
Proof.
  unfold configureHelmModule.
  change (containsSource _) with (containsSource (atSourceCheck moduleConfig)).
  destruct (truthyName (base (spec moduleConfig))) as [b|] eqn:Hbase.
  - destruct (containsSource (atSourceCheck moduleConfig)) eqn:Hsrc; cbn [bindR].
    + split; [done|]. split; [by exists b | done].
    + split; [by right|].
      eexists. cbn [buildDependencies]. split; [reflexivity|]. split.
      * intros b' [= <-]. apply elem_of_cons. by left.
      * intros n. rewrite !fmap_app, !elem_of_app, !containerModuleDependencies_names.
        cbn [fmap list_fmap dependencyName]. rewrite list_elem_of_singleton.
        split.
        -- intros [->|[(r & Hr & Hn)|(r & Hr & Hn)]]; [by left| |].
           ++ right. left. apply list_elem_of_fmap in Hr as (t & -> & Ht). by exists t.
           ++ right. right. apply list_elem_of_fmap in Hr as (t & -> & Ht). by exists t.
        -- intros [[= ->]|[(t & Ht & Hn)|(t & Ht & Hn)]]; [by left| |].
           ++ right. left. exists (taskResource t). split; [|done].
              apply list_elem_of_fmap. by exists t.
           ++ right. right. exists (testResource t). split; [|done].
              apply list_elem_of_fmap. by exists t.
  - cbn [bindR]. split; [by left|].
    eexists. cbn [buildDependencies]. split; [reflexivity|]. split; [done|].
    intros n. cbn [app]. rewrite !fmap_app, !elem_of_app, !containerModuleDependencies_names.
    split.
    + intros [(r & Hr & Hn)|(r & Hr & Hn)].
      * right. left. apply list_elem_of_fmap in Hr as (t & -> & Ht). by exists t.
      * right. right. apply list_elem_of_fmap in Hr as (t & -> & Ht). by exists t.
    + intros [?|[(t & Ht & Hn)|(t & Ht & Hn)]]; [done| |].
      * left. exists (taskResource t). split; [|done]. apply list_elem_of_fmap. by exists t.
      * right. exists (testResource t). split; [|done]. apply list_elem_of_fmap. by exists t.
Qed.

(** X28. What a configured Helm module holds: an [include] or [exclude]
    of the module config is never replaced, and without both the include
    list is made of paths under the chart path and names every value file;
    a module with [skipDeploy] gets no service config of its own, any
    other gets exactly one, named after the module; and there is one task
    config per task and one test config per test, in order, each disabled
    exactly when the module is. *)
Theorem helm_module_configs configured moduleConfig :
  configureHelmModule containsSource posixJoin moduleConfig = Ok configured ->
  ((include moduleConfig ≠ None ∨ exclude moduleConfig ≠ None) ->
     include configured = include moduleConfig)
  ∧ (include moduleConfig = None -> exclude moduleConfig = None ->
     ∃ paths,
       include configured = Some (map (posixJoin (chartPath (spec moduleConfig))) paths)
       ∧ ∀ f, f ∈ valueFiles (spec moduleConfig) -> f ∈ paths)
  ∧ exclude configured = exclude moduleConfig
  ∧ (if skipDeploy (spec moduleConfig)
     then serviceConfigs configured = serviceConfigs moduleConfig
     else ∃ service, serviceConfigs configured = [service]
                     ∧ serviceName service = moduleName moduleConfig
                     ∧ serviceDisabled service = disabled moduleConfig)
  ∧ taskConfigName <$> taskConfigs configured = taskName <$> tasks (spec moduleConfig)
  ∧ testConfigName <$> testConfigs configured = testName <$> tests (spec moduleConfig)
  ∧ Forall (fun t => taskConfigDisabled t = disabled moduleConfig) (taskConfigs configured)
  ∧ Forall (fun t => testConfigDisabled t = disabled moduleConfig) (testConfigs configured).
Proof.
  unfold configureHelmModule.
  match goal with |- context [bindR ?x _] => destruct x as [fromBase|e] end;
    cbn [bindR]; [|done].
  intros [= <-].
  cbn [include exclude serviceConfigs taskConfigs testConfigs].
  split; [|split; [|split; [|split; [|split; [|split; [|split]]]]]].
  - intros [H|H]; destruct (include moduleConfig), (exclude moduleConfig); done.
  - intros -> ->. eexists. split; [reflexivity|].
    intros f Hf. apply elem_of_app. by right.
  - done.
  - destruct (skipDeploy (spec moduleConfig)); [done|]. by eexists.
  - rewrite <- list_fmap_compose. done.
  - rewrite <- list_fmap_compose. done.
  - apply Forall_fmap, Forall_true. done.
  - apply Forall_fmap, Forall_true. done.
Qed.

End HelmFacts.

Lemma declared_twice_error_ignores_scan_order_witness :
  addActionConfig MoreSamples.relativeToProject "/project"
    {[ ("Build", "api") := MoreSamples.apiBuildInFile "/project/services/api/garden.yml" ]}
    (MoreSamples.apiBuildInFile "/project/garden.yml")
  = addActionConfig MoreSamples.relativeToProject "/project"
      {[ ("Build", "api") := MoreSamples.apiBuildInFile "/project/garden.yml" ]}
      (MoreSamples.apiBuildInFile "/project/services/api/garden.yml").
Proof.
  apply (proj1 (declared_twice_error_ignores_scan_order MoreSamples.relativeToProject
                  "/project")); reflexivity.
Defined.

Lemma module_actions_never_replace_declared_actions_witness :
  ∃ merged,
    Garden.mergeModuleActionConfigs Samples.keyOf Samples.sampleRegistry
      [MoreSamples.workerDeploy] = Ok merged.
Proof.
  apply (proj1 (module_actions_never_replace_declared_actions Samples.keyOf
                  Samples.sampleRegistry [MoreSamples.workerDeploy])).
  split.
  - apply (bool_decide_unpack _). vm_compute. reflexivity.
  - intros c Hc. apply list_elem_of_singleton in Hc as ->. vm_compute. reflexivity.
Defined.

Lemma hidden_warning_is_not_emitted_witness :
  Garden.emitWarning (Garden.hideWarning ∅ "legacy-kind") "legacy-kind" "Kind is deprecated"
  = [].
Proof.
  apply (proj1 (hidden_warning_is_not_emitted ∅ "legacy-kind")).
Defined.

Lemma hide_stops_matching_monitors_witness :
  MoreSamples.apiLogs
    ∈ snd (ServerCommands.hideAction MoreSamples.matchesName (String.concat ", ") "log"
             (Some ["api"]) [MoreSamples.apiLogs; MoreSamples.webLogs; MoreSamples.apiSync])
  ∧ ServerCommands.hideAction MoreSamples.matchesName (String.concat ", ") "logs" (Some ["api"])
      [MoreSamples.apiLogs; MoreSamples.webLogs; MoreSamples.apiSync]
    = ServerCommands.hideAction MoreSamples.matchesName (String.concat ", ") "log" (Some ["api"])
        [MoreSamples.apiLogs; MoreSamples.webLogs; MoreSamples.apiSync].
Proof.
  destruct (hide_stops_matching_monitors MoreSamples.matchesName (String.concat ", ") "log"
              (Some ["api"]) [MoreSamples.apiLogs; MoreSamples.webLogs; MoreSamples.apiSync])
    as (Hplural & _ & _ & _ & Hstopped & _).
  split; [|exact Hplural].
  apply (Hstopped MoreSamples.apiLogs "api" [] eq_refl); [discriminate | discriminate |].
  split; [apply elem_of_cons; by left|]. split; [by right | reflexivity].
Defined.

Lemma resolve_request_failures_are_400_or_404_witness :
  ServerCommands.resolveRequest unit (fun _ => "/project") unit (fun _ => "deploy") unit
    (fun _ => false) (fun _ => false) (fun _ _ => Some tt) (fun s => [s])
    (fun _ args => (Some tt, args, [])) (fun _ _ _ _ => Ok tt) "generated-id"
    "/project" MoreSamples.requestForMissingRoot
  = ServerCommands.Failed unit unit unit 400
      "Specified projectRoot path (/nowhere) does not exist." None.
Proof.
  destruct (resolve_request_failures_are_400_or_404 unit (fun _ => "/project") unit
              (fun _ => "deploy") unit (fun _ => false) (fun _ => false)
              (fun _ _ => Some tt) (fun s => [s]) (fun _ args => (Some tt, args, []))
              (fun _ _ _ _ => Ok tt) "generated-id" "/project"
              MoreSamples.requestForMissingRoot) as (_ & _ & _ & Hroot & _).
  exact (Hroot "/nowhere"%string eq_refl eq_refl "/project"%string).
Defined.

Lemma helm_module_configs_witness :
  Helm.include MoreSamples.configuredChartModule
  = Some ["chart/*.yaml"; "chart/*.yml"; "chart/values-dev.yaml"]%string
  ∧ Helm.taskConfigName <$> Helm.taskConfigs MoreSamples.configuredChartModule = ["migrate"%string]
  ∧ Helm.dependencyName <$> Helm.buildDependencies MoreSamples.configuredChartModule
    = ["api-image"%string].
Proof.
  destruct (helm_module_configs (fun _ => false) MoreSamples.joinPath
              MoreSamples.configuredChartModule MoreSamples.chartModule eq_refl)
    as (_ & _ & _ & _ & Htasks & _).
  split; [reflexivity|]. split; [exact Htasks | reflexivity].
Defined.

(** ** The type check of [actionFromConfig] *)

Section TypeCheckFacts.

Import Builder.

Variable relative : string -> string -> string.
Variable naturalList : list string -> string.
Variable projectRoot : string.

Local Abbreviation checkActionType' := (checkActionType relative naturalList projectRoot).

(** X29. A config of one of the four kinds (line 88 has refused any
    other kind before) passes the type check of [actionFromConfig] exactly
    when its type is an action type of its kind or the name of a member
    that objects inherit (such as [constructor]), which the look-up finds
    as well.  Any other config is refused with a [ConfigurationError] that
    holds the path of the config; the error suggests other kinds exactly
    when some kind has an action type of this name, the kinds suggested
    are those kinds, in the order Build, Deploy, Run, Test, and the kind of
    the config is never among them; when no kind has the type, the error
    asks for a missing provider configuration. *)
Theorem unrecognized_type_suggests_other_kinds actionTypes config :
  knownKind config ->
  match checkActionType relative naturalList projectRoot actionTypes config with
  | Ok _ =>
      is_Some (actionTypes !! (kind config, type config))
      ∨ type config ∈ Editor.inheritedMembers
  | Err e =>
      actionTypes !! (kind config, type config) = None
      ∧ (type config ∉ Editor.inheritedMembers)
      ∧ errType e = ConfigurationError
      ∧ detailConfigs e = [config]
      ∧ includesStr (relative projectRoot (sourcePath config)) (message e) = true
      ∧ (∀ k, k ∈ availableKinds actionTypes (type config)
              <-> k ∈ actionKinds ∧ is_Some (actionTypes !! (k, type config)))
      ∧ (kind config ∉ availableKinds actionTypes (type config))
      ∧ sublist (availableKinds actionTypes (type config)) actionKinds
      ∧ (if bool_decide (availableKinds actionTypes (type config) = [])
         then includesStr "Are you missing a provider configuration?" (message e) = true
         else includesStr (naturalList (availableKinds actionTypes (type config))) (message e)
              = true)
  end.
Proof.
  intros _. unfold checkActionType.
  destruct (hasType actionTypes (kind config) (type config)) eqn:Hhas.
  { unfold hasType in Hhas. apply orb_true_iff in Hhas as [Hown|Hinh].
    - left. by apply bool_decide_eq_true in Hown.
    - right. apply existsb_exists in Hinh as (m & Hm & ->%String.eqb_eq).
      by apply list_elem_of_In. }
  unfold hasType in Hhas. apply orb_false_iff in Hhas as [Hown Hinh].
  apply bool_decide_eq_false in Hown.
  assert (Hlook : actionTypes !! (kind config, type config) = None).
  { destruct (actionTypes !! (kind config, type config)); [|done]. by destruct Hown. }
  assert (Hnot : type config ∉ Editor.inheritedMembers).
  { intros Hm. apply list_elem_of_In in Hm.
    assert (existsb (String.eqb (type config)) Editor.inheritedMembers = true) as Hex;
      [|congruence].
    apply existsb_exists. exists (type config). split; [done | apply String.eqb_refl]. }
  assert (Hin : ∀ k, k ∈ availableKinds actionTypes (type config)
                     <-> k ∈ actionKinds ∧ is_Some (actionTypes !! (k, type config))).
  { intros k. unfold availableKinds, hasType.
    rewrite !list_elem_of_In, filter_In, Hinh, orb_false_r, bool_decide_eq_true. done. }
  split; [done|]. split; [done|].
  split; [unfold unrecognizedTypeError; by destruct (availableKinds _ _)|].
  split; [unfold unrecognizedTypeError; by destruct (availableKinds _ _)|].
  split.
  { unfold unrecognizedTypeError.
    destruct (availableKinds actionTypes (type config)); cbn [message].
    - do 3 apply includesStr_skip. apply includesStr_prefix, prefix_app.
    - do 5 apply includesStr_skip. apply includesStr_prefix, prefix_app. }
  split; [exact Hin|].
  split.
  { intros Hk. apply Hin in Hk as [_ [x Hx]]. congruence. }
  split; [apply sublist_list_filter|].
  unfold unrecognizedTypeError. case_bool_decide as Hnil.
  - rewrite Hnil. cbn [message].
    do 4 apply includesStr_skip. vm_compute. reflexivity.
  - destruct (availableKinds actionTypes (type config)) as [|k ks]; [done|]. cbn [message].
    do 11 apply includesStr_skip. apply includesStr_prefix, prefix_app.
Qed.

End TypeCheckFacts.

(** X29 for a Deploy of type [container] where only Build has that type,
    and for a Deploy of type [constructor]. *)
Lemma unrecognized_type_suggests_other_kinds_witness :
  knownKind (Samples.mkConfig "Deploy" "container" "api" "/project/api")
  ∧ (∃ e, Builder.checkActionType MoreSamples.relativeToProject (String.concat ", ") "/project"
            Samples.sampleActionTypes
            (Samples.mkConfig "Deploy" "container" "api" "/project/api") = Err e
          ∧ errType e = ConfigurationError
          ∧ Builder.availableKinds Samples.sampleActionTypes "container" = ["Build"%string])
  ∧ Builder.checkActionType MoreSamples.relativeToProject (String.concat ", ") "/project"
      Samples.sampleActionTypes
      (Samples.mkConfig "Deploy" "constructor" "api" "/project/api") = Ok tt.
Proof.
  assert (Hkind : knownKind (Samples.mkConfig "Deploy" "container" "api" "/project/api")).
  { unfold knownKind, actionKinds. cbn [kind Samples.mkConfig].
    apply elem_of_cons. right. apply elem_of_cons. by left. }
  split; [exact Hkind|]. split; [|by vm_compute].
  pose proof (unrecognized_type_suggests_other_kinds MoreSamples.relativeToProject
                (String.concat ", ") "/project" Samples.sampleActionTypes
                (Samples.mkConfig "Deploy" "container" "api" "/project/api") Hkind) as Hcheck.
  destruct (Builder.checkActionType _ _ _ _ _) as [[]|e] eqn:Hrun.
  - vm_compute in Hrun. discriminate.
  - exists e. destruct Hcheck as (_ & _ & Htype & _).
    split; [reflexivity|]. split; [exact Htype | by vm_compute].
Defined.
